(** * go-crypto-suite: the key abstraction and its wire envelopes

    A shallow embedding of the Go package [crypto] (files [algorithm.go],
    [crypto.go], [aes.go], [hmac_sha.go], [ecdsa.go], the helpers of the
    utility file) and of the package [argon2], followed by the properties
    stated about them (Part II) and by further properties of the same code
    (Part III).

    Conventions.
    - A Go [byte] is an eight-bit character ([ascii]); a [[]byte] is a
      [list byte] and a Go [string] is a [string].  Conversions between the
      two copy the bytes unchanged.
    - The type parameter [T] of the package ranges over [[]byte], [string]
      and the defined types over them; the helpers that look at the dynamic
      type of a value know the first two only.
    - A Go [int] (and the [Algorithm] enumeration built on it) is a [Z]; the
      64-bit range only matters for [strconv.Atoi], where it is written out.
    - A call returns [Ok v], fails with [Err e] (the Go [error] result), or
      panics ([Panic msg]), which in Go unwinds the goroutine and, without a
      [recover], ends the process.
    - The cryptographic primitives of the Go libraries (AES block cipher, GCM,
      HMAC, PBKDF2, ECDSA, Argon2) are interfaces here, as they are
      collaborators of the package; the composition around them (padding, CBC
      chaining, envelopes, registry, dispatch) is embedded as written. *)

From Stdlib Require Import ZArith NArith List Ascii Lia Bool.
From Stdlib Require String.
From stdpp Require Import base gmap strings.

Local Open Scope Z_scope.

(* ===================================================================== *)
(** * Part I: definitions                                                 *)
(* ===================================================================== *)

(** ** Bytes *)

Definition byte : Type := ascii.

(** [int(b)] for a byte [b]. *)
Definition byte_val (b : byte) : N := N_of_ascii b.

(** [byte(n)]: conversion to [uint8] keeps the low eight bits. *)
Definition byte_of (n : N) : byte := ascii_of_N (n mod 256)%N.

Definition xor_byte (a b : byte) : byte :=
  byte_of (N.lxor (byte_val a) (byte_val b)).

(** [subtle.XORBytes]: as many bytes as the shorter operand has. *)
Definition xor_bytes (x y : list byte) : list byte := zip_with xor_byte x y.

(** [[]byte(s)] and [string(b)]. *)
Definition bytes_of_string (s : string) : list byte := String.list_ascii_of_string s.
Definition string_of_bytes (b : list byte) : string := String.string_of_list_ascii b.

(** [bytes.Repeat([]byte{b}, n)] *)
Definition bytes_Repeat (b : byte) (n : nat) : list byte := repeat b n.

(** ** Errors, panics and results *)

Inductive error : Type :=
| errors_New (text : string)               (* errors.New, fmt.Errorf without %w *)
| Wrapped (text : string) (cause : error)  (* fmt.Errorf("text: %w", cause) *)
| Printed (text : string) (cause : error)  (* fmt.Errorf("text: %v", cause) *)
| CorruptInputError                        (* encoding/base64 *)
| NumError                                 (* strconv: syntax or range *)
| KeySizeError (n : Z)                     (* crypto/aes *)
| errOpen                                  (* crypto/cipher: message authentication failed *)
| errScan                                  (* fmt: input does not match format *)
| errEntropy.                              (* crypto/rand: the reader failed *)

Inductive result (A : Type) : Type :=
| Ok (a : A)
| Err (e : error)
| Panic (msg : string).
Arguments Ok {A} a.
Arguments Err {A} e.
Arguments Panic {A} msg.

#[global] Instance result_ret : MRet result := fun _ a => Ok a.
#[global] Instance result_bind : MBind result := fun _ _ f m =>
  match m with
  | Ok a => f a
  | Err e => Err e
  | Panic msg => Panic msg
  end.

(** [if err != nil { err = f(err); return }] *)
Definition on_err {A} (f : error -> error) (m : result A) : result A :=
  match m with
  | Err e => Err (f e)
  | _ => m
  end.

Definition is_Ok {A} (m : result A) : bool :=
  match m with Ok _ => true | _ => false end.
Definition is_Panic {A} (m : result A) : bool :=
  match m with Panic _ => true | _ => false end.

(** ** The representation generic [T DataType] ([~[]byte | ~string]) *)

(** The two underlying types of the constraint. *)
Inductive Underlying : Type := UBytes | UString.

(** The constraint admits [[]byte] and [string] themselves and, by its [~],
    every defined type over one of them ([type Token string]).  A defined
    type is known here by its underlying type: nothing in the package tells
    two defined types over the same underlying type apart. *)
Inductive DataType : Type :=
| Plain (u : Underlying)      (* [[]byte] or [string] itself *)
| Named (u : Underlying).     (* a defined type over [[]byte] or [string] *)

Abbreviation TBytes := (Plain UBytes).
Abbreviation TString := (Plain UString).

Definition data (T : DataType) : Type :=
  match T with
  | Plain UBytes | Named UBytes => list byte
  | Plain UString | Named UString => string
  end.

(** The type switches of [toString] and [toBytes] have cases for the exact
    types [[]byte] and [string] only: a value of a defined type matches
    neither and reaches the final [return ""], [return nil]. *)
Definition toString {T : DataType} : data T -> string :=
  match T with
  | Plain UBytes => fun b => string_of_bytes b
  | Plain UString => fun s => s
  | Named UBytes => fun _ => EmptyString
  | Named UString => fun _ => EmptyString
  end.

Definition toBytes {T : DataType} : data T -> list byte :=
  match T with
  | Plain UBytes => fun b => b
  | Plain UString => fun s => bytes_of_string s
  | Named UBytes => fun _ => []
  | Named UString => fun _ => []
  end.

(** The conversion [T(b)] of a byte slice [b]. *)
Definition T_of_bytes {T : DataType} : list byte -> data T :=
  match T with
  | Plain UBytes | Named UBytes => fun b => b
  | Plain UString | Named UString => fun b => string_of_bytes b
  end.

(** The conversion [T(s)] of a string [s]. *)
Definition T_of_string {T : DataType} : string -> data T :=
  match T with
  | Plain UBytes | Named UBytes => fun s => bytes_of_string s
  | Plain UString | Named UString => fun s => s
  end.

(** The dynamic type of a value passed as [interface{}] to key import. *)
Inductive any : Type :=
| AnyBytes (b : list byte)
| AnyString (s : string)
| AnyOther.                (* a value of any other dynamic type *)

(** ** strconv *)

Definition digit_char (d : Z) : ascii := ascii_of_N (48 + Z.to_N d).

Fixpoint format_digits (fuel : nat) (n : Z) (acc : string) : string :=
  match fuel with
  | O => acc
  | S fuel' =>
      let acc' := String (digit_char (n mod 10)) acc in
      if n <? 10 then acc' else format_digits fuel' (n / 10) acc'
  end.

(** [strconv.Itoa]; a number has at most as many decimal digits as bits. *)
Definition strconv_Itoa (i : Z) : string :=
  if i <? 0
  then String "-" (format_digits (S (Z.to_nat (Z.log2 (- i)))) (- i) "")
  else format_digits (S (Z.to_nat (Z.log2 i))) i "".

Definition digit_val (c : ascii) : option Z :=
  let n := Z.of_N (N_of_ascii c) in
  if (48 <=? n) && (n <=? 57) then Some (n - 48) else None.

Fixpoint parse_digits (s : string) (acc : Z) : option Z :=
  match s with
  | EmptyString => Some acc
  | String c s' =>
      match digit_val c with
      | Some d => parse_digits s' (acc * 10 + d)
      | None => None
      end
  end.

(** [strconv.Atoi] on a 64-bit platform: an optional sign, then one or more
    decimal digits, the value within the range of [int]. *)
Definition strconv_Atoi (s : string) : result Z :=
  let '(neg, body) :=
    match s with
    | String "-" r => (true, r)
    | String "+" r => (false, r)
    | _ => (false, s)
    end in
  match body with
  | EmptyString => Err NumError
  | _ =>
      match parse_digits body 0 with
      | None => Err NumError
      | Some n =>
          let v := if neg then - n else n in
          if (v <? - 2 ^ 63) || (2 ^ 63 - 1 <? v) then Err NumError else Ok v
      end
  end.

(** ** strings *)

(** [strings.Index] and the two slices around the match, for a separator of
    one byte. *)
Fixpoint cut (sep : ascii) (s : string) : option (string * string) :=
  match s with
  | EmptyString => None
  | String c r =>
      if Ascii.eqb c sep then Some (EmptyString, r)
      else match cut sep r with
           | Some (a, b) => Some (String c a, b)
           | None => None
           end
  end.

(** [strings.SplitN(s, sep, n)] for [n >= 0] and a separator of one byte:
    at most [n] pieces, the last one the unsplit remainder. *)
Fixpoint strings_SplitN (s : string) (sep : ascii) (n : nat) : list string :=
  match n with
  | O => []
  | S O => [s]
  | S n' =>
      match cut sep s with
      | None => [s]
      | Some (a, b) => a :: strings_SplitN b sep n'
      end
  end.

(** ** encoding/base64: [StdEncoding] (padded) and [RawStdEncoding] *)

Definition encodeStd : string :=
  "ABCDEFGHIJKLMNOPQRSTUVWXYZabcdefghijklmnopqrstuvwxyz0123456789+/".

Definition padChar : ascii := "="%char.

(** [enc.encode[v]] for a six-bit value [v]. *)
Definition encode_char (v : N) : ascii :=
  match String.get (N.to_nat v) encodeStd with
  | Some c => c
  | None => "000"%char
  end.

Fixpoint index_from (c : ascii) (s : string) (i : N) : option N :=
  match s with
  | EmptyString => None
  | String c' s' => if Ascii.eqb c c' then Some i else index_from c s' (N.succ i)
  end.

(** [enc.decodeMap[c]]: the six-bit value of a character of the alphabet,
    [None] where the Go table holds [0xff]. *)
Definition decodeMap (c : ascii) : option N := index_from c encodeStd 0%N.

(** [Encoding.EncodeToString]: three bytes make four characters; a final
    group of one or two bytes makes two or three characters, padded to four
    with ['='] when the encoding pads. *)
Fixpoint base64_encode (pad : bool) (src : list byte) : string :=
  match src with
  | [] => EmptyString
  | [a] =>
      let val := N.shiftl (byte_val a) 16 in
      String (encode_char (N.land (N.shiftr val 18) 63))
        (String (encode_char (N.land (N.shiftr val 12) 63))
           (if pad then String padChar (String padChar EmptyString)
            else EmptyString))
  | [a; b] =>
      let val := N.lor (N.shiftl (byte_val a) 16) (N.shiftl (byte_val b) 8) in
      String (encode_char (N.land (N.shiftr val 18) 63))
        (String (encode_char (N.land (N.shiftr val 12) 63))
           (String (encode_char (N.land (N.shiftr val 6) 63))
              (if pad then String padChar EmptyString else EmptyString)))
  | a :: b :: c :: rest =>
      let val := N.lor (N.shiftl (byte_val a) 16)
                   (N.lor (N.shiftl (byte_val b) 8) (byte_val c)) in
      String (encode_char (N.land (N.shiftr val 18) 63))
        (String (encode_char (N.land (N.shiftr val 12) 63))
           (String (encode_char (N.land (N.shiftr val 6) 63))
              (String (encode_char (N.land val 63))
                 (base64_encode pad rest))))
  end.

Definition is_newline (c : ascii) : bool :=
  Ascii.eqb c "010"%char || Ascii.eqb c "013"%char.

Fixpoint skip_newlines (s : string) : string :=
  match s with
  | String c r => if is_newline c then skip_newlines r else s
  | EmptyString => s
  end.

(** The bytes of one quantum of [length q] six-bit values ([dlen - 1] of
    them); the encodings of the package are not strict, so left-over bits are
    dropped. *)
Definition assemble (q : list N) : list byte :=
  let d i := nth i q 0%N in
  let val := N.lor (N.shiftl (d 0%nat) 18)
               (N.lor (N.shiftl (d 1%nat) 12)
                  (N.lor (N.shiftl (d 2%nat) 6) (d 3%nat))) in
  firstn (length q - 1)
    [byte_of (N.shiftr val 16); byte_of (N.shiftr val 8); byte_of val].

(** [Encoding.DecodeString], as the repeated [decodeQuantum] of the Go
    library: [q] holds the values of the quantum being read.  Line breaks are
    skipped; padding must complete a quantum of two or three values and end
    the input.  On an error Go also returns the bytes decoded so far; every
    caller in the package drops them, and so does the model. *)
Fixpoint base64_decode (pad : bool) (src : string) (q : list N) : result (list byte) :=
  match src with
  | EmptyString =>
      match q with
      | [] => Ok []
      | [_] => Err CorruptInputError
      | _ => if pad then Err CorruptInputError else Ok (assemble q)
      end
  | String c rest =>
      match decodeMap c with
      | Some v =>
          if (length q =? 3)%nat
          then tl ← base64_decode pad rest []; Ok (assemble (q ++ [v]) ++ tl)
          else base64_decode pad rest (q ++ [v])
      | None =>
          if is_newline c then base64_decode pad rest q
          else if pad && Ascii.eqb c padChar then
            match q with
            | [] | [_] => Err CorruptInputError
            | [_; _] =>
                match skip_newlines rest with
                | String c' rest' =>
                    if Ascii.eqb c' padChar then
                      match skip_newlines rest' with
                      | EmptyString => Ok (assemble q)
                      | _ => Err CorruptInputError
                      end
                    else Err CorruptInputError
                | EmptyString => Err CorruptInputError
                end
            | _ =>
                match skip_newlines rest with
                | EmptyString => Ok (assemble q)
                | _ => Err CorruptInputError
                end
            end
          else Err CorruptInputError
      end
  end.

(** [base64.StdEncoding] *)
Definition base64_StdEncoding_EncodeToString (src : list byte) : string :=
  base64_encode true src.
Definition base64_StdEncoding_DecodeString (s : string) : result (list byte) :=
  base64_decode true s [].

(** [base64.RawStdEncoding] *)
Definition base64_RawStdEncoding_EncodeToString (src : list byte) : string :=
  base64_encode false src.
Definition base64_RawStdEncoding_DecodeString (s : string) : result (list byte) :=
  base64_decode false s [].

(** ** bytes.Equal and crypto/subtle *)

(** [bytes.Equal(a, b)] is [string(a) == string(b)]: the lengths are compared
    first, then the contents up to the first difference.  The second
    component counts the byte pairs that were examined, the observable a
    timing attacker measures. *)
Fixpoint memequal (a b : list byte) : bool * nat :=
  match a, b with
  | x :: a', y :: b' =>
      if Ascii.eqb x y
      then let '(r, n) := memequal a' b' in (r, S n)
      else (false, 1%nat)
  | _, _ => (true, 0%nat)
  end.

Definition bytes_Equal_run (a b : list byte) : bool * nat :=
  if (length a =? length b)%nat then memequal a b else (false, 0%nat).

Definition bytes_Equal (a b : list byte) : bool := fst (bytes_Equal_run a b).

(** [subtle.ConstantTimeCompare]: the lengths are compared first; then every
    byte pair is folded into [v |= x[i] ^ y[i]] whatever the contents. *)
Fixpoint ct_fold (x y : list byte) (v : N) : N * nat :=
  match x, y with
  | a :: x', b :: y' =>
      let '(r, n) := ct_fold x' y' (N.lor v (N.lxor (byte_val a) (byte_val b))) in
      (r, S n)
  | _, _ => (v, 0%nat)
  end.

Definition subtle_ConstantTimeCompare_run (x y : list byte) : Z * nat :=
  if (length x =? length y)%nat
  then let '(v, n) := ct_fold x y 0%N in ((if (v =? 0)%N then 1 else 0), n)
  else (0, 0%nat).

(** [hmac.Equal(a, b)] is [subtle.ConstantTimeCompare(a, b) == 1]. *)
Definition hmac_Equal_run (a b : list byte) : bool * nat :=
  let '(r, n) := subtle_ConstantTimeCompare_run a b in (r =? 1, n).

Definition hmac_Equal (a b : list byte) : bool := fst (hmac_Equal_run a b).

(** ** algorithm.go *)

Definition Algorithm : Type := Z.
Definition AlgorithmType : Type := string.

Definition HashType : Algorithm := 100.
Definition SymmetricType : Algorithm := 200.
Definition AsymmetricType : Algorithm := 300.

(** Each [const] block restarts [iota] at 0. *)
Definition HmacSha256 : Algorithm := 0 + HashType + 1.
Definition HmacSha512 : Algorithm := 1 + HashType + 1.
Definition TypeHmacSha256 : AlgorithmType := "HMAC_SHA256".
Definition TypeHmacSha512 : AlgorithmType := "HMAC_SHA512".

Definition AesCbc128 : Algorithm := 0 + SymmetricType + 1.
Definition AesCbc192 : Algorithm := 1 + SymmetricType + 1.
Definition AesCbc256 : Algorithm := 2 + SymmetricType + 1.
Definition AesGcm128 : Algorithm := 3 + SymmetricType + 1.
Definition AesGcm192 : Algorithm := 4 + SymmetricType + 1.
Definition AesGcm256 : Algorithm := 5 + SymmetricType + 1.
Definition TypeAesCbc128 : AlgorithmType := "AES_CBC_128".
Definition TypeAesCbc192 : AlgorithmType := "AES_CBC_192".
Definition TypeAesCbc256 : AlgorithmType := "AES_CBC_256".
Definition TypeAesGcm128 : AlgorithmType := "AES_GCM_128".
Definition TypeAesGcm192 : AlgorithmType := "AES_GCM_192".
Definition TypeAesGcm256 : AlgorithmType := "AES_GCM_256".

Definition EcdsaP256 : Algorithm := 0 + AsymmetricType + 1.
Definition EcdsaP384 : Algorithm := 1 + AsymmetricType + 1.
Definition Rsa1024 : Algorithm := 2 + AsymmetricType + 1.
Definition Rsa2048 : Algorithm := 3 + AsymmetricType + 1.
Definition Rsa4096 : Algorithm := 4 + AsymmetricType + 1.
Definition TypeEcdsaP256 : AlgorithmType := "ECDSA_P256".
Definition TypeEcdsaP384 : AlgorithmType := "ECDSA_P384".
Definition TypeRsa1024 : AlgorithmType := "RSA_1024".
Definition TypeRsa2048 : AlgorithmType := "RSA_2048".
Definition TypeRsa4096 : AlgorithmType := "RSA_4096".

Definition algorithms : gmap string Z :=
  list_to_map
    [ (TypeHmacSha256, HmacSha256); (TypeHmacSha512, HmacSha512);
      (TypeAesCbc128, AesCbc128); (TypeAesCbc192, AesCbc192);
      (TypeAesCbc256, AesCbc256); (TypeAesGcm128, AesGcm128);
      (TypeAesGcm192, AesGcm192); (TypeAesGcm256, AesGcm256);
      (TypeEcdsaP256, EcdsaP256); (TypeEcdsaP384, EcdsaP384);
      (TypeRsa1024, Rsa1024); (TypeRsa2048, Rsa2048); (TypeRsa4096, Rsa4096) ].

Definition algorithmsType : gmap Z string :=
  list_to_map
    [ (HmacSha256, TypeHmacSha256); (HmacSha512, TypeHmacSha512);
      (AesCbc128, TypeAesCbc128); (AesCbc192, TypeAesCbc192);
      (AesCbc256, TypeAesCbc256); (AesGcm128, TypeAesGcm128);
      (AesGcm192, TypeAesGcm192); (AesGcm256, TypeAesGcm256);
      (EcdsaP256, TypeEcdsaP256); (EcdsaP384, TypeEcdsaP384);
      (Rsa1024, TypeRsa1024); (Rsa2048, TypeRsa2048); (Rsa4096, TypeRsa4096) ].

(** A Go map lookup of a missing key yields the zero value. *)
Definition GetTypeByAlgorithm (algorithm : Algorithm) : AlgorithmType :=
  default EmptyString (algorithmsType !! algorithm).

Definition GetAlgorithmByType (algorithm : AlgorithmType) : Algorithm :=
  default 0 (algorithms !! algorithm).

(** ** The utility file: errors, random bytes, key conversion, padding *)

Definition ErrEmptyKey : error := errors_New "key cannot be empty".
Definition ErrUnsupportedKey : error :=
  errors_New "unsupported key type, only string or []byte keys are allowed".
Definition ErrUnsupportedMethod : error :=
  errors_New "this method is not applicable for the given key type".

(** [crypto/rand.Reader] as seen by one call: either the read fails, or it
    fills the buffer with the bytes the source draws. *)
Inductive RandReader : Type :=
| ReaderFails
| ReaderDraws (draw : nat -> byte).

Definition rand_Read (r : RandReader) (n : nat) : result (list byte) :=
  match r with
  | ReaderFails => Err errEntropy
  | ReaderDraws draw => Ok (map draw (seq 0 n))
  end.

(** [randomSize]: [make([]byte, len)] panics on a negative length. *)
Definition randomSize (r : RandReader) (len : Z) : result (list byte) :=
  if len <? 0 then Panic "makeslice: len out of range"
  else rand_Read r (Z.to_nat len).

Definition checkAndConvertKey (key : any) : result (list byte) :=
  match key with
  | AnyBytes key => if (length key =? 0)%nat then Err ErrEmptyKey else Ok key
  | AnyString key =>
      if String.eqb key EmptyString then Err ErrEmptyKey
      else Ok (bytes_of_string key)
  | AnyOther => Err ErrUnsupportedKey
  end.

(** [byte(i)] for an [int] [i]. *)
Definition byte_of_int (i : Z) : byte := byte_of (Z.to_N (i mod 256)).

(** [bytes.Repeat] panics on a negative count. *)
Definition bytes_Repeat_int (b : byte) (count : Z) : result (list byte) :=
  if count <? 0 then Panic "bytes: negative Repeat count"
  else Ok (bytes_Repeat b (Z.to_nat count)).

(** [%] on [int] truncates towards zero and panics on a zero divisor. *)
Definition pkcs7Padding {T : DataType} (src : data T) (blockSize : Z) : result (list byte) :=
  if blockSize =? 0 then Panic "integer divide by zero"
  else
    let padding := blockSize - Z.rem (Z.of_nat (length (toBytes src))) blockSize in
    paddingText ←
      (if padding =? 0
       then bytes_Repeat_int (byte_of_int blockSize) blockSize
       else bytes_Repeat_int (byte_of_int padding) padding);
    Ok (toBytes src ++ paddingText).

(** [src[len(src)-1]] panics on an empty slice; [src[:len(src)-unPadding]]
    panics when the bound is negative. *)
Definition pkcs7UnPadding {T : DataType} (src : data T) : result (list byte) :=
  match last (toBytes src) with
  | None => Panic "index out of range [-1]"
  | Some b =>
      let unPadding := Z.of_N (byte_val b) in
      let high := Z.of_nat (length (toBytes src)) - unPadding in
      if high <? 0 then Panic "slice bounds out of range"
      else Ok (firstn (Z.to_nat high) (toBytes src))
  end.

(** ** The primitives consumed from the Go libraries *)

(** [crypto/aes]: the block function and its inverse, on blocks of 16 bytes
    under a key of 16, 24 or 32 bytes. *)
Class AES : Type := {
  aes_encryptBlock : list byte -> list byte -> list byte;
  aes_decryptBlock : list byte -> list byte -> list byte
}.

(** [crypto/cipher] GCM over AES: seal and open under a key and a nonce of 12
    bytes, with additional data.  The size limit of the mode (2^36 - 32 bytes
    of plaintext) is a resource bound outside this model. *)
Class GCM : Type := {
  gcm_seal : list byte -> list byte -> list byte -> list byte -> list byte;
  gcm_open : list byte -> list byte -> list byte -> list byte -> option (list byte)
}.

(** [crypto/hmac] over SHA-256 and SHA-512: key, then message. *)
Class HMAC : Type := {
  hmac_sha256 : list byte -> list byte -> list byte;
  hmac_sha512 : list byte -> list byte -> list byte
}.

(** [pbkdf2.Key(password, salt, iter, keyLen, sha256.New)] *)
Class PBKDF2 : Type := {
  pbkdf2_Key : list byte -> list byte -> Z -> Z -> list byte
}.

(** [crypto/ecdsa]: key types, the public half of a private key, signing of
    a digest with the randomness of a reader, ASN.1 verification. *)
Class ECDSA : Type := {
  ecdsa_PrivateKey : Type;
  ecdsa_PublicKey : Type;
  ecdsa_public : ecdsa_PrivateKey -> ecdsa_PublicKey;
  ecdsa_Sign : ecdsa_PrivateKey -> RandReader -> list byte -> result (list byte);
  ecdsa_VerifyASN1 : ecdsa_PublicKey -> list byte -> list byte -> bool
}.

Section Package.
Context {Haes : AES} {Hgcm : GCM} {Hhmac : HMAC} {Hkdf : PBKDF2} {Hecdsa : ECDSA}.

(** *** crypto/aes and crypto/cipher around the primitives *)

Definition aes_BlockSize : Z := 16.

Record cipher_Block : Type := { Block_key : list byte }.

Definition Block_Encrypt (b : cipher_Block) (src : list byte) : list byte :=
  aes_encryptBlock (Block_key b) src.
Definition Block_Decrypt (b : cipher_Block) (src : list byte) : list byte :=
  aes_decryptBlock (Block_key b) src.

Definition aes_NewCipher (key : list byte) : result cipher_Block :=
  let k := Z.of_nat (length key) in
  if (k =? 16) || (k =? 24) || (k =? 32)
  then Ok {| Block_key := key |}
  else Err (KeySizeError k).

Record cbc : Type := { cbc_b : cipher_Block; cbc_iv : list byte }.

Definition cipher_NewCBCEncrypter (b : cipher_Block) (iv : list byte) : result cbc :=
  if negb (Z.of_nat (length iv) =? aes_BlockSize)
  then Panic "cipher.NewCBCEncrypter: IV length must equal block size"
  else Ok {| cbc_b := b; cbc_iv := iv |}.

Definition cipher_NewCBCDecrypter (b : cipher_Block) (iv : list byte) : result cbc :=
  if negb (Z.of_nat (length iv) =? aes_BlockSize)
  then Panic "cipher.NewCBCDecrypter: IV length must equal block size"
  else Ok {| cbc_b := b; cbc_iv := iv |}.

(** The loop of [cbcEncrypter.CryptBlocks] over [n] blocks: xor with the
    previous ciphertext block (first the IV), then encrypt. *)
Fixpoint cbc_encrypt_blocks (b : cipher_Block) (iv src : list byte) (n : nat) : list byte :=
  match n with
  | O => []
  | S n' =>
      let c := Block_Encrypt b (xor_bytes (firstn 16 src) iv) in
      c ++ cbc_encrypt_blocks b c (skipn 16 src) n'
  end.

(** The loop of [cbcDecrypter.CryptBlocks]: decrypt, then xor with the
    previous ciphertext block. *)
Fixpoint cbc_decrypt_blocks (b : cipher_Block) (iv src : list byte) (n : nat) : list byte :=
  match n with
  | O => []
  | S n' =>
      let c := firstn 16 src in
      xor_bytes (Block_Decrypt b c) iv ++ cbc_decrypt_blocks b c (skipn 16 src) n'
  end.

(** [mode.CryptBlocks(dst, src)] with [dst] of the length of [src]. *)
Definition cbcEncrypter_CryptBlocks (x : cbc) (src : list byte) : result (list byte) :=
  if negb (Z.of_nat (length src) mod aes_BlockSize =? 0)
  then Panic "crypto/cipher: input not full blocks"
  else Ok (cbc_encrypt_blocks (cbc_b x) (cbc_iv x) src (length src / 16)%nat).

Definition cbcDecrypter_CryptBlocks (x : cbc) (src : list byte) : result (list byte) :=
  if negb (Z.of_nat (length src) mod aes_BlockSize =? 0)
  then Panic "crypto/cipher: input not full blocks"
  else Ok (cbc_decrypt_blocks (cbc_b x) (cbc_iv x) src (length src / 16)%nat).

Record cipher_AEAD : Type := { gcm_cipher : cipher_Block }.

(** [cipher.NewGCM] fails only for a block size other than 16. *)
Definition cipher_NewGCM (b : cipher_Block) : result cipher_AEAD :=
  Ok {| gcm_cipher := b |}.

Definition gcm_NonceSize (g : cipher_AEAD) : Z := 12.
Definition gcm_tagSize : Z := 16.

Definition gcm_Seal (g : cipher_AEAD) (nonce plaintext additional : list byte) : result (list byte) :=
  if negb (Z.of_nat (length nonce) =? gcm_NonceSize g)
  then Panic "crypto/cipher: incorrect nonce length given to GCM"
  else Ok (gcm_seal (Block_key (gcm_cipher g)) nonce plaintext additional).

Definition gcm_Open (g : cipher_AEAD) (nonce ciphertext additional : list byte) : result (list byte) :=
  if negb (Z.of_nat (length nonce) =? gcm_NonceSize g)
  then Panic "crypto/cipher: incorrect nonce length given to GCM"
  else if Z.of_nat (length ciphertext) <? gcm_tagSize then Err errOpen
  else match gcm_open (Block_key (gcm_cipher g)) nonce ciphertext additional with
       | Some plaintext => Ok plaintext
       | None => Err errOpen
       end.

(** *** aes.go *)

Record aesCbcKeyImpl : Type := { cbc_key : list byte; cbc_algorithm : Algorithm }.

Definition aesCbcKeyImpl_AlgorithmType (a : aesCbcKeyImpl) : AlgorithmType :=
  GetTypeByAlgorithm (cbc_algorithm a).

Definition aesCbcKeyImpl_Sign {T : DataType} (a : aesCbcKeyImpl) (_ : data T) : result (data T) :=
  Err ErrUnsupportedMethod.

Definition aesCbcKeyImpl_Verify {T : DataType} (a : aesCbcKeyImpl) (_ _ : data T) : bool :=
  false.

Definition aesCbcKeyImpl_Encrypt {T : DataType} (a : aesCbcKeyImpl)
    (plaintext : data T) (rnd : RandReader) : result (data T) :=
  paddedText ← pkcs7Padding plaintext aes_BlockSize;
  iv ← on_err (Wrapped "random iv error: ") (randomSize rnd aes_BlockSize);
  block ← on_err (Wrapped "new aes chipher error: ") (aes_NewCipher (cbc_key a));
  mode ← cipher_NewCBCEncrypter block iv;
  dst ← cbcEncrypter_CryptBlocks mode paddedText;
  let payload := iv ++ dst in
  let data := strconv_Itoa (cbc_algorithm a) +:+ "." +:+
              base64_StdEncoding_EncodeToString payload in
  Ok (T_of_bytes (bytes_of_string data)).

(** The two slice expressions [ciphertextBytes[0:aes.BlockSize]] and
    [ciphertextBytes[aes.BlockSize:]]: the first is bounded by the capacity of
    the decoded buffer, the second by its length, so one of them panics
    exactly when fewer than 16 bytes were decoded. *)
Definition split_iv (ciphertextBytes : list byte) : result (list byte * list byte) :=
  if Z.of_nat (length ciphertextBytes) <? aes_BlockSize
  then Panic "slice bounds out of range"
  else Ok (firstn 16 ciphertextBytes, skipn 16 ciphertextBytes).

Definition aesCbcKeyImpl_Decrypt {T : DataType} (a : aesCbcKeyImpl)
    (ciphertext : data T) : result (data T) :=
  let ciphertextStr := toString ciphertext in
  match strings_SplitN ciphertextStr "." 2 with
  | [part0; part1] =>
      typ ← on_err (fun _ => errors_New "type is not a number") (strconv_Atoi part0);
      if negb (typ =? cbc_algorithm a)
      then Err (errors_New ("invalid algorithm type: " +:+ GetTypeByAlgorithm typ))
      else
        ciphertextBytes ← on_err (Wrapped "ciphertext decodeing base64 error: ")
                            (base64_StdEncoding_DecodeString part1);
        '(iv, srcCiphertextBytes) ← split_iv ciphertextBytes;
        block ← on_err (Printed "new aes chipher error: ") (aes_NewCipher (cbc_key a));
        mode ← cipher_NewCBCDecrypter block iv;
        paddedText ← cbcDecrypter_CryptBlocks mode srcCiphertextBytes;
        plain ← pkcs7UnPadding (T := TBytes) paddedText;
        Ok (T_of_bytes plain)
  | _ => Err (errors_New "invalid encrypted data")
  end.

Record aesGcmKeyImpl : Type := { gcm_key : list byte; gcm_algorithm : Algorithm }.

Definition aesGcmKeyImpl_AlgorithmType (a : aesGcmKeyImpl) : AlgorithmType :=
  GetTypeByAlgorithm (gcm_algorithm a).

Definition aesGcmKeyImpl_Sign {T : DataType} (a : aesGcmKeyImpl) (_ : data T) : result (data T) :=
  Err ErrUnsupportedMethod.

Definition aesGcmKeyImpl_Verify {T : DataType} (a : aesGcmKeyImpl) (_ _ : data T) : bool :=
  false.

Definition aesGcmKeyImpl_Encrypt {T : DataType} (a : aesGcmKeyImpl)
    (plaintext : data T) (rnd : RandReader) : result (data T) :=
  block ← on_err (Wrapped "new aes chipher error: ") (aes_NewCipher (gcm_key a));
  gcm ← on_err (Wrapped "new gcm chipher error: ") (cipher_NewGCM block);
  nonce ← on_err (Wrapped "random gcm nonce error: ") (randomSize rnd (gcm_NonceSize gcm));
  sealed ← gcm_Seal gcm nonce (toBytes plaintext) [];
  let payload := nonce ++ sealed in
  let data := strconv_Itoa (gcm_algorithm a) +:+ "." +:+
              base64_StdEncoding_EncodeToString payload in
  Ok (T_of_bytes (bytes_of_string data)).

Definition aesGcmKeyImpl_Decrypt {T : DataType} (a : aesGcmKeyImpl)
    (ciphertext : data T) : result (data T) :=
  let dataBytes := toString ciphertext in
  match strings_SplitN dataBytes "." 2 with
  | [part0; part1] =>
      typ ← on_err (fun _ => errors_New "type is not a number") (strconv_Atoi part0);
      if negb (typ =? gcm_algorithm a)
      then Err (errors_New ("invalid algorithm type: " +:+ GetTypeByAlgorithm typ))
      else
        encryptedData ← on_err (Wrapped "ciphertext decodeing base64 error: ")
                          (base64_StdEncoding_DecodeString part1);
        block ← on_err (Wrapped "new aes chipher error: ") (aes_NewCipher (gcm_key a));
        gcm ← on_err (Wrapped "new gcm cipher error: ") (cipher_NewGCM block);
        if Z.of_nat (length encryptedData) <? gcm_NonceSize gcm
        then Err (errors_New "encrypted data too short")
        else
          let nonce := firstn (Z.to_nat (gcm_NonceSize gcm)) encryptedData in
          let encryptedData := skipn (Z.to_nat (gcm_NonceSize gcm)) encryptedData in
          decryptedData ← on_err (Wrapped "gcm open error: ")
                            (gcm_Open gcm nonce encryptedData []);
          Ok (T_of_bytes decryptedData)
  | _ => Err (errors_New "invalid encrypted data")
  end.

(** *** hmac_sha.go *)

Record hmacShaKeyImpl : Type := { hmac_key : list byte; hmac_algorithm : Algorithm }.

Definition hmacShaKeyImpl_AlgorithmType (h : hmacShaKeyImpl) : AlgorithmType :=
  GetTypeByAlgorithm (hmac_algorithm h).

Definition hmacShaKeyImpl_Sign {T : DataType} (h : hmacShaKeyImpl) (msg : data T) : result (data T) :=
  hc ← (if hmac_algorithm h =? HmacSha256 then Ok (hmac_sha256 (hmac_key h))
        else if hmac_algorithm h =? HmacSha512 then Ok (hmac_sha512 (hmac_key h))
        else Err (errors_New ("not support " +:+ GetTypeByAlgorithm (hmac_algorithm h)
                              +:+ " algorithm")));
  let sum := hc (toBytes msg) in
  let data := strconv_Itoa (hmac_algorithm h) +:+ "." +:+
              base64_StdEncoding_EncodeToString sum in
  Ok (T_of_bytes (bytes_of_string data)).

(** [Verify], with the number of byte pairs its comparison examined. *)
Definition hmacShaKeyImpl_Verify_run {T : DataType} (h : hmacShaKeyImpl)
    (msg digest : data T) : bool * nat :=
  match hmacShaKeyImpl_Sign h msg with
  | Ok newDigest => bytes_Equal_run (toBytes newDigest) (toBytes digest)
  | _ => (false, 0%nat)
  end.

Definition hmacShaKeyImpl_Verify {T : DataType} (h : hmacShaKeyImpl)
    (msg digest : data T) : bool :=
  fst (hmacShaKeyImpl_Verify_run h msg digest).

Definition hmacShaKeyImpl_Encrypt {T : DataType} (h : hmacShaKeyImpl) (_ : data T) : result (data T) :=
  Err ErrUnsupportedMethod.

Definition hmacShaKeyImpl_Decrypt {T : DataType} (h : hmacShaKeyImpl) (_ : data T) : result (data T) :=
  Err ErrUnsupportedMethod.

(** *** ecdsa.go *)

Record ecdsaPrivateKey : Type :=
  { priv_privateKey : ecdsa_PrivateKey; priv_algorithm : Algorithm }.

Record ecdsaPublicKey : Type :=
  { pub_publicKey : ecdsa_PublicKey; pub_algorithm : Algorithm }.

Definition ecdsaPrivateKey_AlgorithmType (e : ecdsaPrivateKey) : AlgorithmType :=
  GetTypeByAlgorithm (priv_algorithm e).

(** The composite literal names [publicKey] only: [algorithm] keeps the zero
    value of its type. *)
Definition ecdsaPrivateKey_PublicKey (e : ecdsaPrivateKey) : result ecdsaPublicKey :=
  Ok {| pub_publicKey := ecdsa_public (priv_privateKey e); pub_algorithm := 0 |}.

(** [privateKey.Sign(rand.Reader, toBytes(msg), crypto.SHA256)] signs its
    second argument as the digest. *)
Definition ecdsaPrivateKey_Sign {T : DataType} (e : ecdsaPrivateKey)
    (msg : data T) (rnd : RandReader) : result (data T) :=
  payload ← on_err (Wrapped "sign error: ")
              (ecdsa_Sign (priv_privateKey e) rnd (toBytes msg));
  let data := strconv_Itoa (priv_algorithm e) +:+ "." +:+
              base64_StdEncoding_EncodeToString payload in
  Ok (T_of_bytes (bytes_of_string data)).

Definition ecdsaPrivateKey_Verify {T : DataType} (e : ecdsaPrivateKey) (_ _ : data T) : bool :=
  false.

Definition ecdsaPrivateKey_Encrypt {T : DataType} (e : ecdsaPrivateKey) (_ : data T) : result (data T) :=
  Err ErrUnsupportedMethod.

Definition ecdsaPrivateKey_Decrypt {T : DataType} (e : ecdsaPrivateKey) (_ : data T) : result (data T) :=
  Err ErrUnsupportedMethod.

Definition ecdsaPublicKey_AlgorithmType (e : ecdsaPublicKey) : AlgorithmType :=
  GetTypeByAlgorithm (pub_algorithm e).

Definition ecdsaPublicKey_PublicKey (e : ecdsaPublicKey) : result ecdsaPublicKey :=
  Ok e.

Definition ecdsaPublicKey_Sign {T : DataType} (e : ecdsaPublicKey) (_ : data T) : result (data T) :=
  Err ErrUnsupportedMethod.

(** The envelope is split out of [msg]; [digest] goes to [VerifyASN1] whole. *)
Definition ecdsaPublicKey_Verify {T : DataType} (e : ecdsaPublicKey) (msg digest : data T) : bool :=
  let dataBytes := toString msg in
  match strings_SplitN dataBytes "." 2 with
  | [part0; part1] =>
      match strconv_Atoi part0 with
      | Ok typ =>
          if negb (typ =? pub_algorithm e) then false
          else ecdsa_VerifyASN1 (pub_publicKey e) (toBytes msg) (toBytes digest)
      | _ => false
      end
  | _ => false
  end.

Definition ecdsaPublicKey_Encrypt {T : DataType} (e : ecdsaPublicKey) (_ : data T) : result (data T) :=
  Err ErrUnsupportedMethod.

Definition ecdsaPublicKey_Decrypt {T : DataType} (e : ecdsaPublicKey) (_ : data T) : result (data T) :=
  Err ErrUnsupportedMethod.

(** *** crypto.go: the [Key] interface and its five implementations *)

Inductive Key : Type :=
| Key_aesCbc (a : aesCbcKeyImpl)
| Key_aesGcm (a : aesGcmKeyImpl)
| Key_hmacSha (h : hmacShaKeyImpl)
| Key_ecdsaPrivate (e : ecdsaPrivateKey)
| Key_ecdsaPublic (e : ecdsaPublicKey).

Definition Key_AlgorithmType (k : Key) : AlgorithmType :=
  match k with
  | Key_aesCbc a => aesCbcKeyImpl_AlgorithmType a
  | Key_aesGcm a => aesGcmKeyImpl_AlgorithmType a
  | Key_hmacSha h => hmacShaKeyImpl_AlgorithmType h
  | Key_ecdsaPrivate e => ecdsaPrivateKey_AlgorithmType e
  | Key_ecdsaPublic e => ecdsaPublicKey_AlgorithmType e
  end.

Definition Key_PublicKey (k : Key) : result Key :=
  match k with
  | Key_aesCbc _ | Key_aesGcm _ | Key_hmacSha _ => Err ErrUnsupportedMethod
  | Key_ecdsaPrivate e => pub ← ecdsaPrivateKey_PublicKey e; Ok (Key_ecdsaPublic pub)
  | Key_ecdsaPublic e => pub ← ecdsaPublicKey_PublicKey e; Ok (Key_ecdsaPublic pub)
  end.

Definition Key_Sign {T : DataType} (k : Key) (msg : data T) (rnd : RandReader) : result (data T) :=
  match k with
  | Key_aesCbc a => aesCbcKeyImpl_Sign a msg
  | Key_aesGcm a => aesGcmKeyImpl_Sign a msg
  | Key_hmacSha h => hmacShaKeyImpl_Sign h msg
  | Key_ecdsaPrivate e => ecdsaPrivateKey_Sign e msg rnd
  | Key_ecdsaPublic e => ecdsaPublicKey_Sign e msg
  end.

Definition Key_Verify {T : DataType} (k : Key) (msg digest : data T) : bool :=
  match k with
  | Key_aesCbc a => aesCbcKeyImpl_Verify a msg digest
  | Key_aesGcm a => aesGcmKeyImpl_Verify a msg digest
  | Key_hmacSha h => hmacShaKeyImpl_Verify h msg digest
  | Key_ecdsaPrivate e => ecdsaPrivateKey_Verify e msg digest
  | Key_ecdsaPublic e => ecdsaPublicKey_Verify e msg digest
  end.

Definition Key_Encrypt {T : DataType} (k : Key) (plaintext : data T) (rnd : RandReader) : result (data T) :=
  match k with
  | Key_aesCbc a => aesCbcKeyImpl_Encrypt a plaintext rnd
  | Key_aesGcm a => aesGcmKeyImpl_Encrypt a plaintext rnd
  | Key_hmacSha h => hmacShaKeyImpl_Encrypt h plaintext
  | Key_ecdsaPrivate e => ecdsaPrivateKey_Encrypt e plaintext
  | Key_ecdsaPublic e => ecdsaPublicKey_Encrypt e plaintext
  end.

Definition Key_Decrypt {T : DataType} (k : Key) (ciphertext : data T) : result (data T) :=
  match k with
  | Key_aesCbc a => aesCbcKeyImpl_Decrypt a ciphertext
  | Key_aesGcm a => aesGcmKeyImpl_Decrypt a ciphertext
  | Key_hmacSha h => hmacShaKeyImpl_Decrypt h ciphertext
  | Key_ecdsaPrivate e => ecdsaPrivateKey_Decrypt e ciphertext
  | Key_ecdsaPublic e => ecdsaPublicKey_Decrypt e ciphertext
  end.

(** [aesKeyImportImpl.KeyImport] *)
Definition aesKeyImportImpl_KeyImport (raw : any) (alg : Algorithm) : result Key :=
  key ← checkAndConvertKey raw;
  keyLen ←
    (if (alg =? AesCbc128) || (alg =? AesGcm128) then Ok (128 / 8)
     else if (alg =? AesCbc192) || (alg =? AesGcm192) then Ok (192 / 8)
     else if (alg =? AesCbc256) || (alg =? AesGcm256) then Ok (256 / 8)
     else Panic "unhandled default case");
  let key :=
    if negb (Z.of_nat (length key) =? keyLen)
    then pbkdf2_Key key key 1000 keyLen
    else key in
  if (alg =? AesCbc128) || (alg =? AesCbc192) || (alg =? AesCbc256)
  then Ok (Key_aesCbc {| cbc_algorithm := alg; cbc_key := key |})
  else if (alg =? AesGcm128) || (alg =? AesGcm192) || (alg =? AesGcm256)
  then Ok (Key_aesGcm {| gcm_algorithm := alg; gcm_key := key |})
  else Err (errors_New ("unsupported aes algorithm: " +:+ GetTypeByAlgorithm alg)).

(** [hmacShaKeyImportImpl.KeyImport] *)
Definition hmacShaKeyImportImpl_KeyImport (raw : any) (alg : Algorithm) : result Key :=
  key ← checkAndConvertKey raw;
  if (alg =? HmacSha256) || (alg =? HmacSha512)
  then Ok (Key_hmacSha {| hmac_key := key; hmac_algorithm := alg |})
  else Err (errors_New ("unsupported aes algorithm: " +:+ GetTypeByAlgorithm alg)).

(** [KeyImport]: the importer is chosen by the algorithm before the material
    is looked at; [%v] prints an [Algorithm] as its decimal number. *)
Definition KeyImport (raw : any) (alg : Algorithm) : result Key :=
  if (alg =? HmacSha256) || (alg =? HmacSha512)
  then hmacShaKeyImportImpl_KeyImport raw alg
  else if (alg =? AesCbc128) || (alg =? AesCbc192) || (alg =? AesCbc256)
          || (alg =? AesGcm128) || (alg =? AesGcm192) || (alg =? AesGcm256)
  then aesKeyImportImpl_KeyImport raw alg
  else Err (errors_New ("not found key importer: " +:+ strconv_Itoa alg)).

End Package.

(** ** Package [argon2] *)

(** [golang.org/x/crypto/argon2]: the two derivations, from password, salt,
    time, memory, threads and key length. *)
Class Argon2 : Type := {
  argon2i_derive : list byte -> list byte -> Z -> Z -> Z -> Z -> list byte;
  argon2id_derive : list byte -> list byte -> Z -> Z -> Z -> Z -> list byte
}.

Module argon2.

(** Modelled from the spec: the package [types] is not among the sources; its
    [Algorithm] is written to the envelope with [WriteString] and compared
    with the text before the first ["."], so it is a string. *)
Definition types_Algorithm : Type := string.

(** Modelled from the spec: the package [utils] is not among the sources
    either.  Its [RandomSize], [ToBytes] and [ToString] are taken to be the
    helpers of the same names of the package [crypto]: fresh bytes of the
    secure random source, and, for a [[]byte] or a [string], the exact
    conversions between the two representations. *)
Definition utils_RandomSize (r : RandReader) (len : Z) : result (list byte) :=
  randomSize r len.
Definition utils_ToBytes {T : DataType} (s : data T) : list byte := toBytes s.
Definition utils_ToString {T : DataType} (b : data T) : string := toString b.

Definition MethodArgon2i : string := "argon2i".
Definition MethodArgon2id : string := "argon2id".

Definition ErrUnsupportedMethod : error := errors_New "argon2: unsupported method".

(** [argon2.Version] is [0x13]. *)
Definition argon2_Version : Z := 19.

Record KeyImpl : Type := {
  k_algorithm : types_Algorithm;
  k_method : string;
  k_saltSize : Z;     (* int *)
  k_time : Z;         (* uint32 *)
  k_memory : Z;       (* uint32 *)
  k_threads : Z;      (* uint8 *)
  k_length : Z        (* uint32 *)
}.

(** [key.Option]: an option is applied to the [*KeyImpl] under construction
    (the type assertion of the source cannot fail there) and updates it in
    place. *)
Definition Option : Type := KeyImpl -> result KeyImpl.

Definition WithMethod (method : string) : Option := fun k =>
  if negb (String.eqb method MethodArgon2i) && negb (String.eqb method MethodArgon2id)
  then Err (errors_New ("argon2: invalid method: " +:+ method))
  else Ok {| k_algorithm := k_algorithm k; k_method := method;
             k_saltSize := k_saltSize k; k_time := k_time k;
             k_memory := k_memory k; k_threads := k_threads k;
             k_length := k_length k |}.

Definition WithSaltSize (size : Z) : Option := fun k =>
  if size <=? 0 then Ok k
  else Ok {| k_algorithm := k_algorithm k; k_method := k_method k;
             k_saltSize := size; k_time := k_time k;
             k_memory := k_memory k; k_threads := k_threads k;
             k_length := k_length k |}.

Definition WithTime (time : Z) : Option := fun k =>
  if time =? 0 then Ok k
  else Ok {| k_algorithm := k_algorithm k; k_method := k_method k;
             k_saltSize := k_saltSize k; k_time := time;
             k_memory := k_memory k; k_threads := k_threads k;
             k_length := k_length k |}.

Definition WithMemory (memory : Z) : Option := fun k =>
  if memory =? 0 then Ok k
  else Ok {| k_algorithm := k_algorithm k; k_method := k_method k;
             k_saltSize := k_saltSize k; k_time := k_time k;
             k_memory := memory; k_threads := k_threads k;
             k_length := k_length k |}.

Definition WithThreads (threads : Z) : Option := fun k =>
  if threads =? 0 then Ok k
  else Ok {| k_algorithm := k_algorithm k; k_method := k_method k;
             k_saltSize := k_saltSize k; k_time := k_time k;
             k_memory := k_memory k; k_threads := threads;
             k_length := k_length k |}.

Definition WithLength (length : Z) : Option := fun k =>
  if length <=? 0 then Ok k
  else Ok {| k_algorithm := k_algorithm k; k_method := k_method k;
             k_saltSize := k_saltSize k; k_time := k_time k;
             k_memory := k_memory k; k_threads := k_threads k;
             k_length := length |}.

Fixpoint apply_options (opts : list Option) (ki : KeyImpl) : result KeyImpl :=
  match opts with
  | [] => Ok ki
  | opt :: opts' => ki' ← opt ki; apply_options opts' ki'
  end.

(** [KeyGeneratorImpl.KeyGen] *)
Definition KeyGen (alg : types_Algorithm) (opts : list Option) : result KeyImpl :=
  apply_options opts
    {| k_algorithm := alg; k_method := MethodArgon2id; k_saltSize := 16;
       k_time := 1; k_memory := 64 * 1024; k_threads := 4; k_length := 32 |}.

(** *** fmt.Sscanf for the two formats of [Verify] *)

Fixpoint scan_literal (lit s : string) : result string :=
  match lit with
  | EmptyString => Ok s
  | String c lit' =>
      match s with
      | String c' s' => if Ascii.eqb c c' then scan_literal lit' s' else Err errScan
      | EmptyString => Err errScan
      end
  end.

(** [ss.SkipSpace] of [Sscanf], on ASCII blanks: a line break is an error. *)
Fixpoint scan_SkipSpace (s : string) : result string :=
  match s with
  | String c r =>
      if Ascii.eqb c "010"%char then Err errScan
      else if Ascii.eqb c " "%char || Ascii.eqb c "009"%char || Ascii.eqb c "011"%char
              || Ascii.eqb c "012"%char || Ascii.eqb c "013"%char
      then scan_SkipSpace r
      else Ok s
  | EmptyString => Ok s
  end.

(** [ss.scanNumber]: the longest run of decimal digits and underscores. *)
Fixpoint scan_token (s : string) : string * string :=
  match s with
  | String c r =>
      if (match digit_val c with Some _ => true | None => false end) || Ascii.eqb c "_"%char
      then let '(tok, rest) := scan_token r in (String c tok, rest)
      else (EmptyString, s)
  | EmptyString => (EmptyString, s)
  end.

(** [%d] into an unsigned integer of [bits] bits. *)
Definition scan_uint (bits : Z) (s : string) : result (Z * string) :=
  s ← scan_SkipSpace s;
  match s with
  | EmptyString => Err errScan
  | _ =>
      let '(tok, rest) := scan_token s in
      match tok with
      | EmptyString => Err errScan
      | _ =>
          match parse_digits tok 0 with
          | Some n => if 2 ^ bits <=? n then Err errScan else Ok (n, rest)
          | None => Err errScan
          end
      end
  end.

(** [%d] into an [int]: one optional sign before the digits. *)
Definition scan_int (s : string) : result (Z * string) :=
  s ← scan_SkipSpace s;
  match s with
  | EmptyString => Err errScan
  | _ =>
      let '(sign, body) :=
        match s with
        | String "-" r => ("-", r)
        | String "+" r => ("+", r)
        | _ => (EmptyString, s)
        end in
      let '(tok, rest) := scan_token body in
      match strconv_Atoi (sign +:+ tok) with
      | Ok n => Ok (n, rest)
      | _ => Err errScan
      end
  end.

(** [fmt.Sscanf(version, "v=%d", &v)]; input after the last verb is ignored. *)
Definition Sscanf_version (version : string) : result Z :=
  s ← scan_literal "v=" version;
  '(v, _) ← scan_int s;
  Ok v.

(** [fmt.Sscanf(params, "m=%d,t=%d,p=%d", &memory, &time, &threads)] *)
Definition Sscanf_params (params : string) : result (Z * Z * Z) :=
  s ← scan_literal "m=" params;
  '(memory, s) ← scan_uint 32 s;
  s ← scan_literal ",t=" s;
  '(time, s) ← scan_uint 32 s;
  s ← scan_literal ",p=" s;
  '(threads, _) ← scan_uint 8 s;
  Ok (memory, time, threads).

Section Argon2Key.
Context {Hargon2 : Argon2}.

(** [argon2.Key] and [argon2.IDKey] panic on fewer than one pass or thread. *)
Definition argon2_Key (password salt : list byte) (time memory threads keyLen : Z) : result (list byte) :=
  if time <? 1 then Panic "argon2: number of rounds too small"
  else if threads <? 1 then Panic "argon2: parallelism degree too low"
  else Ok (argon2i_derive password salt time memory threads keyLen).

Definition argon2_IDKey (password salt : list byte) (time memory threads keyLen : Z) : result (list byte) :=
  if time <? 1 then Panic "argon2: number of rounds too small"
  else if threads <? 1 then Panic "argon2: parallelism degree too low"
  else Ok (argon2id_derive password salt time memory threads keyLen).

Definition Sign {T : DataType} (k : KeyImpl) (msg : data T) (rnd : RandReader) : result (data T) :=
  saltBytes ← on_err (Wrapped "pbkdf2: failed to generate random salt: ")
                (utils_RandomSize rnd (k_saltSize k));
  digest ←
    (if String.eqb (k_method k) MethodArgon2i
     then argon2_Key (utils_ToBytes msg) saltBytes (k_time k) (k_memory k) (k_threads k) (k_length k)
     else argon2_IDKey (utils_ToBytes msg) saltBytes (k_time k) (k_memory k) (k_threads k) (k_length k));
  let payload :=
    k_method k +:+ "$v=" +:+ strconv_Itoa argon2_Version +:+
    "$m=" +:+ strconv_Itoa (k_memory k) +:+
    ",t=" +:+ strconv_Itoa (k_time k) +:+
    ",p=" +:+ strconv_Itoa (k_threads k) +:+
    "$" +:+ base64_RawStdEncoding_EncodeToString saltBytes +:+
    "$" +:+ base64_RawStdEncoding_EncodeToString digest in
  let data := k_algorithm k +:+ "." +:+ payload in
  Ok (T_of_bytes (bytes_of_string data)).

(** [Verify] returns [(false, err)] on an error, modelled as [Err err]. *)
Definition Verify {T : DataType} (k : KeyImpl) (msg signature : data T) : result bool :=
  let dataBytes := utils_ToString signature in
  match strings_SplitN dataBytes "." 2 with
  | [algorithm; encodedSignature] =>
      if negb (String.eqb algorithm (k_algorithm k))
      then Err (errors_New ("argon2: invalid algorithm type: " +:+ algorithm))
      else
        match strings_SplitN encodedSignature "$" 5 with
        | [method; version; params; salt; digest] =>
            v ← on_err (Wrapped "argon2: failed to parse version: ") (Sscanf_version version);
            if negb (v =? argon2_Version)
            then Err (errors_New ("argon2: invalid version: " +:+ strconv_Itoa v))
            else
              '(memory, time, threads) ←
                on_err (Wrapped "argon2: failed to parse params: ") (Sscanf_params params);
              saltBytes ← on_err (Wrapped "argon2: failed to decode salt: ")
                            (base64_RawStdEncoding_DecodeString salt);
              providedDigest ← on_err (Wrapped "argon2: failed to decode digest: ")
                                 (base64_RawStdEncoding_DecodeString digest);
              computedDigest ←
                (if String.eqb method MethodArgon2i
                 then argon2_Key (utils_ToBytes msg) saltBytes time memory threads (k_length k)
                 else argon2_IDKey (utils_ToBytes msg) saltBytes time memory threads (k_length k));
              Ok (hmac_Equal providedDigest computedDigest)
        | _ => Err (errors_New "argon2: invalid signature payload data structure")
        end
  | _ => Err (errors_New "argon2: invalid signature data structure")
  end.

Definition Encrypt {T : DataType} (k : KeyImpl) (plaintext : data T) : result (data T) :=
  Err ErrUnsupportedMethod.

Definition Decrypt {T : DataType} (k : KeyImpl) (ciphertext : data T) : result (data T) :=
  Err ErrUnsupportedMethod.

End Argon2Key.
End argon2.

(** ** The hash-based primitives, implemented *)

(** SHA-256 and SHA-512 (FIPS 180-4), HMAC (RFC 2104) and PBKDF2 (RFC 8018)
    as [crypto/sha256], [crypto/sha512], [crypto/hmac] and
    [golang.org/x/crypto/pbkdf2] compute them. *)
Module SHA2.
Local Open Scope N_scope.

(** The first eighty primes: the constants of SHA-2 are the leading bits of
    the fractional parts of their square and cube roots. *)
Definition primes80 : list N :=
  [2; 3; 5; 7; 11; 13; 17; 19; 23; 29; 31; 37; 41; 43; 47; 53; 59; 61; 67; 71;
   73; 79; 83; 89; 97; 101; 103; 107; 109; 113; 127; 131; 137; 139; 149; 151;
   157; 163; 167; 173; 179; 181; 191; 193; 197; 199; 211; 223; 227; 229; 233;
   239; 241; 251; 257; 263; 269; 271; 277; 281; 283; 293; 307; 311; 313; 317;
   331; 337; 347; 349; 353; 359; 367; 373; 379; 383; 389; 397; 401; 409].

(** The integer cube root, bit by bit from the top. *)
Fixpoint icbrt (n : N) (bits : nat) (r : N) : N :=
  match bits with
  | O => r
  | S b =>
      let c := r + 2 ^ N.of_nat b in
      icbrt n b (if c * c * c <=? n then c else r)
  end.

Definition constants (w : N) (rounds : nat) : list N :=
  map (fun p => icbrt (p * 2 ^ (3 * w)) (N.to_nat w + 4) 0 mod 2 ^ w)
    (firstn rounds primes80).

Definition initial (w : N) : list N :=
  map (fun p => N.sqrt (p * 2 ^ (2 * w)) mod 2 ^ w) (firstn 8 primes80).

Definition K256 : list N := Eval vm_compute in constants 32 64.
Definition H256 : list N := Eval vm_compute in initial 32.
Definition K512 : list N := Eval vm_compute in constants 64 80.
Definition H512 : list N := Eval vm_compute in initial 64.

Record params : Type := {
  bits : N;                 (* bits of a word *)
  K : list N;               (* round constants, one per round *)
  H0 : list N;              (* initial hash value *)
  Sigma0 : N * N * N;       (* three rotations *)
  Sigma1 : N * N * N;
  sigma0 : N * N * N;       (* two rotations and a shift *)
  sigma1 : N * N * N
}.

Definition sha256 : params :=
  {| bits := 32; K := K256; H0 := H256;
     Sigma0 := (2, 13, 22); Sigma1 := (6, 11, 25);
     sigma0 := (7, 18, 3); sigma1 := (17, 19, 10) |}.

Definition sha512 : params :=
  {| bits := 64; K := K512; H0 := H512;
     Sigma0 := (28, 34, 39); Sigma1 := (14, 18, 41);
     sigma0 := (1, 8, 7); sigma1 := (19, 61, 6) |}.

(** Big-endian words. *)
Definition word_of_bytes (bs : list byte) : N :=
  fold_left (fun acc b => acc * 256 + byte_val b) bs 0.

Fixpoint bytes_of_word (n : nat) (x : N) : list byte :=
  match n with
  | O => []
  | S n' => byte_of (N.shiftr x (8 * N.of_nat n')) :: bytes_of_word n' x
  end.

Fixpoint chunks {A : Type} (size count : nat) (l : list A) : list (list A) :=
  match count with
  | O => []
  | S c => firstn size l :: chunks size c (skipn size l)
  end.

Definition state : Type := (N * N * N * N * N * N * N * N)%type.

Section Hash.
Variable p : params.

Definition wrap (x : N) : N := x mod 2 ^ bits p.

Definition rotr (x n : N) : N :=
  wrap (N.lor (N.shiftr x n) (N.shiftl x (bits p - n))).

Definition big_sigma (r : N * N * N) (x : N) : N :=
  let '(a, b, c) := r in N.lxor (rotr x a) (N.lxor (rotr x b) (rotr x c)).

Definition small_sigma (r : N * N * N) (x : N) : N :=
  let '(a, b, c) := r in N.lxor (rotr x a) (N.lxor (rotr x b) (N.shiftr x c)).

Definition Ch (x y z : N) : N :=
  N.lxor (N.land x y) (N.land (N.lxor x (N.ones (bits p))) z).

Definition Maj (x y z : N) : N :=
  N.lxor (N.land x y) (N.lxor (N.land x z) (N.land y z)).

Definition word_bytes : nat := N.to_nat (bits p / 8).
Definition block_bytes : nat := (16 * word_bytes)%nat.

(** The message schedule, from a window of the last sixteen words. *)
Fixpoint schedule (n : nat) (window : list N) : list N :=
  match n with
  | O => []
  | S n' =>
      match window with
      | w0 :: rest =>
          let next := wrap (small_sigma (sigma1 p) (nth 14 window 0) + nth 9 window 0
                            + small_sigma (sigma0 p) (nth 1 window 0) + w0) in
          w0 :: schedule n' (rest ++ [next])
      | [] => []
      end
  end.

Definition round (s : state) (kw : N * N) : state :=
  let '(a, b, c, d, e, f, g, h) := s in
  let t1 := h + big_sigma (Sigma1 p) e + Ch e f g + fst kw + snd kw in
  let t2 := big_sigma (Sigma0 p) a + Maj a b c in
  (wrap (t1 + t2), a, b, c, wrap (d + t1), e, f, g).

Definition compress (s : state) (block : list byte) : state :=
  let words := map word_of_bytes (chunks word_bytes 16 block) in
  let w := schedule (length (K p)) words in
  let '(a, b, c, d, e, f, g, h) := s in
  let '(a', b', c', d', e', f', g', h') := fold_left round (combine (K p) w) s in
  (wrap (a + a'), wrap (b + b'), wrap (c + c'), wrap (d + d'),
   wrap (e + e'), wrap (f + f'), wrap (g + g'), wrap (h + h')).

(** Padding: the byte 0x80, zero bytes, and the length in bits on two words. *)
Definition pad (msg : list byte) : list byte :=
  let len := length msg in
  let tail := (1 + 2 * word_bytes)%nat in
  let zeros := ((block_bytes - (len + tail) mod block_bytes) mod block_bytes)%nat in
  msg ++ [byte_of 128] ++ repeat (byte_of 0) zeros
      ++ bytes_of_word (2 * word_bytes) (8 * N.of_nat len).

Definition initial_state : state :=
  let h i := nth i (H0 p) 0 in
  (h 0%nat, h 1%nat, h 2%nat, h 3%nat, h 4%nat, h 5%nat, h 6%nat, h 7%nat).

(** [h.Write(msg); h.Sum(nil)] *)
Definition sum (msg : list byte) : list byte :=
  let padded := pad msg in
  let blocks := chunks block_bytes (length padded / block_bytes) padded in
  let '(a, b, c, d, e, f, g, h) := fold_left compress blocks initial_state in
  flat_map (bytes_of_word word_bytes) [a; b; c; d; e; f; g; h].

(** [hmac.New(h, key)], [Write(msg)], [Sum(nil)] *)
Definition hmac (key msg : list byte) : list byte :=
  let key := if (block_bytes <? length key)%nat then sum key else key in
  let key := key ++ repeat (byte_of 0) (block_bytes - length key) in
  let ipad := map (xor_byte (byte_of 54)) key in
  let opad := map (xor_byte (byte_of 92)) key in
  sum (opad ++ sum (ipad ++ msg)).

End Hash.

(** [pbkdf2.Key] with [sha256.New]: each block is the exclusive or of [iter]
    chained HMAC values, the first over the salt and the block number. *)
Fixpoint pbkdf2_chain (prf : list byte -> list byte) (n : nat) (u t : list byte) : list byte :=
  match n with
  | O => t
  | S n' => let u' := prf u in pbkdf2_chain prf n' u' (xor_bytes t u')
  end.

Definition pbkdf2_block (password salt : list byte) (iter : nat) (block : nat) : list byte :=
  let prf := hmac sha256 password in
  let u1 := prf (salt ++ bytes_of_word 4 (N.of_nat block)) in
  pbkdf2_chain prf (iter - 1) u1 u1.

Definition pbkdf2 (password salt : list byte) (iter keyLen : Z) : list byte :=
  let hashLen := 32%Z in
  let numBlocks := ((keyLen + hashLen - 1) / hashLen)%Z in
  firstn (Z.to_nat keyLen)
    (flat_map (pbkdf2_block password salt (Z.to_nat iter)) (seq 1 (Z.to_nat numBlocks))).

(** [hex.EncodeToString] *)
Definition hex_digit (n : N) : ascii :=
  match String.get (N.to_nat n) "0123456789abcdef" with
  | Some c => c
  | None => "?"%char
  end.

Fixpoint hex (bs : list byte) : string :=
  match bs with
  | [] => EmptyString
  | b :: r =>
      String (hex_digit (byte_val b / 16)) (String (hex_digit (byte_val b mod 16)) (hex r))
  end.

End SHA2.

Definition std_HMAC : HMAC :=
  {| hmac_sha256 := SHA2.hmac SHA2.sha256;
     hmac_sha512 := SHA2.hmac SHA2.sha512 |}.

Definition std_PBKDF2 : PBKDF2 :=
  {| pbkdf2_Key := SHA2.pbkdf2 |}.

(** ** Stand-ins for the other primitives, to run the package *)

(** A block function that is its own inverse, a sealing that appends a tag
    of sixteen zero bytes, signatures that are empty and always accepted,
    and derivations that are runs of zero bytes. *)
Definition stand_in_AES : AES :=
  {| aes_encryptBlock := fun _ b => rev b;
     aes_decryptBlock := fun _ b => rev b |}.

Definition stand_in_GCM : GCM :=
  {| gcm_seal := fun _ _ p _ => p ++ repeat zero 16;
     gcm_open := fun _ _ c _ => Some (firstn (length c - 16) c) |}.

Definition stand_in_ECDSA : ECDSA :=
  {| ecdsa_PrivateKey := unit;
     ecdsa_PublicKey := unit;
     ecdsa_public := fun _ => tt;
     ecdsa_Sign := fun _ _ _ => Ok [];
     ecdsa_VerifyASN1 := fun _ _ _ => true |}.

Definition stand_in_Argon2 : Argon2 :=
  {| argon2i_derive := fun _ _ _ _ _ keyLen => repeat zero (Z.to_nat keyLen);
     argon2id_derive := fun _ _ _ _ _ keyLen => repeat zero (Z.to_nat keyLen) |}.

(** ** Notions used in the statements *)

(** A string of decimal digits only. *)
Fixpoint is_digits (s : string) : bool :=
  match s with
  | EmptyString => true
  | String c r =>
      match digit_val c with
      | Some _ => is_digits r
      | None => false
      end
  end.

(** The key sizes [aes.NewCipher] accepts. *)
Definition aes_key_size (key : list byte) : Prop :=
  length key = 16%nat \/ length key = 24%nat \/ length key = 32%nat.

(** The bytes of a key material given as [[]byte] or as text. *)
Definition raw_bytes (raw : any) : option (list byte) :=
  match raw with
  | AnyBytes b => Some b
  | AnyString s => Some (bytes_of_string s)
  | AnyOther => None
  end.

(** The key length in bytes that the name of an AES algorithm announces. *)
Definition aes_required_length (alg : Algorithm) : option Z :=
  if (alg =? AesCbc128) || (alg =? AesGcm128) then Some 16
  else if (alg =? AesCbc192) || (alg =? AesGcm192) then Some 24
  else if (alg =? AesCbc256) || (alg =? AesGcm256) then Some 32
  else None.

(** The algorithms [KeyImport] has an importer for. *)
Definition has_importer (alg : Algorithm) : bool :=
  (alg =? HmacSha256) || (alg =? HmacSha512) ||
  (alg =? AesCbc128) || (alg =? AesCbc192) || (alg =? AesCbc256) ||
  (alg =? AesGcm128) || (alg =? AesGcm192) || (alg =? AesGcm256).

(** The fields [key] and [algorithm] of a key behind the interface. *)
Definition Key_material `{ECDSA} (k : Key) : list byte :=
  match k with
  | Key_aesCbc a => cbc_key a
  | Key_aesGcm a => gcm_key a
  | Key_hmacSha h => hmac_key h
  | Key_ecdsaPrivate _ | Key_ecdsaPublic _ => []
  end.

Definition Key_algorithm `{ECDSA} (k : Key) : Algorithm :=
  match k with
  | Key_aesCbc a => cbc_algorithm a
  | Key_aesGcm a => gcm_algorithm a
  | Key_hmacSha h => hmac_algorithm h
  | Key_ecdsaPrivate e => priv_algorithm e
  | Key_ecdsaPublic e => pub_algorithm e
  end.

(** The number of leading bytes two slices share. *)
Fixpoint common_prefix (a b : list byte) : nat :=
  match a, b with
  | x :: a', y :: b' => if Ascii.eqb x y then S (common_prefix a' b') else 0%nat
  | _, _ => 0%nat
  end.

(** A text at which the scan of a number stops: the end of the input, or a
    character that is neither a decimal digit nor an underscore. *)
Definition ends_number (r : string) : Prop :=
  match r with
  | EmptyString => True
  | String c _ => digit_val c = None /\ c <> "_"%char
  end.

(** The ranges of the fields of an Argon2 key: those of their Go types
    ([uint32], [uint8], a non-negative [int] for the salt size), the two
    methods, and at least one pass and one thread, as [KeyGen] and its
    options leave them. *)
Definition argon2_key_ok (k : argon2.KeyImpl) : Prop :=
  (argon2.k_method k = argon2.MethodArgon2i \/
   argon2.k_method k = argon2.MethodArgon2id) /\
  0 <= argon2.k_saltSize k /\
  1 <= argon2.k_time k < 2 ^ 32 /\
  0 <= argon2.k_memory k < 2 ^ 32 /\
  1 <= argon2.k_threads k < 2 ^ 8 /\
  0 <= argon2.k_length k < 2 ^ 32.

(** ** Export and identifiers of the keys *)

(** [toHexString]: like [toString] and [toBytes], the switch has cases for
    the exact types only; a [string] is returned as it is. *)
Definition toHexString {T : DataType} : data T -> string :=
  match T with
  | Plain UBytes => fun b => SHA2.hex b
  | Plain UString => fun s => s
  | Named UBytes => fun _ => EmptyString
  | Named UString => fun _ => EmptyString
  end.

(** [sha := sha256.New(); sha.Write(data); sha.Sum(nil)] *)
Definition sha256_Sum (data : list byte) : list byte := SHA2.sum SHA2.sha256 data.

(** [Bytes] and [SKI] of the three kinds of symmetric keys: the key is a
    [[]byte], so [toHexString] is instantiated at that type. *)
Definition aesCbcKeyImpl_Bytes {T : DataType} (a : aesCbcKeyImpl) : result (data T) :=
  Ok (T_of_string (toHexString (T := TBytes) (cbc_key a))).

Definition aesCbcKeyImpl_SKI {T : DataType} (a : aesCbcKeyImpl) : data T :=
  T_of_string (toHexString (T := TBytes) (sha256_Sum (cbc_key a))).

Definition aesGcmKeyImpl_Bytes {T : DataType} (a : aesGcmKeyImpl) : result (data T) :=
  Ok (T_of_string (toHexString (T := TBytes) (gcm_key a))).

Definition aesGcmKeyImpl_SKI {T : DataType} (a : aesGcmKeyImpl) : data T :=
  T_of_string (toHexString (T := TBytes) (sha256_Sum (gcm_key a))).

Definition hmacShaKeyImpl_Bytes {T : DataType} (h : hmacShaKeyImpl) : result (data T) :=
  Ok (T_of_string (toHexString (T := TBytes) (hmac_key h))).

Definition hmacShaKeyImpl_SKI {T : DataType} (h : hmacShaKeyImpl) : data T :=
  T_of_string (toHexString (T := TBytes) (sha256_Sum (hmac_key h))).

(** [elliptic.MarshalCompressed] of the curve and the point of a public key. *)
Class Elliptic `{ECDSA} : Type := {
  elliptic_MarshalCompressed : ecdsa_PublicKey -> list byte
}.

(** [SKI] of the public key returns the digest itself, not its hexadecimal
    text. *)
Definition ecdsaPublicKey_SKI `{Elliptic} {T : DataType} (e : ecdsaPublicKey) : data T :=
  T_of_bytes (sha256_Sum (elliptic_MarshalCompressed (pub_publicKey e))).

(** [pubKey, _ := e.PublicKey(); return pubKey.SKI()]: a nil [pubKey] would
    panic on the call. *)
Definition ecdsaPrivateKey_SKI `{Elliptic} {T : DataType} (e : ecdsaPrivateKey) : result (data T) :=
  match ecdsaPrivateKey_PublicKey e with
  | Ok pubKey => Ok (ecdsaPublicKey_SKI pubKey)
  | _ => Panic "invalid memory address or nil pointer dereference"
  end.

(** [SKI] behind the interface. *)
Definition Key_SKI `{Elliptic} {T : DataType} (k : Key) : result (data T) :=
  match k with
  | Key_aesCbc a => Ok (aesCbcKeyImpl_SKI a)
  | Key_aesGcm a => Ok (aesGcmKeyImpl_SKI a)
  | Key_hmacSha h => Ok (hmacShaKeyImpl_SKI h)
  | Key_ecdsaPrivate e => ecdsaPrivateKey_SKI e
  | Key_ecdsaPublic e => Ok (ecdsaPublicKey_SKI e)
  end.

(** A text of lower-case hexadecimal digits. *)
Definition is_hex_digit (c : ascii) : bool :=
  existsb (Ascii.eqb c) (bytes_of_string "0123456789abcdef").

Fixpoint is_hex (s : string) : bool :=
  match s with
  | EmptyString => true
  | String c r => is_hex_digit c && is_hex r
  end.

(** The options the package [argon2] offers, at arguments within the range
    of their Go types ([int], [uint32], [uint8]). *)
Inductive argon2_offered : argon2.Option -> Prop :=
| offered_WithMethod (method : string) : argon2_offered (argon2.WithMethod method)
| offered_WithSaltSize (size : Z) :
    - 2 ^ 63 <= size < 2 ^ 63 -> argon2_offered (argon2.WithSaltSize size)
| offered_WithTime (time : Z) :
    0 <= time < 2 ^ 32 -> argon2_offered (argon2.WithTime time)
| offered_WithMemory (memory : Z) :
    0 <= memory < 2 ^ 32 -> argon2_offered (argon2.WithMemory memory)
| offered_WithThreads (threads : Z) :
    0 <= threads < 2 ^ 8 -> argon2_offered (argon2.WithThreads threads)
| offered_WithLength (length : Z) :
    0 <= length < 2 ^ 32 -> argon2_offered (argon2.WithLength length).

(** The keys that hold their material as bytes: AES and HMAC keys. *)
Definition Key_is_symmetric `{ECDSA} (k : Key) : bool :=
  match k with
  | Key_aesCbc _ | Key_aesGcm _ | Key_hmacSha _ => true
  | Key_ecdsaPrivate _ | Key_ecdsaPublic _ => false
  end.

(** The fields of an Argon2 key within the range of their Go types and
    positive, with one of the two methods. *)
Definition argon2_key_positive (k : argon2.KeyImpl) : Prop :=
  (argon2.k_method k = argon2.MethodArgon2i \/
   argon2.k_method k = argon2.MethodArgon2id) /\
  1 <= argon2.k_saltSize k < 2 ^ 63 /\
  1 <= argon2.k_time k < 2 ^ 32 /\
  1 <= argon2.k_memory k < 2 ^ 32 /\
  1 <= argon2.k_threads k < 2 ^ 8 /\
  1 <= argon2.k_length k < 2 ^ 32.

(** The text of an Argon2 signature, from its parts. *)
Definition argon2_signature_text (algorithm method version params salt digest : string) : string :=
  algorithm +:+ "." +:+ method +:+ "$" +:+ version +:+ "$" +:+ params +:+ "$" +:+
  salt +:+ "$" +:+ digest.

Definition argon2_params_text (memory time threads : Z) : string :=
  "m=" +:+ strconv_Itoa memory +:+ ",t=" +:+ strconv_Itoa time +:+
  ",p=" +:+ strconv_Itoa threads.

(** A stand-in for the encoding of a public point, to run the package. *)
Definition stand_in_Elliptic : Elliptic (H := stand_in_ECDSA) :=
  {| elliptic_MarshalCompressed := fun _ => [byte_of 2] |}.

(* ===================================================================== *)
(** * Part II: properties                                                 *)
(* ===================================================================== *)

(** ** Bytes and the two representations *)

Lemma byte_val_bound (b : byte) : (byte_val b < 256)%N.
Proof. apply N_ascii_bounded. Qed.

Lemma byte_of_val (b : byte) : byte_of (byte_val b) = b.
Proof.
  unfold byte_of, byte_val.
  rewrite N.mod_small by apply N_ascii_bounded.
  apply ascii_N_embedding.
Qed.

Lemma byte_val_of (n : N) : (n < 256)%N -> byte_val (byte_of n) = n.
Proof.
  intros Hn. unfold byte_of, byte_val.
  rewrite N.mod_small by assumption. now apply N_ascii_embedding.
Qed.

Lemma string_of_bytes_of_string (s : string) : string_of_bytes (bytes_of_string s) = s.
Proof. apply String.string_of_list_ascii_of_string. Qed.

Lemma bytes_of_string_of_bytes (b : list byte) : bytes_of_string (string_of_bytes b) = b.
Proof. apply String.list_ascii_of_string_of_list_ascii. Qed.

(** For [[]byte] and [string] themselves the helpers convert exactly. *)
Lemma toString_T_of_bytes (u : Underlying) (s : string) :
  toString (T := Plain u) (T_of_bytes (bytes_of_string s)) = s.
Proof. destruct u; simpl; apply string_of_bytes_of_string. Qed.

Lemma toBytes_T_of_bytes (u : Underlying) (b : list byte) :
  toBytes (T := Plain u) (T_of_bytes b) = b.
Proof. destruct u; simpl; [reflexivity | apply bytes_of_string_of_bytes]. Qed.

Lemma T_of_bytes_toBytes (u : Underlying) (p : data (Plain u)) :
  T_of_bytes (toBytes p) = p.
Proof. destruct u; simpl; [reflexivity | apply string_of_bytes_of_string]. Qed.

(** For a defined type they answer with the empty text and the nil slice. *)
Lemma toString_Named (u : Underlying) (x : data (Named u)) : toString x = EmptyString.
Proof. destruct u; reflexivity. Qed.

Lemma toBytes_Named (u : Underlying) (x : data (Named u)) : toBytes x = [].
Proof. destruct u; reflexivity. Qed.


(** ** base64: decoding inverts encoding *)

Lemma lor_shiftl_add (a b k : N) :
  (b < 2 ^ k)%N -> N.lor (N.shiftl a k) b = (a * 2 ^ k + b)%N.
Proof.
  intros Hb.
  rewrite <- N.lxor_lor, <- N.add_nocarry_lxor, N.shiftl_mul_pow2; auto.
  all: apply N.bits_inj; intros n; rewrite N.land_spec, N.bits_0;
    destruct (N.lt_ge_cases n k) as [Hn | Hn];
    [ rewrite N.shiftl_spec_low by assumption; reflexivity
    | rewrite <- (N.mod_small b (2 ^ k)) by assumption;
      rewrite N.mod_pow2_bits_high by assumption; apply andb_false_r ].
Qed.

Lemma land_63 (x : N) : N.land x 63 = (x mod 64)%N.
Proof. change 63%N with (N.ones 6). rewrite N.land_ones. reflexivity. Qed.

Lemma sextet_bound (x : N) : (N.land x 63 < 64)%N.
Proof. rewrite land_63. apply N.mod_lt. discriminate. Qed.

Lemma decodeMap_encode_char (v : N) : (v < 64)%N -> decodeMap (encode_char v) = Some v.
Proof.
  intros Hv.
  assert (Hall : forallb (fun n => match decodeMap (encode_char n) with
                                   | Some m => N.eqb m n
                                   | None => false
                                   end) (map N.of_nat (seq 0 64)) = true)
    by (vm_compute; reflexivity).
  rewrite forallb_forall in Hall.
  specialize (Hall v).
  destruct (decodeMap (encode_char v)) as [m|].
  - f_equal. apply N.eqb_eq, Hall. apply in_map_iff. exists (N.to_nat v).
    split; [lia | apply in_seq; lia].
  - exfalso. enough (false = true) by discriminate. apply Hall.
    apply in_map_iff. exists (N.to_nat v). split; [lia | apply in_seq; lia].
Qed.

Lemma base64_decode_value (pad : bool) (v : N) (rest : string) (q : list N) :
  (v < 64)%N ->
  base64_decode pad (String (encode_char v) rest) q =
  if (length q =? 3)%nat
  then tl ← base64_decode pad rest []; Ok (assemble (q ++ [v]) ++ tl)
  else base64_decode pad rest (q ++ [v]).
Proof. intros Hv. simpl. rewrite decodeMap_encode_char by assumption. reflexivity. Qed.

Ltac to_arith :=
  repeat rewrite land_63;
  repeat rewrite N.shiftr_div_pow2;
  repeat rewrite N.shiftl_mul_pow2.

Lemma assemble_4 (x y z : byte) :
  let val := N.lor (N.shiftl (byte_val x) 16) (N.lor (N.shiftl (byte_val y) 8) (byte_val z)) in
  assemble [N.land (N.shiftr val 18) 63; N.land (N.shiftr val 12) 63;
            N.land (N.shiftr val 6) 63; N.land val 63] = [x; y; z].
Proof.
  intros val.
  pose proof (byte_val_bound x) as Hx. pose proof (byte_val_bound y) as Hy.
  pose proof (byte_val_bound z) as Hz.
  assert (Hval : val = (byte_val x * 65536 + byte_val y * 256 + byte_val z)%N).
  { subst val. rewrite (lor_shiftl_add (byte_val y) (byte_val z) 8) by exact Hz.
    rewrite lor_shiftl_add by (change (2 ^ 8)%N with 256%N; change (2 ^ 16)%N with 65536%N; lia).
    change (2 ^ 8)%N with 256%N; change (2 ^ 16)%N with 65536%N. lia. }
  unfold assemble. cbn [nth length Nat.sub firstn].
  set (s0 := N.land (N.shiftr val 18) 63). set (s1 := N.land (N.shiftr val 12) 63).
  set (s2 := N.land (N.shiftr val 6) 63). set (s3 := N.land val 63).
  assert (H0 : (s0 < 64)%N) by apply sextet_bound.
  assert (H1 : (s1 < 64)%N) by apply sextet_bound.
  assert (H2 : (s2 < 64)%N) by apply sextet_bound.
  assert (H3 : (s3 < 64)%N) by apply sextet_bound.
  rewrite (lor_shiftl_add s2 s3 6) by exact H3.
  rewrite (lor_shiftl_add s1 _ 12) by (change (2 ^ 6)%N with 64%N; change (2 ^ 12)%N with 4096%N; lia).
  rewrite (lor_shiftl_add s0 _ 18)
    by (change (2 ^ 6)%N with 64%N; change (2 ^ 12)%N with 4096%N;
        change (2 ^ 18)%N with 262144%N; lia).
  assert (Hre : (s0 * 2 ^ 18 + (s1 * 2 ^ 12 + (s2 * 2 ^ 6 + s3)) = val)%N).
  { subst s0 s1 s2 s3. to_arith. rewrite Hval.
    change (2 ^ 6)%N with 64%N; change (2 ^ 12)%N with 4096%N;
      change (2 ^ 18)%N with 262144%N.
    zify. Z.to_euclidean_division_equations. lia. }
  rewrite Hre. unfold byte_of. to_arith. rewrite Hval.
  change (2 ^ 8)%N with 256%N; change (2 ^ 16)%N with 65536%N.
  replace (((byte_val x * 65536 + byte_val y * 256 + byte_val z) / 65536) mod 256)%N
    with (byte_val x) by (zify; Z.to_euclidean_division_equations; lia).
  replace (((byte_val x * 65536 + byte_val y * 256 + byte_val z) / 256) mod 256)%N
    with (byte_val y) by (zify; Z.to_euclidean_division_equations; lia).
  replace ((byte_val x * 65536 + byte_val y * 256 + byte_val z) mod 256)%N
    with (byte_val z) by (zify; Z.to_euclidean_division_equations; lia).
  unfold byte_val. rewrite !ascii_N_embedding. reflexivity.
Qed.

Ltac pow2_consts :=
  change (2 ^ 6)%N with 64%N in *; change (2 ^ 8)%N with 256%N in *;
  change (2 ^ 12)%N with 4096%N in *; change (2 ^ 16)%N with 65536%N in *;
  change (2 ^ 18)%N with 262144%N in *.

Ltac euclid := zify; Z.to_euclidean_division_equations; lia.

Lemma assemble_3 (x y : byte) :
  let val := N.lor (N.shiftl (byte_val x) 16) (N.shiftl (byte_val y) 8) in
  assemble [N.land (N.shiftr val 18) 63; N.land (N.shiftr val 12) 63;
            N.land (N.shiftr val 6) 63] = [x; y].
Proof.
  intros val.
  pose proof (byte_val_bound x) as Hx. pose proof (byte_val_bound y) as Hy.
  assert (Hval : val = (byte_val x * 65536 + byte_val y * 256)%N).
  { subst val. rewrite (N.shiftl_mul_pow2 (byte_val y)).
    rewrite lor_shiftl_add by (pow2_consts; lia). pow2_consts. lia. }
  unfold assemble. cbn [nth length Nat.sub firstn].
  set (s0 := N.land (N.shiftr val 18) 63). set (s1 := N.land (N.shiftr val 12) 63).
  set (s2 := N.land (N.shiftr val 6) 63).
  assert (H0 : (s0 < 64)%N) by apply sextet_bound.
  assert (H1 : (s1 < 64)%N) by apply sextet_bound.
  assert (H2 : (s2 < 64)%N) by apply sextet_bound.
  rewrite (lor_shiftl_add s2 0 6) by (pow2_consts; lia).
  rewrite (lor_shiftl_add s1 _ 12) by (pow2_consts; lia).
  rewrite (lor_shiftl_add s0 _ 18) by (pow2_consts; lia).
  assert (Hre : (s0 * 2 ^ 18 + (s1 * 2 ^ 12 + (s2 * 2 ^ 6 + 0)) = val)%N).
  { subst s0 s1 s2. to_arith. rewrite Hval. pow2_consts. euclid. }
  rewrite Hre. unfold byte_of. to_arith. rewrite Hval. pow2_consts.
  replace (((byte_val x * 65536 + byte_val y * 256) / 65536) mod 256)%N
    with (byte_val x) by euclid.
  replace (((byte_val x * 65536 + byte_val y * 256) / 256) mod 256)%N
    with (byte_val y) by euclid.
  unfold byte_val. rewrite !ascii_N_embedding. reflexivity.
Qed.

Lemma assemble_2 (x : byte) :
  let val := N.shiftl (byte_val x) 16 in
  assemble [N.land (N.shiftr val 18) 63; N.land (N.shiftr val 12) 63] = [x].
Proof.
  intros val.
  pose proof (byte_val_bound x) as Hx.
  assert (Hval : val = (byte_val x * 65536)%N).
  { subst val. rewrite N.shiftl_mul_pow2. reflexivity. }
  unfold assemble. cbn [nth length Nat.sub firstn].
  set (s0 := N.land (N.shiftr val 18) 63). set (s1 := N.land (N.shiftr val 12) 63).
  assert (H0 : (s0 < 64)%N) by apply sextet_bound.
  assert (H1 : (s1 < 64)%N) by apply sextet_bound.
  rewrite (N.shiftl_0_l 6). rewrite N.lor_0_l.
  rewrite (lor_shiftl_add s1 0 12) by (pow2_consts; lia).
  rewrite (lor_shiftl_add s0 _ 18) by (pow2_consts; lia).
  unfold byte_of. subst s0 s1. to_arith. rewrite Hval. pow2_consts.
  replace (_ mod 256)%N with (byte_val x) by euclid.
  unfold byte_val. rewrite !ascii_N_embedding. reflexivity.
Qed.

Lemma list_ind3 {A : Type} (P : list A -> Prop) :
  P [] -> (forall a, P [a]) -> (forall a b, P [a; b]) ->
  (forall a b c l, P l -> P (a :: b :: c :: l)) ->
  forall l, P l.
Proof.
  intros H0 H1 H2 H3 l.
  enough (Hall : P l /\ (forall a, P (a :: l)) /\ (forall a b, P (a :: b :: l))) by apply Hall.
  induction l as [|x l IH].
  - auto.
  - destruct IH as (IH0 & IH1 & IH2). repeat split; auto.
Qed.

Lemma base64_decode_encode (pad : bool) (src : list byte) :
  base64_decode pad (base64_encode pad src) [] = Ok src.
Proof.
  induction src as [| x | x y | x y z rest IH] using list_ind3.
  - reflexivity.
  - cbn [base64_encode].
    rewrite !base64_decode_value by apply sextet_bound. cbn [length Nat.eqb app].
    destruct pad.
    + cbn -[assemble N.land N.shiftr N.shiftl N.lor byte_val]. rewrite assemble_2. reflexivity.
    + cbn -[assemble N.land N.shiftr N.shiftl N.lor byte_val]. rewrite assemble_2. reflexivity.
  - cbn [base64_encode].
    rewrite !base64_decode_value by apply sextet_bound. cbn [length Nat.eqb app].
    destruct pad.
    + cbn -[assemble N.land N.shiftr N.shiftl N.lor byte_val]. rewrite assemble_3. reflexivity.
    + cbn -[assemble N.land N.shiftr N.shiftl N.lor byte_val]. rewrite assemble_3. reflexivity.
  - cbn [base64_encode].
    rewrite !base64_decode_value by apply sextet_bound. cbn [length Nat.eqb app].
    rewrite IH. cbn [mbind result_bind]. rewrite assemble_4. reflexivity.
Qed.

(** ** strconv: parsing inverts printing *)

Lemma digit_val_char (d : Z) : 0 <= d < 10 -> digit_val (digit_char d) = Some d.
Proof.
  intros Hd. unfold digit_val, digit_char.
  rewrite N_ascii_embedding by lia.
  replace (Z.of_N (48 + Z.to_N d)) with (48 + d) by lia.
  destruct (48 <=? 48 + d) eqn:E1; [| lia].
  destruct (48 + d <=? 57) eqn:E2; [| lia].
  simpl. f_equal. lia.
Qed.

Lemma format_digits_S (f : nat) (n : Z) (acc : string) :
  format_digits (S f) n acc =
  if n <? 10 then String (digit_char (n mod 10)) acc
  else format_digits f (n / 10) (String (digit_char (n mod 10)) acc).
Proof. reflexivity. Qed.

Lemma parse_digits_format (f : nat) : forall (n : Z) (acc : string) (a : Z),
  0 <= n < 2 ^ Z.of_nat (S f) ->
  exists k : Z, 0 <= k /\
    parse_digits (format_digits (S f) n acc) a = parse_digits acc (a * 10 ^ k + n).
Proof.
  induction f as [|f IH]; intros n acc a Hn.
  - exists 1. split; [lia |].
    change (2 ^ Z.of_nat 1) with 2 in Hn.
    rewrite format_digits_S. destruct (n <? 10) eqn:E; [| lia].
    cbn [parse_digits]. rewrite digit_val_char by (apply Z.mod_pos_bound; lia).
    f_equal. rewrite Z.mod_small by lia. lia.
  - rewrite format_digits_S.
    destruct (n <? 10) eqn:E.
    + exists 1. split; [lia |].
      cbn [parse_digits]. rewrite digit_val_char by (apply Z.mod_pos_bound; lia).
      f_equal. rewrite Z.mod_small by lia. lia.
    + assert (Hq : 0 <= n / 10 < 2 ^ Z.of_nat (S f)).
      { rewrite Nat2Z.inj_succ, Z.pow_succ_r in Hn by lia.
        split; [apply Z.div_pos; lia |].
        apply Z.div_lt_upper_bound; lia. }
      destruct (IH (n / 10) (String (digit_char (n mod 10)) acc) a Hq) as (k & Hk & Heq).
      exists (k + 1). split; [lia |].
      rewrite Heq. cbn [parse_digits].
      rewrite digit_val_char by (apply Z.mod_pos_bound; lia).
      f_equal. rewrite Z.pow_add_r by lia.
      pose proof (Z.div_mod n 10 ltac:(lia)). lia.
Qed.

Lemma string_app_cons (x : ascii) (a b : string) :
  String x a +:+ b = String x (a +:+ b).
Proof. reflexivity. Qed.

Lemma string_app_nil_l (a : string) : EmptyString +:+ a = a.
Proof. reflexivity. Qed.

Lemma string_app_assoc (a b c : string) : (a +:+ b) +:+ c = a +:+ (b +:+ c).
Proof.
  induction a as [|x a IH]; [reflexivity |].
  rewrite !string_app_cons. f_equal. exact IH.
Qed.

Lemma string_app_nil_r (a : string) : a +:+ EmptyString = a.
Proof.
  induction a as [|x a IH]; [reflexivity |].
  rewrite string_app_cons. f_equal. exact IH.
Qed.

Lemma format_digits_acc (f : nat) : forall (n : Z) (acc : string),
  format_digits f n acc = format_digits f n EmptyString +:+ acc.
Proof.
  induction f as [|f IH]; intros n acc; [reflexivity |].
  rewrite !format_digits_S. destruct (n <? 10); [reflexivity |].
  rewrite (IH _ (String _ acc)), (IH _ (String _ EmptyString)).
  rewrite string_app_assoc. reflexivity.
Qed.

Lemma is_digits_format (f : nat) : forall (n : Z) (acc : string),
  0 <= n -> is_digits acc = true -> is_digits (format_digits f n acc) = true.
Proof.
  induction f as [|f IH]; intros n acc Hn Hacc; [exact Hacc |].
  rewrite format_digits_S.
  assert (Hd : is_digits (String (digit_char (n mod 10)) acc) = true).
  { cbn [is_digits]. rewrite digit_val_char by (apply Z.mod_pos_bound; lia). exact Hacc. }
  destruct (n <? 10); [exact Hd |].
  apply IH; [apply Z.div_pos; lia | exact Hd].
Qed.

Lemma format_digits_length (f : nat) : forall (n : Z) (acc : string),
  (String.length acc <= String.length (format_digits f n acc))%nat.
Proof.
  induction f as [|f IH]; intros n acc; [reflexivity |].
  rewrite format_digits_S. destruct (n <? 10); [simpl; lia |].
  etransitivity; [| apply IH]. simpl. lia.
Qed.

Lemma log2_fuel (n : Z) : 0 <= n -> 0 <= n < 2 ^ Z.of_nat (S (Z.to_nat (Z.log2 n))).
Proof.
  intros Hn. split; [exact Hn |].
  rewrite Nat2Z.inj_succ, Z2Nat.id by apply Z.log2_nonneg.
  destruct (Z.eq_dec n 0) as [-> | Hne]; [reflexivity |].
  apply Z.log2_spec. lia.
Qed.

(** The decimal text of a non-negative number: digits only, at least one,
    and read back as the number. *)
Lemma strconv_Itoa_nonneg (n : Z) :
  0 <= n ->
  is_digits (strconv_Itoa n) = true /\
  strconv_Itoa n <> EmptyString /\
  parse_digits (strconv_Itoa n) 0 = Some n.
Proof.
  intros Hn. unfold strconv_Itoa. destruct (n <? 0) eqn:E; [lia |].
  repeat split.
  - apply is_digits_format; [exact Hn | reflexivity].
  - intros Hempty.
    pose proof (format_digits_length (Z.to_nat (Z.log2 n)) (n / 10)
                  (String (digit_char (n mod 10)) EmptyString)) as Hlen.
    rewrite format_digits_S in Hempty.
    destruct (n <? 10); [discriminate |].
    rewrite Hempty in Hlen. simpl in Hlen. lia.
  - destruct (parse_digits_format (Z.to_nat (Z.log2 n)) n EmptyString 0 (log2_fuel n Hn))
      as (k & Hk & Heq).
    rewrite Heq. reflexivity.
Qed.

Lemma strconv_Atoi_digits (s : string) (n : Z) :
  is_digits s = true -> s <> EmptyString -> parse_digits s 0 = Some n ->
  n <= 2 ^ 63 - 1 ->
  0 <= n ->
  strconv_Atoi s = Ok n.
Proof.
  intros Hd Hne Hp Hmax Hmin.
  destruct s as [|c r]; [congruence |].
  unfold strconv_Atoi.
  assert (Hc : c <> "-"%char /\ c <> "+"%char).
  { cbn [is_digits] in Hd. split; intros ->; discriminate. }
  destruct Hc as [Hm Hp'].
  assert (Hsel : match String c r with
                 | String "-" r0 => (true, r0)
                 | String "+" r0 => (false, r0)
                 | _ => (false, String c r)
                 end = (false, String c r)).
  { destruct c as [[] [] [] [] [] [] [] []]; try reflexivity; congruence. }
  rewrite Hsel. rewrite Hp.
  destruct ((n <? - 2 ^ 63) || (2 ^ 63 - 1 <? n)) eqn:E; [| reflexivity].
  apply orb_true_iff in E. lia.
Qed.

Lemma strconv_Atoi_Itoa (n : Z) :
  - 2 ^ 63 <= n <= 2 ^ 63 - 1 -> strconv_Atoi (strconv_Itoa n) = Ok n.
Proof.
  intros Hr. destruct (Z_lt_le_dec n 0) as [Hneg | Hpos].
  - assert (Hm : 0 <= - n) by lia.
    destruct (strconv_Itoa_nonneg (- n) Hm) as (Hd & Hne & Hp).
    unfold strconv_Itoa in *. destruct (n <? 0) eqn:E; [| lia].
    destruct (- n <? 0) eqn:E'; [lia |].
    unfold strconv_Atoi.
    destruct (format_digits _ (- n) EmptyString) as [|c r] eqn:Ef; [congruence |].
    rewrite Hp.
    destruct ((- - n <? - 2 ^ 63) || (2 ^ 63 - 1 <? - - n)) eqn:Eb.
    + apply orb_true_iff in Eb. lia.
    + f_equal. lia.
  - destruct (strconv_Itoa_nonneg n Hpos) as (Hd & Hne & Hp).
    apply strconv_Atoi_digits; auto; lia.
Qed.

(** ** strings: cutting an envelope at its first separator *)

Lemma cut_app (sep : ascii) (a b : string) :
  cut sep a = None -> cut sep (a +:+ String sep b) = Some (a, b).
Proof.
  induction a as [|c a IH]; intros Hnone.
  - rewrite string_app_nil_l. cbn [cut]. rewrite Ascii.eqb_refl. reflexivity.
  - rewrite string_app_cons. cbn [cut] in *.
    destruct (Ascii.eqb c sep); [discriminate |].
    destruct (cut sep a) as [[? ?]|] eqn:E; [discriminate |].
    rewrite IH by reflexivity. reflexivity.
Qed.

Lemma cut_none_app (sep : ascii) (a b : string) :
  cut sep a = None -> cut sep b = None -> cut sep (a +:+ b) = None.
Proof.
  induction a as [|c a IH]; intros Ha Hb.
  - exact Hb.
  - rewrite string_app_cons. cbn [cut] in *.
    destruct (Ascii.eqb c sep); [discriminate |].
    destruct (cut sep a) as [[? ?]|] eqn:E; [discriminate |].
    rewrite IH by auto. reflexivity.
Qed.

Lemma cut_digits (sep : ascii) (s : string) :
  digit_val sep = None -> is_digits s = true -> cut sep s = None.
Proof.
  intros Hsep. induction s as [|c s IH]; intros Hd; [reflexivity |].
  cbn [is_digits cut] in *.
  destruct (digit_val c) eqn:Ec; [| discriminate].
  destruct (Ascii.eqb_spec c sep) as [-> | Hne]; [congruence |].
  rewrite IH by assumption. reflexivity.
Qed.

Lemma strings_SplitN_cut (sep : ascii) (a b : string) (n : nat) :
  cut sep a = None ->
  strings_SplitN (a +:+ String sep b) sep (S (S n)) = a :: strings_SplitN b sep (S n).
Proof. intros Ha. cbn [strings_SplitN]. rewrite cut_app by assumption. reflexivity. Qed.

Lemma cut_base64_encode (sep : ascii) (pad : bool) (src : list byte) :
  decodeMap sep = None -> sep <> padChar ->
  cut sep (base64_encode pad src) = None.
Proof.
  intros Hsep Hpad.
  assert (Henc : forall x, Ascii.eqb (encode_char (N.land x 63)) sep = false).
  { intros x. apply Ascii.eqb_neq. intros Heq.
    pose proof (decodeMap_encode_char _ (sextet_bound x)) as Hd.
    rewrite Heq in Hd. congruence. }
  assert (Hp : Ascii.eqb padChar sep = false) by (apply Ascii.eqb_neq; congruence).
  induction src as [| x | x y | x y z rest IH] using list_ind3.
  - reflexivity.
  - cbn [base64_encode cut]. rewrite !Henc.
    destruct pad; cbn [cut]; rewrite ?Hp; reflexivity.
  - cbn [base64_encode cut]. rewrite !Henc.
    destruct pad; cbn [cut]; rewrite ?Hp; reflexivity.
  - cbn [base64_encode cut]. rewrite !Henc, IH. reflexivity.
Qed.

(** ** PKCS#7 padding *)

Lemma last_app_repeat (b : list byte) (c : byte) (k : nat) :
  (0 < k)%nat -> last (b ++ repeat c k) = Some c.
Proof.
  intros Hk. destruct k as [|k]; [lia |].
  replace (repeat c (S k)) with (repeat c k ++ [c]).
  - rewrite app_assoc. apply last_snoc.
  - change [c] with (repeat c 1). rewrite <- repeat_app. f_equal. lia.
Qed.

Lemma byte_val_of_int (k : Z) : 0 <= k < 256 -> Z.of_N (byte_val (byte_of_int k)) = k.
Proof.
  intros Hk. unfold byte_of_int.
  rewrite Z.mod_small by lia. rewrite byte_val_of by lia. lia.
Qed.

(** The padding of [Encrypt]: between 1 and 16 bytes, each holding their
    number, completing the text to whole blocks. *)
Lemma pkcs7Padding_16 (T : DataType) (src : data T) :
  exists k : nat,
    (1 <= k <= 16)%nat /\
    pkcs7Padding src 16 = Ok (toBytes src ++ repeat (byte_of_int (Z.of_nat k)) k) /\
    (length (toBytes src) + k = 16 * S (length (toBytes src) / 16))%nat.
Proof.
  set (len := length (toBytes src)).
  exists (16 - len mod 16)%nat.
  pose proof (Nat.mod_upper_bound len 16 ltac:(lia)) as Hm.
  pose proof (Nat.div_mod_eq len 16) as Hdm.
  repeat split; try lia.
  unfold pkcs7Padding. fold len. cbn [Z.eqb].
  rewrite Z.rem_mod_nonneg by lia.
  replace (16 - Z.of_nat len mod 16) with (Z.of_nat (16 - len mod 16))
    by (rewrite Nat2Z.inj_sub, Nat2Z.inj_mod by lia; reflexivity).
  generalize dependent (len mod 16)%nat. intros m Hm Hdm.
  destruct (Z.eqb_spec (Z.of_nat (16 - m)) 0) as [E|E]; [lia |].
  unfold bytes_Repeat_int, bytes_Repeat.
  destruct (Z.ltb_spec (Z.of_nat (16 - m)) 0) as [E'|E']; [lia |].
  cbn [mbind result_bind]. rewrite Nat2Z.id. reflexivity.
Qed.

(** Stripping removes a well-formed padding. *)
Lemma pkcs7UnPadding_padded (b : list byte) (k : nat) :
  (1 <= k <= 255)%nat ->
  pkcs7UnPadding (T := TBytes) (b ++ repeat (byte_of_int (Z.of_nat k)) k) = Ok b.
Proof.
  intros Hk. unfold pkcs7UnPadding. cbn [toBytes].
  rewrite last_app_repeat by lia.
  rewrite byte_val_of_int by lia.
  rewrite length_app, repeat_length.
  destruct (Z.ltb_spec (Z.of_nat (length b + k) - Z.of_nat k) 0) as [E|E]; [lia |].
  replace (Z.to_nat (Z.of_nat (length b + k) - Z.of_nat k)) with (length b) by lia.
  rewrite firstn_app, Nat.sub_diag, firstn_all. cbn [firstn]. rewrite app_nil_r.
  reflexivity.
Qed.

(** ** Exclusive or of blocks *)

Lemma lxor_byte_bound (a b : N) : (a < 256)%N -> (b < 256)%N -> (N.lxor a b < 256)%N.
Proof.
  intros Ha Hb.
  enough (H : (N.lxor a b mod 2 ^ 8 = N.lxor a b)%N).
  { rewrite <- H. apply N.mod_lt. discriminate. }
  apply N.bits_inj. intros n.
  destruct (N.lt_ge_cases n 8) as [Hn | Hn].
  - apply N.mod_pow2_bits_low. exact Hn.
  - rewrite N.mod_pow2_bits_high by exact Hn.
    rewrite N.lxor_spec.
    rewrite <- (N.mod_small a (2 ^ 8)), <- (N.mod_small b (2 ^ 8)) by assumption.
    rewrite !N.mod_pow2_bits_high by exact Hn. reflexivity.
Qed.

Lemma xor_byte_cancel (a b : byte) : xor_byte (xor_byte a b) b = a.
Proof.
  unfold xor_byte.
  rewrite byte_val_of by (apply lxor_byte_bound; apply byte_val_bound).
  rewrite N.lxor_assoc, N.lxor_nilpotent, N.lxor_0_r.
  apply byte_of_val.
Qed.

Lemma xor_bytes_cancel (p iv : list byte) :
  (length p <= length iv)%nat -> xor_bytes (xor_bytes p iv) iv = p.
Proof.
  revert iv. induction p as [|x p IH]; intros [|y iv] Hlen; simpl in *; try lia.
  - reflexivity.
  - reflexivity.
  - unfold xor_bytes in *. cbn [zip_with]. rewrite xor_byte_cancel, IH by lia.
    reflexivity.
Qed.

Lemma xor_bytes_length (p iv : list byte) :
  length (xor_bytes p iv) = Nat.min (length p) (length iv).
Proof. unfold xor_bytes. apply length_zip_with. Qed.

(** ** Reading back what the random source drew *)

Lemma randomSize_draws (draw : nat -> byte) (n : nat) :
  randomSize (ReaderDraws draw) (Z.of_nat n) = Ok (map draw (seq 0 n)).
Proof.
  unfold randomSize. destruct (Z.ltb_spec (Z.of_nat n) 0) as [E|E]; [lia |].
  cbn [rand_Read]. rewrite Nat2Z.id. reflexivity.
Qed.

Lemma draws_length (draw : nat -> byte) (n : nat) : length (map draw (seq 0 n)) = n.
Proof. rewrite length_map, length_seq. reflexivity. Qed.

Section Properties.
Context {Haes : AES} {Hgcm : GCM} {Hhmac : HMAC} {Hkdf : PBKDF2} {Hecdsa : ECDSA}
        {Hargon2 : Argon2}.

(** What the package relies on from its collaborators. *)

(** The block function maps blocks to blocks, and under a key of a valid size
    decryption inverts encryption. *)
Hypothesis aes_encryptBlock_length : forall key blk,
  length blk = 16%nat -> length (aes_encryptBlock key blk) = 16%nat.
Hypothesis aes_decrypt_encrypt : forall key blk,
  aes_key_size key -> length blk = 16%nat ->
  aes_decryptBlock key (aes_encryptBlock key blk) = blk.

(** Sealing appends a tag of 16 bytes; opening under the same key, nonce and
    additional data returns the plaintext. *)
Hypothesis gcm_seal_length : forall key nonce plaintext additional,
  length (gcm_seal key nonce plaintext additional) = (length plaintext + 16)%nat.
Hypothesis gcm_open_seal : forall key nonce plaintext additional,
  aes_key_size key -> length nonce = 12%nat ->
  gcm_open key nonce (gcm_seal key nonce plaintext additional) additional = Some plaintext.

(** PBKDF2 returns as many bytes as asked for. *)
Hypothesis pbkdf2_Key_length : forall password salt iter keyLen,
  0 <= keyLen -> length (pbkdf2_Key password salt iter keyLen) = Z.to_nat keyLen.

(** ** CBC chaining *)

Lemma aes_NewCipher_valid (key : list byte) :
  aes_key_size key -> aes_NewCipher key = Ok {| Block_key := key |}.
Proof.
  intros [Hk | [Hk | Hk]]; unfold aes_NewCipher; rewrite Hk; reflexivity.
Qed.

Lemma cbc_encrypt_blocks_length (b : cipher_Block) (n : nat) : forall iv src,
  length iv = 16%nat -> length src = (16 * n)%nat ->
  length (cbc_encrypt_blocks b iv src n) = (16 * n)%nat.
Proof.
  induction n as [|n IH]; intros iv src Hiv Hsrc; [reflexivity |].
  cbn [cbc_encrypt_blocks]. rewrite length_app.
  assert (Hc : length (Block_Encrypt b (xor_bytes (firstn 16 src) iv)) = 16%nat).
  { apply aes_encryptBlock_length.
    rewrite xor_bytes_length, length_take. lia. }
  rewrite Hc, IH; [lia | exact Hc | rewrite length_drop; lia].
Qed.

Lemma cbc_decrypt_encrypt_blocks (b : cipher_Block) (n : nat) : forall iv src,
  aes_key_size (Block_key b) ->
  length iv = 16%nat -> length src = (16 * n)%nat ->
  cbc_decrypt_blocks b iv (cbc_encrypt_blocks b iv src n) n = src.
Proof.
  induction n as [|n IH]; intros iv src Hkey Hiv Hsrc.
  - destruct src; [reflexivity | discriminate].
  - cbn [cbc_encrypt_blocks cbc_decrypt_blocks].
    set (c := Block_Encrypt b (xor_bytes (firstn 16 src) iv)).
    assert (Hx : length (xor_bytes (firstn 16 src) iv) = 16%nat)
      by (rewrite xor_bytes_length, length_take; lia).
    assert (Hc : length c = 16%nat) by (apply aes_encryptBlock_length; exact Hx).
    rewrite take_app_length', drop_app_length' by (symmetry; exact Hc).
    unfold c at 1. unfold Block_Decrypt, Block_Encrypt.
    rewrite aes_decrypt_encrypt by assumption.
    rewrite xor_bytes_cancel by (rewrite length_take; lia).
    rewrite IH; [apply take_drop | exact Hkey | exact Hc | rewrite length_drop; lia].
Qed.

(** ** Envelopes *)

Lemma envelope_split (alg : Z) (payload : string) :
  0 <= alg ->
  strings_SplitN (strconv_Itoa alg +:+ "." +:+ payload) "." 2 =
  [strconv_Itoa alg; payload].
Proof.
  intros Halg.
  destruct (strconv_Itoa_nonneg alg Halg) as (Hd & _ & _).
  change ("." +:+ payload) with (String "."%char payload).
  rewrite strings_SplitN_cut by (apply cut_digits; [reflexivity | exact Hd]).
  reflexivity.
Qed.

Lemma envelope_tag (alg : Z) :
  0 <= alg <= 2 ^ 63 - 1 ->
  on_err (fun _ => errors_New "type is not a number") (strconv_Atoi (strconv_Itoa alg)) = Ok alg.
Proof. intros Halg. rewrite strconv_Atoi_Itoa by lia. reflexivity. Qed.

(** ** Round trip of AES-CBC *)

Lemma aesCbcKeyImpl_roundtrip (u : Underlying) (a : aesCbcKeyImpl)
    (plaintext : data (Plain u)) (draw : nat -> byte) :
  aes_key_size (cbc_key a) ->
  0 <= cbc_algorithm a <= 2 ^ 63 - 1 ->
  exists ciphertext : data (Plain u),
    aesCbcKeyImpl_Encrypt a plaintext (ReaderDraws draw) = Ok ciphertext /\
    aesCbcKeyImpl_Decrypt a ciphertext = Ok plaintext.
Proof.
  intros Hkey Halg.
  destruct (pkcs7Padding_16 (Plain u) plaintext) as (k & Hk & Hpad & Hlen).
  set (padded := toBytes plaintext ++ repeat (byte_of_int (Z.of_nat k)) k) in *.
  set (n := S (length (toBytes plaintext) / 16)) in *.
  assert (Hpl : length padded = (16 * n)%nat)
    by (unfold padded; rewrite length_app, repeat_length; exact Hlen).
  set (iv := map draw (seq 0 16)).
  assert (Hiv : length iv = 16%nat) by apply draws_length.
  set (block := {| Block_key := cbc_key a |}).
  set (dst := cbc_encrypt_blocks block iv padded n).
  assert (Hdst : length dst = (16 * n)%nat)
    by (apply cbc_encrypt_blocks_length; assumption).
  assert (Hdiv : (length padded / 16 = n)%nat)
    by (rewrite Hpl, Nat.mul_comm; apply Nat.div_mul; lia).
  assert (Hmod : Z.of_nat (length padded) mod aes_BlockSize = 0).
  { rewrite Hpl, Nat2Z.inj_mul. unfold aes_BlockSize.
    rewrite Z.mul_comm. apply Z.mod_mul. lia. }
  eexists. split.
  - unfold aesCbcKeyImpl_Encrypt.
    change aes_BlockSize with 16. rewrite Hpad. cbn [mbind result_bind].
    rewrite (randomSize_draws draw 16 : randomSize _ 16 = _).
    cbn [on_err mbind result_bind].
    rewrite aes_NewCipher_valid by exact Hkey. cbn [on_err mbind result_bind].
    unfold cipher_NewCBCEncrypter. fold iv. rewrite Hiv.
    change (negb (Z.of_nat 16 =? aes_BlockSize)) with false. cbn [mbind result_bind].
    unfold cbcEncrypter_CryptBlocks. fold padded. rewrite Hmod. cbn [negb Z.eqb mbind result_bind].
    cbn [cbc_b cbc_iv]. rewrite Hdiv. fold block. fold dst.
    reflexivity.
  - unfold aesCbcKeyImpl_Decrypt.
    rewrite toString_T_of_bytes.
    rewrite envelope_split by lia.
    rewrite envelope_tag by lia. cbn [mbind result_bind].
    rewrite Z.eqb_refl. cbn [negb].
    unfold base64_StdEncoding_DecodeString, base64_StdEncoding_EncodeToString.
    rewrite base64_decode_encode. cbn [on_err mbind result_bind].
    unfold split_iv. rewrite length_app, Hiv.
    destruct (Z.ltb_spec (Z.of_nat (16 + length dst)) aes_BlockSize) as [E|E];
      [unfold aes_BlockSize in E; lia |].
    cbn [mbind result_bind].
    rewrite take_app_length', drop_app_length' by (symmetry; exact Hiv).
    rewrite aes_NewCipher_valid by exact Hkey. cbn [on_err mbind result_bind].
    unfold cipher_NewCBCDecrypter. rewrite Hiv.
    change (negb (Z.of_nat 16 =? aes_BlockSize)) with false. cbn [mbind result_bind].
    unfold cbcDecrypter_CryptBlocks.
    assert (Hmod' : Z.of_nat (length dst) mod aes_BlockSize = 0).
    { rewrite Hdst, Nat2Z.inj_mul. unfold aes_BlockSize.
      rewrite Z.mul_comm. apply Z.mod_mul. lia. }
    rewrite Hmod'. cbn [negb Z.eqb mbind result_bind cbc_b cbc_iv].
    replace (length dst / 16)%nat with n
      by (rewrite Hdst, Nat.mul_comm; symmetry; apply Nat.div_mul; lia).
    fold block. unfold dst.
    rewrite cbc_decrypt_encrypt_blocks by assumption.
    unfold padded. rewrite pkcs7UnPadding_padded by lia.
    cbn [mbind result_bind]. rewrite T_of_bytes_toBytes. reflexivity.
Qed.

(** ** Round trip of AES-GCM *)

Lemma aesGcmKeyImpl_roundtrip (u : Underlying) (a : aesGcmKeyImpl)
    (plaintext : data (Plain u)) (draw : nat -> byte) :
  aes_key_size (gcm_key a) ->
  0 <= gcm_algorithm a <= 2 ^ 63 - 1 ->
  exists ciphertext : data (Plain u),
    aesGcmKeyImpl_Encrypt a plaintext (ReaderDraws draw) = Ok ciphertext /\
    aesGcmKeyImpl_Decrypt a ciphertext = Ok plaintext.
Proof.
  intros Hkey Halg.
  set (nonce := map draw (seq 0 12)).
  assert (Hn : length nonce = 12%nat) by apply draws_length.
  set (sealed := gcm_seal (gcm_key a) nonce (toBytes plaintext) []).
  assert (Hs : length sealed = (length (toBytes plaintext) + 16)%nat)
    by apply gcm_seal_length.
  eexists. split.
  - unfold aesGcmKeyImpl_Encrypt.
    rewrite aes_NewCipher_valid by exact Hkey.
    cbn [on_err mbind result_bind cipher_NewGCM]. unfold gcm_NonceSize.
    rewrite (randomSize_draws draw 12 : randomSize _ 12 = _).
    cbn [on_err mbind result_bind]. fold nonce.
    unfold gcm_Seal, gcm_NonceSize. rewrite Hn.
    change (negb (Z.of_nat 12 =? 12)) with false.
    cbn [mbind result_bind gcm_cipher Block_key]. fold sealed.
    reflexivity.
  - unfold aesGcmKeyImpl_Decrypt.
    rewrite toString_T_of_bytes.
    rewrite envelope_split by lia.
    rewrite envelope_tag by lia. cbn [mbind result_bind].
    rewrite Z.eqb_refl. cbn [negb].
    unfold base64_StdEncoding_DecodeString, base64_StdEncoding_EncodeToString.
    rewrite base64_decode_encode. cbn [on_err mbind result_bind].
    rewrite aes_NewCipher_valid by exact Hkey.
    cbn [on_err mbind result_bind cipher_NewGCM]. unfold gcm_NonceSize.
    rewrite length_app, Hn.
    destruct (Z.ltb_spec (Z.of_nat (12 + length sealed)) 12) as [E|E]; [lia |].
    change (Z.to_nat 12) with 12%nat.
    rewrite take_app_length', drop_app_length' by (symmetry; exact Hn).
    unfold gcm_Open, gcm_NonceSize. cbn [gcm_cipher Block_key]. rewrite Hn.
    change (negb (Z.of_nat 12 =? 12)) with false. cbn iota.
    destruct (Z.ltb_spec (Z.of_nat (length sealed)) gcm_tagSize) as [E'|E'];
      [unfold gcm_tagSize in E'; lia |].
    unfold sealed. rewrite gcm_open_seal by assumption.
    cbn [on_err mbind result_bind]. rewrite T_of_bytes_toBytes. reflexivity.
Qed.

(** ** Key import *)

Lemma checkAndConvertKey_length (raw : any) (key : list byte) :
  checkAndConvertKey raw = Ok key -> (0 < length key)%nat.
Proof.
  destruct raw as [b | s |]; cbn [checkAndConvertKey]; intros Hc.
  - destruct (Nat.eqb_spec (length b) 0); [discriminate |].
    injection Hc as <-. lia.
  - destruct s as [|c s]; [discriminate |]. cbn in Hc. injection Hc as <-.
    cbn. lia.
  - discriminate.
Qed.

Lemma checkAndConvertKey_raw_bytes (raw : any) (key : list byte) :
  raw_bytes raw = Some key -> key <> [] -> checkAndConvertKey raw = Ok key.
Proof.
  destruct raw as [b | s |]; cbn [raw_bytes checkAndConvertKey]; intros Hr Hne;
    [| | discriminate]; injection Hr as <-.
  - destruct b; [congruence | reflexivity].
  - destruct s; [exfalso; apply Hne; reflexivity | reflexivity].
Qed.

Lemma aes_required_length_cases (alg : Algorithm) (L : Z) :
  aes_required_length alg = Some L ->
  (alg = AesCbc128 /\ L = 16) \/ (alg = AesCbc192 /\ L = 24) \/
  (alg = AesCbc256 /\ L = 32) \/ (alg = AesGcm128 /\ L = 16) \/
  (alg = AesGcm192 /\ L = 24) \/ (alg = AesGcm256 /\ L = 32).
Proof.
  unfold aes_required_length.
  destruct (Z.eqb_spec alg AesCbc128); [intros [= <-]; tauto |].
  destruct (Z.eqb_spec alg AesGcm128); [intros [= <-]; tauto |].
  destruct (Z.eqb_spec alg AesCbc192); [intros [= <-]; tauto |].
  destruct (Z.eqb_spec alg AesGcm192); [intros [= <-]; tauto |].
  destruct (Z.eqb_spec alg AesCbc256); [intros [= <-]; tauto |].
  destruct (Z.eqb_spec alg AesGcm256); [intros [= <-]; tauto |].
  discriminate.
Qed.

(** What the AES importer builds from non-empty material. *)
Lemma aesKeyImportImpl_KeyImport_material (raw : any) (key : list byte) (alg : Algorithm) (L : Z) :
  raw_bytes raw = Some key -> key <> [] ->
  aes_required_length alg = Some L ->
  exists k : Key,
    KeyImport raw alg = Ok k /\
    aesKeyImportImpl_KeyImport raw alg = Ok k /\
    Key_algorithm k = alg /\
    Key_material k =
      (if Z.of_nat (length key) =? L then key else pbkdf2_Key key key 1000 L) /\
    Z.of_nat (length (Key_material k)) = L.
Proof.
  intros Hraw Hne HL.
  pose proof (checkAndConvertKey_raw_bytes raw key Hraw Hne) as Hc.
  assert (Hlen : Z.of_nat (length (if Z.of_nat (length key) =? L then key
                                   else pbkdf2_Key key key 1000 L)) = L).
  { destruct (Z.eqb_spec (Z.of_nat (length key)) L) as [E|E]; [exact E |].
    rewrite pbkdf2_Key_length; apply aes_required_length_cases in HL; lia. }
  assert (Hk : exists k, aesKeyImportImpl_KeyImport raw alg = Ok k /\
            Key_algorithm k = alg /\
            Key_material k = (if Z.of_nat (length key) =? L then key
                              else pbkdf2_Key key key 1000 L)).
  { apply aes_required_length_cases in HL.
    unfold aesKeyImportImpl_KeyImport. rewrite Hc. cbn [mbind result_bind].
    destruct HL as [[-> ->] | [[-> ->] | [[-> ->] | [[-> ->] | [[-> ->] | [-> ->]]]]]];
      cbn [Z.eqb orb AesCbc128 AesCbc192 AesCbc256 AesGcm128 AesGcm192 AesGcm256
           SymmetricType Z.add Pos.add Pos.succ Pos.eqb mbind result_bind];
      eexists; (split; [reflexivity |]); (split; [reflexivity |]);
      cbn [Key_material cbc_key gcm_key];
      first [ change (128 / 8) with 16 | change (192 / 8) with 24 | change (256 / 8) with 32 ];
      destruct (Z.of_nat (length key) =? _); reflexivity. }
  destruct Hk as (k & Hk & Ha & Hm).
  exists k. repeat split; try assumption.
  - rewrite <- Hk. apply aes_required_length_cases in HL.
    destruct HL as [[-> _] | [[-> _] | [[-> _] | [[-> _] | [[-> _] | [-> _]]]]]];
      reflexivity.
  - rewrite Hm. exact Hlen.
Qed.

(** C7.  Importing non-empty material for an AES algorithm that announces a
    key of [L] bytes builds a key for that algorithm whose material is the
    raw material itself when it has [L] bytes, and otherwise
    [pbkdf2.Key(raw, raw, 1000, L, sha256.New)]: the iteration count is the
    constant 1000, the salt is the material, and the result has exactly [L]
    bytes.  The import draws no randomness: it is a function of the material
    and the algorithm. *)
Theorem aes_KeyImport_stretches (raw : any) (key : list byte) (alg : Algorithm) (L : Z) :
  raw_bytes raw = Some key -> key <> [] ->
  aes_required_length alg = Some L ->
  exists k : Key,
    KeyImport raw alg = Ok k /\
    aesKeyImportImpl_KeyImport raw alg = Ok k /\
    Key_algorithm k = alg /\
    Key_material k =
      (if Z.of_nat (length key) =? L then key else pbkdf2_Key key key 1000 L) /\
    Z.of_nat (length (Key_material k)) = L.
Proof. exact (aesKeyImportImpl_KeyImport_material raw key alg L). Qed.

(** A key imported for an AES algorithm is an AES-CBC or an AES-GCM key with
    material of a size the cipher accepts. *)
Lemma aes_KeyImport_key (raw : any) (alg : Algorithm) (L : Z) (k : Key) :
  aes_required_length alg = Some L ->
  KeyImport raw alg = Ok k ->
  aes_key_size (Key_material k) /\
  0 <= Key_algorithm k <= 2 ^ 63 - 1 /\
  ((exists a, k = Key_aesCbc a) \/ (exists a, k = Key_aesGcm a)).
Proof.
  intros HL Hk.
  assert (Hraw : exists key, raw_bytes raw = Some key /\ key <> []).
  { apply aes_required_length_cases in HL.
    assert (Hi : KeyImport raw alg = aesKeyImportImpl_KeyImport raw alg)
      by (destruct HL as [[-> _] | [[-> _] | [[-> _] | [[-> _] | [[-> _] | [-> _]]]]]];
          reflexivity).
    rewrite Hi in Hk. unfold aesKeyImportImpl_KeyImport in Hk.
    destruct raw as [b | s |]; cbn [checkAndConvertKey] in Hk.
    - destruct b; [discriminate |]. eexists; split; [reflexivity | discriminate].
    - destruct s; [discriminate |]. eexists; split; [reflexivity | discriminate].
    - discriminate. }
  destruct Hraw as (key & Hraw & Hne).
  destruct (aesKeyImportImpl_KeyImport_material raw key alg L Hraw Hne HL)
    as (k' & Hk' & _ & Halg & _ & Hlen).
  rewrite Hk in Hk'. injection Hk' as <-.
  split; [| split].
  - unfold aes_key_size. apply aes_required_length_cases in HL. lia.
  - rewrite Halg. apply aes_required_length_cases in HL.
    destruct HL as [[-> _] | [[-> _] | [[-> _] | [[-> _] | [[-> _] | [-> _]]]]]];
      vm_compute; split; discriminate.
  - destruct k as [a | a | h | e | e]; [left; eauto | right; eauto | | |];
      exfalso; apply aes_required_length_cases in HL; unfold KeyImport in Hk;
      destruct HL as [[-> _] | [[-> _] | [[-> _] | [[-> _] | [[-> _] | [-> _]]]]]];
      cbn in Hk; unfold aesKeyImportImpl_KeyImport in Hk;
      destruct (checkAndConvertKey raw); cbn in Hk; discriminate.
Qed.

(** [Encrypt] succeeds in every representation: the plaintext enters through
    [toBytes] only. *)
Lemma aesCbcKeyImpl_Encrypt_succeeds (T : DataType) (a : aesCbcKeyImpl)
    (plaintext : data T) (draw : nat -> byte) :
  aes_key_size (cbc_key a) ->
  exists ciphertext : data T,
    aesCbcKeyImpl_Encrypt a plaintext (ReaderDraws draw) = Ok ciphertext.
Proof.
  intros Hkey.
  destruct (pkcs7Padding_16 T plaintext) as (k & Hk & Hpad & Hlen).
  set (padded := toBytes plaintext ++ repeat (byte_of_int (Z.of_nat k)) k) in *.
  assert (Hpl : length padded = (16 * S (length (toBytes plaintext) / 16))%nat)
    by (unfold padded; rewrite length_app, repeat_length; exact Hlen).
  assert (Hmod : Z.of_nat (length padded) mod aes_BlockSize = 0).
  { rewrite Hpl, Nat2Z.inj_mul. unfold aes_BlockSize.
    rewrite Z.mul_comm. apply Z.mod_mul. lia. }
  eexists. unfold aesCbcKeyImpl_Encrypt.
  change aes_BlockSize with 16. rewrite Hpad. cbn [mbind result_bind].
  rewrite (randomSize_draws draw 16 : randomSize _ 16 = _).
  cbn [on_err mbind result_bind].
  rewrite aes_NewCipher_valid by exact Hkey. cbn [on_err mbind result_bind].
  unfold cipher_NewCBCEncrypter. rewrite draws_length.
  change (negb (Z.of_nat 16 =? aes_BlockSize)) with false. cbn [mbind result_bind].
  unfold cbcEncrypter_CryptBlocks. fold padded. rewrite Hmod.
  cbn [negb Z.eqb mbind result_bind]. reflexivity.
Qed.

Lemma aesGcmKeyImpl_Encrypt_succeeds (T : DataType) (a : aesGcmKeyImpl)
    (plaintext : data T) (draw : nat -> byte) :
  aes_key_size (gcm_key a) ->
  exists ciphertext : data T,
    aesGcmKeyImpl_Encrypt a plaintext (ReaderDraws draw) = Ok ciphertext.
Proof.
  intros Hkey. eexists. unfold aesGcmKeyImpl_Encrypt.
  rewrite aes_NewCipher_valid by exact Hkey.
  cbn [on_err mbind result_bind cipher_NewGCM]. unfold gcm_NonceSize.
  rewrite (randomSize_draws draw 12 : randomSize _ 12 = _).
  cbn [on_err mbind result_bind].
  unfold gcm_Seal, gcm_NonceSize. rewrite draws_length.
  change (negb (Z.of_nat 12 =? 12)) with false.
  cbn [mbind result_bind]. reflexivity.
Qed.

(** [Decrypt] reads its argument through [toString]: of a value of a defined
    type it sees the empty text, which has no ["."]. *)
Lemma aes_Decrypt_Named (u : Underlying) (ciphertext : data (Named u)) :
  (forall a : aesCbcKeyImpl,
      aesCbcKeyImpl_Decrypt a ciphertext = Err (errors_New "invalid encrypted data")) /\
  (forall a : aesGcmKeyImpl,
      aesGcmKeyImpl_Decrypt a ciphertext = Err (errors_New "invalid encrypted data")).
Proof.
  split; intros a; unfold aesCbcKeyImpl_Decrypt, aesGcmKeyImpl_Decrypt;
    rewrite toString_Named; reflexivity.
Qed.

(** C1, at its failing input and around it.  A key imported for one of the
    six AES algorithms decrypts what it encrypted when the plaintext is a
    [[]byte] or a [string]: for every plaintext and every sequence of bytes
    the random source draws for the IV or nonce, [Encrypt] returns an
    envelope and [Decrypt] of that envelope returns the plaintext.  When the
    plaintext is of a defined type over [[]byte] or [string], which the
    constraint [DataType] admits as well, [Encrypt] still returns an
    envelope, and [Decrypt] of that envelope fails: the type switch of
    [toString] has no case for it. *)
Theorem aes_roundtrip_only_for_plain_types (raw : any) (alg : Algorithm)
    (L : Z) (k : Key) (draw : nat -> byte) :
  aes_required_length alg = Some L ->
  KeyImport raw alg = Ok k ->
  (forall (u : Underlying) (plaintext : data (Plain u)),
      exists ciphertext : data (Plain u),
        Key_Encrypt k plaintext (ReaderDraws draw) = Ok ciphertext /\
        Key_Decrypt k ciphertext = Ok plaintext) /\
  (forall (u : Underlying) (plaintext : data (Named u)),
      exists ciphertext : data (Named u),
        Key_Encrypt k plaintext (ReaderDraws draw) = Ok ciphertext /\
        Key_Decrypt k ciphertext = Err (errors_New "invalid encrypted data")).
Proof.
  intros HL Hk.
  destruct (aes_KeyImport_key raw alg L k HL Hk) as (Hsize & Hrange & [[a ->] | [a ->]]);
    cbn [Key_material Key_algorithm] in Hsize, Hrange; split; intros u plaintext;
    cbn [Key_Encrypt Key_Decrypt].
  - apply aesCbcKeyImpl_roundtrip; assumption.
  - destruct (aesCbcKeyImpl_Encrypt_succeeds (Named u) a plaintext draw Hsize) as (c & Hc).
    exists c. split; [exact Hc | apply aes_Decrypt_Named].
  - apply aesGcmKeyImpl_roundtrip; assumption.
  - destruct (aesGcmKeyImpl_Encrypt_succeeds (Named u) a plaintext draw Hsize) as (c & Hc).
    exists c. split; [exact Hc | apply aes_Decrypt_Named].
Qed.

(** ** The public half of an ECDSA key *)

(** C10.  The public key derived from an ECDSA private key has the zero
    algorithm, whatever the algorithm of the private key, and its
    [AlgorithmType()] is the empty string; the registry maps the two ECDSA
    algorithms to non-empty identifiers. *)
Theorem ecdsa_PublicKey_algorithm_is_zero (e : ecdsaPrivateKey) :
  exists pub : ecdsaPublicKey,
    Key_PublicKey (Key_ecdsaPrivate e) = Ok (Key_ecdsaPublic pub) /\
    pub_publicKey pub = ecdsa_public (priv_privateKey e) /\
    pub_algorithm pub = 0 /\
    Key_AlgorithmType (Key_ecdsaPublic pub) = EmptyString /\
    GetTypeByAlgorithm EcdsaP256 = "ECDSA_P256" /\
    GetTypeByAlgorithm EcdsaP384 = "ECDSA_P384".
Proof.
  eexists. repeat split.
Qed.

(** C4, at its failing input.  [Verify] on the public key looks for the
    envelope in its first argument, the message: a message without a ["."]
    is rejected before the signature is looked at, so the signature that
    [Sign] has just produced for it does not verify. *)
Theorem ecdsa_Verify_rejects_signed_message (T : DataType) (e : ecdsaPrivateKey)
    (msg : data T) (rnd : RandReader) (digest : data T) (pub : ecdsaPublicKey) :
  cut "." (toString msg) = None ->
  ecdsaPrivateKey_Sign e msg rnd = Ok digest ->
  ecdsaPrivateKey_PublicKey e = Ok pub ->
  ecdsaPublicKey_Verify pub msg digest = false /\
  Key_Verify (Key_ecdsaPublic pub) msg digest = false.
Proof.
  intros Hcut _ _.
  assert (Hs : strings_SplitN (toString msg) "." 2 = [toString msg])
    by (cbn [strings_SplitN]; rewrite Hcut; reflexivity).
  cbn [Key_Verify]. unfold ecdsaPublicKey_Verify. rewrite Hs. split; reflexivity.
Qed.

(** ** Import of empty material *)

(** C8, as amended.  Empty material, as bytes or as text, is rejected with
    [ErrEmptyKey] for the eight algorithms that have an importer; for every
    other algorithm [KeyImport] fails before looking at the material, with
    the error of the missing importer.  No key is built in either case.  The
    importers of the two families themselves reject empty material with
    [ErrEmptyKey] for every algorithm value. *)
Theorem KeyImport_empty_material (alg : Algorithm) :
  let outcome : result Key :=
    if has_importer alg then Err ErrEmptyKey
    else Err (errors_New ("not found key importer: " +:+ strconv_Itoa alg)) in
  KeyImport (AnyBytes []) alg = outcome /\
  KeyImport (AnyString EmptyString) alg = outcome /\
  aesKeyImportImpl_KeyImport (AnyBytes []) alg = Err ErrEmptyKey /\
  aesKeyImportImpl_KeyImport (AnyString EmptyString) alg = Err ErrEmptyKey /\
  hmacShaKeyImportImpl_KeyImport (AnyBytes []) alg = Err ErrEmptyKey /\
  hmacShaKeyImportImpl_KeyImport (AnyString EmptyString) alg = Err ErrEmptyKey.
Proof.
  cbv zeta. unfold KeyImport, has_importer.
  destruct (alg =? HmacSha256), (alg =? HmacSha512), (alg =? AesCbc128),
    (alg =? AesCbc192), (alg =? AesCbc256), (alg =? AesGcm128),
    (alg =? AesGcm192), (alg =? AesGcm256); repeat split.
Qed.

(** ** A payload shorter than one block *)

(** C9, at its failing input.  The envelope ["201.AAAA"] is well formed and
    carries the tag of the key, and its payload decodes to three bytes:
    [Decrypt] of an AES-CBC key panics on the slice expressions that split
    the IV from the ciphertext, as a [[]byte] and as a [string] and for
    every key material.  The AES-GCM key, on the same payload, returns an error. *)
Theorem aesCbcKeyImpl_Decrypt_short_payload_panics (u : Underlying) (key : list byte) :
  aesCbcKeyImpl_Decrypt (T := Plain u) {| cbc_key := key; cbc_algorithm := AesCbc128 |}
    (T_of_string "201.AAAA") = Panic "slice bounds out of range" /\
  Key_Decrypt (T := Plain u) (Key_aesCbc {| cbc_key := key; cbc_algorithm := AesCbc128 |})
    (T_of_string "201.AAAA") = Panic "slice bounds out of range" /\
  aesGcmKeyImpl_Decrypt (T := Plain u) {| gcm_key := repeat zero 16; gcm_algorithm := AesGcm128 |}
    (T_of_string "204.AAAA") = Err (errors_New "encrypted data too short").
Proof.
  destruct u; repeat split.
Qed.

(** ** The comparison of HMAC [Verify] *)

Lemma memequal_neq (a b : list byte) :
  length a = length b -> a <> b ->
  memequal a b = (false, S (common_prefix a b)).
Proof.
  revert b. induction a as [|x a IH]; intros [|y b] Hlen Hne; try discriminate.
  - congruence.
  - cbn [memequal common_prefix].
    destruct (Ascii.eqb_spec x y) as [-> | Hxy]; [| reflexivity].
    rewrite IH; [reflexivity | simpl in Hlen; lia | congruence].
Qed.

Lemma memequal_refl (a : list byte) : memequal a a = (true, length a).
Proof.
  induction a as [|x a IH]; [reflexivity |].
  cbn [memequal]. rewrite Ascii.eqb_refl, IH. reflexivity.
Qed.

(** [hmac.Equal] examines every byte pair of two slices of one length. *)
Lemma hmac_Equal_run_steps (a b : list byte) :
  length a = length b -> snd (hmac_Equal_run a b) = length a.
Proof.
  intros Hlen. unfold hmac_Equal_run, subtle_ConstantTimeCompare_run.
  rewrite Hlen, Nat.eqb_refl.
  assert (Hf : forall x y v, length x = length y -> snd (ct_fold x y v) = length x).
  { induction x as [|c x IH]; intros [|d y] v Hl; try discriminate; [reflexivity |].
    cbn [ct_fold]. specialize (IH y (N.lor v (N.lxor (byte_val c) (byte_val d)))).
    destruct (ct_fold x y _) as [r n]. cbn [snd] in *.
    rewrite IH by (simpl in Hl; lia). reflexivity. }
  specialize (Hf a b 0%N Hlen). destruct (ct_fold a b 0%N) as [v n].
  cbn [snd] in *. congruence.
Qed.

(** C2, at its failing inputs.  [Verify] of an HMAC key recomputes the
    envelope over the message and compares it with [bytes.Equal]: on a
    digest of the right length that differs from the envelope, the
    comparison stops at the first difference, after as many byte pairs as
    the two share plus one; on the envelope itself it runs to the end.  The
    number of pairs examined depends on the digest. *)
Theorem hmacShaKeyImpl_Verify_stops_at_first_difference (T : DataType)
    (h : hmacShaKeyImpl) (msg signature digest : data T) :
  hmacShaKeyImpl_Sign h msg = Ok signature ->
  length (toBytes digest) = length (toBytes signature) ->
  toBytes digest <> toBytes signature ->
  hmacShaKeyImpl_Verify_run h msg digest =
    (false, S (common_prefix (toBytes signature) (toBytes digest))) /\
  hmacShaKeyImpl_Verify_run h msg signature = (true, length (toBytes signature)) /\
  hmacShaKeyImpl_Verify h msg digest = false /\
  hmacShaKeyImpl_Verify h msg signature = true.
Proof.
  intros Hs Hlen Hne.
  unfold hmacShaKeyImpl_Verify, hmacShaKeyImpl_Verify_run. rewrite Hs.
  unfold bytes_Equal_run. rewrite Hlen, !Nat.eqb_refl.
  rewrite memequal_neq by congruence. rewrite memequal_refl.
  repeat split.
Qed.

(** ** Stripping of the padding *)

Lemma toString_T_of_string (u : Underlying) (s : string) :
  toString (T := Plain u) (T_of_string s) = s.
Proof. destruct u; simpl; [apply string_of_bytes_of_string | reflexivity]. Qed.

(** C3, at its failing inputs.  [Decrypt] of an AES-CBC key reads the last
    byte of the decrypted text as a number and returns the text without that
    many final bytes, with no check of the number against the block size:
    for every text of whole blocks whose last byte is at most its length (0
    and values above 16 included), the envelope that carries its CBC
    encryption, given as a [[]byte] or as a [string], is decrypted without
    error to the text cut by that number, where a padding outside 1..16 is
    to be refused. *)
Theorem aesCbcKeyImpl_Decrypt_strips_unchecked (u : Underlying) (a : aesCbcKeyImpl)
    (iv text : list byte) (blocks : nat) (b : byte) :
  aes_key_size (cbc_key a) ->
  0 <= cbc_algorithm a <= 2 ^ 63 - 1 ->
  length iv = 16%nat ->
  length text = (16 * S blocks)%nat ->
  last text = Some b ->
  (N.to_nat (byte_val b) <= length text)%nat ->
  let block := {| Block_key := cbc_key a |} in
  let payload := iv ++ cbc_encrypt_blocks block iv text (S blocks) in
  let envelope := strconv_Itoa (cbc_algorithm a) +:+ "." +:+
                  base64_StdEncoding_EncodeToString payload in
  aesCbcKeyImpl_Decrypt (T := Plain u) a (T_of_string envelope) =
  Ok (T_of_bytes (firstn (length text - N.to_nat (byte_val b)) text)).
Proof.
  intros Hkey Halg Hiv Htext Hlast Hb block payload envelope.
  set (dst := cbc_encrypt_blocks block iv text (S blocks)) in *.
  assert (Hdst : length dst = (16 * S blocks)%nat)
    by (apply cbc_encrypt_blocks_length; assumption).
  unfold aesCbcKeyImpl_Decrypt, envelope, payload.
  rewrite toString_T_of_string.
  rewrite envelope_split by lia.
  rewrite envelope_tag by lia. cbn [mbind result_bind].
  rewrite Z.eqb_refl. cbn [negb].
  unfold base64_StdEncoding_DecodeString, base64_StdEncoding_EncodeToString.
  rewrite base64_decode_encode. cbn [on_err mbind result_bind].
  unfold split_iv. rewrite length_app, Hiv.
  destruct (Z.ltb_spec (Z.of_nat (16 + length dst)) aes_BlockSize) as [E|E];
    [unfold aes_BlockSize in E; lia |].
  cbn [mbind result_bind].
  rewrite take_app_length', drop_app_length' by (symmetry; exact Hiv).
  rewrite aes_NewCipher_valid by exact Hkey. cbn [on_err mbind result_bind].
  unfold cipher_NewCBCDecrypter. rewrite Hiv.
  change (negb (Z.of_nat 16 =? aes_BlockSize)) with false. cbn [mbind result_bind].
  unfold cbcDecrypter_CryptBlocks.
  assert (Hmod : Z.of_nat (length dst) mod aes_BlockSize = 0).
  { rewrite Hdst, Nat2Z.inj_mul. unfold aes_BlockSize.
    rewrite Z.mul_comm. apply Z.mod_mul. lia. }
  rewrite Hmod. cbn [negb Z.eqb mbind result_bind cbc_b cbc_iv].
  replace (length dst / 16)%nat with (S blocks)
    by (rewrite Hdst, Nat.mul_comm; symmetry; apply Nat.div_mul; lia).
  fold block. unfold dst.
  rewrite cbc_decrypt_encrypt_blocks by assumption.
  unfold pkcs7UnPadding. cbn [toBytes]. rewrite Hlast.
  destruct (Z.ltb_spec (Z.of_nat (length text) - Z.of_N (byte_val b)) 0) as [E'|E'];
    [lia |].
  cbn [mbind result_bind].
  replace (Z.to_nat (Z.of_nat (length text) - Z.of_N (byte_val b)))
    with (length text - N.to_nat (byte_val b))%nat by lia.
  reflexivity.
Qed.

(** ** The algorithm tag of an envelope *)

Lemma memequal_eq (a b : list byte) :
  length a = length b -> fst (memequal a b) = true -> a = b.
Proof.
  revert b. induction a as [|x a IH]; intros [|y b] Hlen Heq; try discriminate.
  - reflexivity.
  - cbn [memequal] in Heq. destruct (Ascii.eqb_spec x y) as [-> | Hxy].
    + f_equal. apply IH; [simpl in Hlen; lia |].
      destruct (memequal a b). exact Heq.
    + discriminate.
Qed.

Lemma bytes_Equal_eq (a b : list byte) : bytes_Equal a b = true -> a = b.
Proof.
  unfold bytes_Equal, bytes_Equal_run.
  destruct (Nat.eqb_spec (length a) (length b)) as [Hlen | Hlen]; [| discriminate].
  apply memequal_eq. exact Hlen.
Qed.

Lemma toString_toBytes (u : Underlying) (x : data (Plain u)) :
  toString x = string_of_bytes (toBytes x).
Proof. destruct u; simpl; [reflexivity | symmetry; apply string_of_bytes_of_string]. Qed.

Lemma hmacShaKeyImpl_Sign_tag (u : Underlying) (h : hmacShaKeyImpl)
    (msg signature : data (Plain u)) :
  hmacShaKeyImpl_Sign h msg = Ok signature ->
  exists payload : string,
    strings_SplitN (toString signature) "." 2 = [strconv_Itoa (hmac_algorithm h); payload] /\
    strconv_Atoi (strconv_Itoa (hmac_algorithm h)) = Ok (hmac_algorithm h).
Proof.
  unfold hmacShaKeyImpl_Sign. intros Hs.
  assert (Halg : hmac_algorithm h = HmacSha256 \/ hmac_algorithm h = HmacSha512).
  { destruct (Z.eqb_spec (hmac_algorithm h) HmacSha256); [tauto |].
    destruct (Z.eqb_spec (hmac_algorithm h) HmacSha512); [tauto |].
    discriminate. }
  assert (Hr : 0 <= hmac_algorithm h <= 2 ^ 63 - 1)
    by (destruct Halg as [-> | ->]; vm_compute; split; discriminate).
  destruct (hmac_algorithm h =? HmacSha256); [| destruct (hmac_algorithm h =? HmacSha512)];
    cbn [mbind result_bind] in Hs; try discriminate;
    injection Hs as <-; eexists; rewrite toString_T_of_bytes;
    (split; [apply envelope_split; lia | apply strconv_Atoi_Itoa; lia]).
Qed.

(** C5, as amended.  An envelope, given as a [[]byte] or as a [string], whose
    text before the first ["."] reads as the number [tag]:
    - [Decrypt] of an AES-CBC or AES-GCM key for another algorithm fails with
      the invalid-algorithm-type error that names [tag], and succeeds only
      on an envelope tagged with the algorithm of the key;
    - [Verify] of an HMAC key, which has no error result, answers [false]
      for a digest tagged otherwise, and [true] only for a digest tagged
      with the algorithm of the key.
    - [Verify] of an Argon2 key fails with its invalid-algorithm-type error
      when the text before the first ["."] is not the algorithm of the key,
      and returns a result only when it is.
    [Decrypt] of an HMAC key fails with [ErrUnsupportedMethod] on every
    input, whatever its tag. *)
Theorem envelope_tag_is_checked :
  (forall (u : Underlying) (c : data (Plain u)) (part0 part1 : string) (tag : Z),
      strings_SplitN (toString c) "." 2 = [part0; part1] ->
      strconv_Atoi part0 = Ok tag ->
      (forall a : aesCbcKeyImpl, tag <> cbc_algorithm a ->
         aesCbcKeyImpl_Decrypt a c =
         Err (errors_New ("invalid algorithm type: " +:+ GetTypeByAlgorithm tag))) /\
      (forall a : aesGcmKeyImpl, tag <> gcm_algorithm a ->
         aesGcmKeyImpl_Decrypt a c =
         Err (errors_New ("invalid algorithm type: " +:+ GetTypeByAlgorithm tag))) /\
      (forall (h : hmacShaKeyImpl) (msg : data (Plain u)), tag <> hmac_algorithm h ->
         hmacShaKeyImpl_Verify h msg c = false)) /\
  (forall (u : Underlying) (c p : data (Plain u)),
      (forall a : aesCbcKeyImpl, aesCbcKeyImpl_Decrypt a c = Ok p ->
         exists part0 part1, strings_SplitN (toString c) "." 2 = [part0; part1] /\
                             strconv_Atoi part0 = Ok (cbc_algorithm a)) /\
      (forall a : aesGcmKeyImpl, aesGcmKeyImpl_Decrypt a c = Ok p ->
         exists part0 part1, strings_SplitN (toString c) "." 2 = [part0; part1] /\
                             strconv_Atoi part0 = Ok (gcm_algorithm a)) /\
      (forall (h : hmacShaKeyImpl) (msg : data (Plain u)), hmacShaKeyImpl_Verify h msg c = true ->
         exists part0 part1, strings_SplitN (toString c) "." 2 = [part0; part1] /\
                             strconv_Atoi part0 = Ok (hmac_algorithm h))) /\
  (forall (T : DataType) (h : hmacShaKeyImpl) (c : data T),
      hmacShaKeyImpl_Decrypt h c = Err ErrUnsupportedMethod) /\
  (forall (u : Underlying) (k : argon2.KeyImpl) (msg signature : data (Plain u))
          (algorithm encodedSignature : string),
      strings_SplitN (toString signature) "." 2 = [algorithm; encodedSignature] ->
      (algorithm <> argon2.k_algorithm k ->
         argon2.Verify k msg signature =
         Err (errors_New ("argon2: invalid algorithm type: " +:+ algorithm))) /\
      (forall ok : bool, argon2.Verify k msg signature = Ok ok ->
         algorithm = argon2.k_algorithm k)).
Proof.
  assert (Hhmac_true : forall (u : Underlying) (c : data (Plain u)) (h : hmacShaKeyImpl)
                              (msg : data (Plain u)),
             hmacShaKeyImpl_Verify h msg c = true ->
             exists part0 part1, strings_SplitN (toString c) "." 2 = [part0; part1] /\
                                 strconv_Atoi part0 = Ok (hmac_algorithm h)).
  { intros u c h msg Hv.
    unfold hmacShaKeyImpl_Verify, hmacShaKeyImpl_Verify_run in Hv.
    destruct (hmacShaKeyImpl_Sign h msg) as [sig | |] eqn:Hs; try discriminate.
    apply bytes_Equal_eq in Hv.
    destruct (hmacShaKeyImpl_Sign_tag u h msg sig Hs) as (payload & Hsplit & Hatoi).
    exists (strconv_Itoa (hmac_algorithm h)), payload. split; [| exact Hatoi].
    rewrite toString_toBytes, <- Hv, <- toString_toBytes. exact Hsplit. }
  split; [| split; [| split]].
  - intros u c part0 part1 tag Hsplit Hatoi. split; [| split].
    + intros a Hne. unfold aesCbcKeyImpl_Decrypt. rewrite Hsplit, Hatoi.
      cbn [on_err mbind result_bind].
      destruct (Z.eqb_spec tag (cbc_algorithm a)); [contradiction | reflexivity].
    + intros a Hne. unfold aesGcmKeyImpl_Decrypt. rewrite Hsplit, Hatoi.
      cbn [on_err mbind result_bind].
      destruct (Z.eqb_spec tag (gcm_algorithm a)); [contradiction | reflexivity].
    + intros h msg Hne.
      destruct (hmacShaKeyImpl_Verify h msg c) eqn:Hv; [| reflexivity].
      destruct (Hhmac_true u c h msg Hv) as (q0 & q1 & Hq & Ha).
      rewrite Hsplit in Hq. injection Hq as <- <-. congruence.
  - intros u c p. split; [| split].
    + intros a Hd. unfold aesCbcKeyImpl_Decrypt in Hd.
      destruct (strings_SplitN (toString c) "." 2) as [|p0 [|p1 [|? ?]]]; try discriminate.
      destruct (strconv_Atoi p0) as [typ | |] eqn:Ha; try discriminate.
      cbn [on_err mbind result_bind] in Hd.
      destruct (Z.eqb_spec typ (cbc_algorithm a)) as [E | E]; [| discriminate].
      subst typ. eauto.
    + intros a Hd. unfold aesGcmKeyImpl_Decrypt in Hd.
      destruct (strings_SplitN (toString c) "." 2) as [|p0 [|p1 [|? ?]]]; try discriminate.
      destruct (strconv_Atoi p0) as [typ | |] eqn:Ha; try discriminate.
      cbn [on_err mbind result_bind] in Hd.
      destruct (Z.eqb_spec typ (gcm_algorithm a)) as [E | E]; [| discriminate].
      subst typ. eauto.
    + intros h msg. apply Hhmac_true.
  - reflexivity.
  - intros u k msg signature algorithm encodedSignature Hsplit. split.
    + intros Hne. unfold argon2.Verify, argon2.utils_ToString. rewrite Hsplit.
      destruct (String.eqb_spec algorithm (argon2.k_algorithm k)); [contradiction | reflexivity].
    + intros ok Hv. unfold argon2.Verify, argon2.utils_ToString in Hv. rewrite Hsplit in Hv.
      destruct (String.eqb_spec algorithm (argon2.k_algorithm k)); [auto | discriminate].
Qed.

(** ** Argon2: scanning what was printed *)

Lemma scan_SkipSpace_digits (d r : string) :
  is_digits d = true -> d <> EmptyString ->
  argon2.scan_SkipSpace (d +:+ r) = Ok (d +:+ r).
Proof.
  intros Hd Hne. destruct d as [|c d]; [congruence |].
  rewrite string_app_cons. cbn [is_digits] in Hd.
  destruct (digit_val c) as [v|] eqn:Ec; [| discriminate].
  unfold digit_val in Ec.
  cbn [argon2.scan_SkipSpace].
  destruct c as [[] [] [] [] [] [] [] []]; try discriminate Ec; reflexivity.
Qed.

Lemma scan_token_digits (d r : string) :
  is_digits d = true -> ends_number r ->
  argon2.scan_token (d +:+ r) = (d, r).
Proof.
  intros Hd Hr. induction d as [|c d IH].
  - rewrite string_app_nil_l. destruct r as [|c r]; [reflexivity |].
    destruct Hr as [Hc Hu]. cbn [argon2.scan_token]. rewrite Hc.
    destruct (Ascii.eqb_spec c "_"%char); [contradiction | reflexivity].
  - rewrite string_app_cons. cbn [is_digits] in Hd. cbn [argon2.scan_token].
    destruct (digit_val c); [| discriminate].
    cbn [orb]. rewrite IH by exact Hd. reflexivity.
Qed.

Lemma scan_uint_Itoa (bits n : Z) (r : string) :
  0 <= n < 2 ^ bits -> ends_number r ->
  argon2.scan_uint bits (strconv_Itoa n +:+ r) = Ok (n, r).
Proof.
  intros Hn Hr.
  destruct (strconv_Itoa_nonneg n ltac:(lia)) as (Hd & Hne & Hp).
  unfold argon2.scan_uint.
  rewrite scan_SkipSpace_digits by assumption. cbn [mbind result_bind].
  rewrite scan_token_digits by assumption.
  destruct (strconv_Itoa n) as [|c d] eqn:E; [congruence |].
  rewrite string_app_cons. rewrite Hp.
  destruct (Z.leb_spec (2 ^ bits) n); [lia | reflexivity].
Qed.

Lemma Sscanf_params_printed (memory time threads : Z) :
  0 <= memory < 2 ^ 32 -> 0 <= time < 2 ^ 32 -> 0 <= threads < 2 ^ 8 ->
  argon2.Sscanf_params
    ("m=" +:+ strconv_Itoa memory +:+ ",t=" +:+ strconv_Itoa time +:+
     ",p=" +:+ strconv_Itoa threads) = Ok (memory, time, threads).
Proof.
  intros Hm Ht Hp. unfold argon2.Sscanf_params.
  change ("m=" +:+ ?x) with (String "m" (String "=" x)).
  cbn [argon2.scan_literal Ascii.eqb Bool.eqb]. cbn [mbind result_bind].
  rewrite scan_uint_Itoa by first [assumption | split; [reflexivity | discriminate]].
  cbn [mbind result_bind].
  change (",t=" +:+ ?x) with (String "," (String "t" (String "=" x))).
  cbn [argon2.scan_literal Ascii.eqb Bool.eqb]. cbn [mbind result_bind].
  rewrite scan_uint_Itoa by first [assumption | split; [reflexivity | discriminate]].
  cbn [mbind result_bind].
  change (",p=" +:+ ?x) with (String "," (String "p" (String "=" x))).
  cbn [argon2.scan_literal Ascii.eqb Bool.eqb]. cbn [mbind result_bind].
  rewrite <- (string_app_nil_r (strconv_Itoa threads)).
  rewrite scan_uint_Itoa by first [assumption | exact I].
  reflexivity.
Qed.

(** ** Argon2: verification after a change of the key's configuration *)

(** The derivations return as many bytes as asked for. *)
Hypothesis argon2_derive_length : forall password salt time memory threads keyLen,
  0 <= keyLen ->
  length (argon2i_derive password salt time memory threads keyLen) = Z.to_nat keyLen /\
  length (argon2id_derive password salt time memory threads keyLen) = Z.to_nat keyLen.

Lemma hmac_Equal_refl (a : list byte) : hmac_Equal a a = true.
Proof.
  unfold hmac_Equal, hmac_Equal_run, subtle_ConstantTimeCompare_run.
  rewrite Nat.eqb_refl.
  assert (Hf : forall x v, fst (ct_fold x x v) = v).
  { induction x as [|c x IH]; intros v; [reflexivity |].
    cbn [ct_fold]. specialize (IH (N.lor v (N.lxor (byte_val c) (byte_val c)))).
    destruct (ct_fold x x _) as [r n]. cbn [fst] in *.
    rewrite IH, N.lxor_nilpotent, N.lor_0_r. reflexivity. }
  specialize (Hf a 0%N). destruct (ct_fold a a 0%N) as [v n].
  cbn [fst] in *. subst v. reflexivity.
Qed.

Lemma hmac_Equal_length (a b : list byte) :
  length a <> length b -> hmac_Equal a b = false.
Proof.
  intros Hne. unfold hmac_Equal, hmac_Equal_run, subtle_ConstantTimeCompare_run.
  destruct (Nat.eqb_spec (length a) (length b)); [contradiction | reflexivity].
Qed.

Lemma strings_SplitN_one (s : string) (sep : ascii) : strings_SplitN s sep 1 = [s].
Proof. reflexivity. Qed.

Lemma argon2_Sign_envelope (T : DataType) (k : argon2.KeyImpl) (msg : data T)
    (draw : nat -> byte) :
  argon2_key_ok k ->
  let salt := map draw (seq 0 (Z.to_nat (argon2.k_saltSize k))) in
  let derive := if String.eqb (argon2.k_method k) argon2.MethodArgon2i
                then argon2i_derive else argon2id_derive in
  let digest := derive (toBytes msg) salt (argon2.k_time k) (argon2.k_memory k)
                  (argon2.k_threads k) (argon2.k_length k) in
  argon2.Sign k msg (ReaderDraws draw) =
  Ok (T_of_bytes (bytes_of_string
        (argon2.k_algorithm k +:+
         String "."
           (argon2.k_method k +:+
            String "$"
              ("v=19" +:+
               String "$"
                 (("m=" +:+ strconv_Itoa (argon2.k_memory k) +:+
                   ",t=" +:+ strconv_Itoa (argon2.k_time k) +:+
                   ",p=" +:+ strconv_Itoa (argon2.k_threads k)) +:+
                  String "$"
                    (base64_RawStdEncoding_EncodeToString salt +:+
                     String "$" (base64_RawStdEncoding_EncodeToString digest)))))))).
Proof.
  intros (Hmethod & Hsalt & Htime & Hmem & Hthr & Hlen) salt derive digest.
  unfold argon2.Sign, argon2.utils_RandomSize, argon2.utils_ToBytes, randomSize.
  destruct (Z.ltb_spec (argon2.k_saltSize k) 0) as [E|E]; [lia |].
  cbn [rand_Read on_err mbind result_bind]. fold salt.
  unfold argon2.argon2_Key, argon2.argon2_IDKey.
  destruct (Z.ltb_spec (argon2.k_time k) 1) as [E1|E1]; [lia |].
  destruct (Z.ltb_spec (argon2.k_threads k) 1) as [E2|E2]; [lia |].
  unfold digest, derive.
  destruct (String.eqb (argon2.k_method k) argon2.MethodArgon2i);
    cbn [mbind result_bind]; do 3 f_equal;
    rewrite !string_app_assoc; reflexivity.
Qed.

(** C6, at its failing input and around it.  A signature made by a key [k]
    is verified by any key [k'] for the same algorithm with the method, the
    memory, the time and the threads that the envelope carries; the output
    length is not in the envelope and is taken from [k']: the verification
    answers [true] exactly when the configured length of [k'] is the one [k]
    signed with.  After a change of the output length every earlier
    signature is rejected. *)
Theorem argon2_Verify_depends_on_configured_length (u : Underlying)
    (k k' : argon2.KeyImpl) (msg signature : data (Plain u)) (draw : nat -> byte) :
  argon2_key_ok k ->
  cut "." (argon2.k_algorithm k) = None ->
  argon2.Sign k msg (ReaderDraws draw) = Ok signature ->
  argon2.k_algorithm k' = argon2.k_algorithm k ->
  0 <= argon2.k_length k' < 2 ^ 32 ->
  argon2.Verify k' msg signature = Ok (argon2.k_length k' =? argon2.k_length k).
Proof.
  intros Hok Hdot Hsign Halg Hlen'.
  rewrite (argon2_Sign_envelope (Plain u) k msg draw Hok) in Hsign.
  injection Hsign as <-.
  destruct Hok as (Hmethod & Hsalt & Htime & Hmem & Hthr & Hlen).
  set (salt := map draw (seq 0 (Z.to_nat (argon2.k_saltSize k)))).
  unfold argon2.Verify, argon2.utils_ToString, argon2.utils_ToBytes.
  rewrite toString_T_of_bytes.
  rewrite strings_SplitN_cut by exact Hdot.
  rewrite strings_SplitN_one. rewrite Halg, String.eqb_refl. cbn [negb].
  assert (Hm : cut "$" (argon2.k_method k) = None)
    by (destruct Hmethod as [-> | ->]; reflexivity).
  rewrite strings_SplitN_cut by exact Hm.
  rewrite strings_SplitN_cut by reflexivity.
  rewrite strings_SplitN_cut.
  2:{ repeat apply cut_none_app; try reflexivity;
      apply cut_digits; try reflexivity; apply strconv_Itoa_nonneg; lia. }
  rewrite strings_SplitN_cut
    by (apply cut_base64_encode; [reflexivity | discriminate]).
  rewrite strings_SplitN_one.
  change (argon2.Sscanf_version "v=19") with (Ok 19 : result Z).
  cbn [on_err mbind result_bind].
  change (negb (19 =? argon2.argon2_Version)) with false. cbn iota.
  rewrite Sscanf_params_printed by lia. cbn [on_err mbind result_bind].
  unfold base64_RawStdEncoding_DecodeString, base64_RawStdEncoding_EncodeToString.
  rewrite !base64_decode_encode. cbn [on_err mbind result_bind].
  unfold argon2.argon2_Key, argon2.argon2_IDKey.
  destruct (Z.ltb_spec (argon2.k_time k) 1) as [E1|E1]; [lia |].
  destruct (Z.ltb_spec (argon2.k_threads k) 1) as [E2|E2]; [lia |].
  destruct (Z.eqb_spec (argon2.k_length k') (argon2.k_length k)) as [Heq | Hne].
  - rewrite Heq.
    destruct (String.eqb (argon2.k_method k) argon2.MethodArgon2i);
      cbn [mbind result_bind]; rewrite hmac_Equal_refl; reflexivity.
  - destruct (String.eqb (argon2.k_method k) argon2.MethodArgon2i);
      cbn [mbind result_bind]; rewrite hmac_Equal_length; try reflexivity;
      match goal with
      | |- length (?f ?p ?s ?t ?m ?th ?l) <> length (?f ?p' ?s ?t ?m ?th ?l') =>
          destruct (argon2_derive_length p s t m th l ltac:(lia)) as [Hi Hid];
          destruct (argon2_derive_length p' s t m th l' ltac:(lia)) as [Hi' Hid'];
          rewrite ?Hi, ?Hi', ?Hid, ?Hid'; lia
      end.
Qed.

End Properties.

(** ** The implemented and the stand-in primitives meet the assumptions *)

Lemma stand_in_AES_length (key blk : list byte) :
  length blk = 16%nat -> length (aes_encryptBlock (AES := stand_in_AES) key blk) = 16%nat.
Proof. intros Hb. cbn. rewrite length_rev. exact Hb. Qed.

Lemma stand_in_AES_inverse (key blk : list byte) :
  aes_key_size key -> length blk = 16%nat ->
  aes_decryptBlock (AES := stand_in_AES) key
    (aes_encryptBlock (AES := stand_in_AES) key blk) = blk.
Proof. intros _ _. cbn. apply rev_involutive. Qed.

Lemma stand_in_GCM_length (key nonce plaintext additional : list byte) :
  length (gcm_seal (GCM := stand_in_GCM) key nonce plaintext additional) =
  (length plaintext + 16)%nat.
Proof.
  change (length (plaintext ++ repeat zero 16) = (length plaintext + 16)%nat).
  rewrite length_app, repeat_length. reflexivity.
Qed.

Lemma stand_in_GCM_open_seal (key nonce plaintext additional : list byte) :
  aes_key_size key -> length nonce = 12%nat ->
  gcm_open (GCM := stand_in_GCM) key nonce
    (gcm_seal (GCM := stand_in_GCM) key nonce plaintext additional) additional =
  Some plaintext.
Proof.
  intros _ _.
  change (Some (firstn (length (plaintext ++ repeat zero 16) - 16)
                  (plaintext ++ repeat zero 16)) = Some plaintext).
  f_equal. rewrite length_app, repeat_length.
  replace (length plaintext + 16 - 16)%nat with (length plaintext) by lia.
  apply take_app_length.
Qed.

Lemma bytes_of_word_length (n : nat) (x : N) : length (SHA2.bytes_of_word n x) = n.
Proof. induction n as [|n IH]; [reflexivity |]. cbn [SHA2.bytes_of_word length]. now rewrite IH. Qed.

Lemma sha256_sum_length (msg : list byte) : length (SHA2.sum SHA2.sha256 msg) = 32%nat.
Proof.
  unfold SHA2.sum.
  destruct (fold_left _ _ _) as [[[[[[[a b] c] d] e] f] g] h].
  cbn [flat_map]. rewrite !length_app, !bytes_of_word_length. reflexivity.
Qed.

Lemma sha256_hmac_length (key msg : list byte) :
  length (SHA2.hmac SHA2.sha256 key msg) = 32%nat.
Proof. unfold SHA2.hmac. apply sha256_sum_length. Qed.

Lemma pbkdf2_chain_length (prf : list byte -> list byte) (n : nat) : forall u t,
  (forall m, length (prf m) = 32%nat) -> length t = 32%nat ->
  length (SHA2.pbkdf2_chain prf n u t) = 32%nat.
Proof.
  induction n as [|n IH]; intros u t Hprf Ht; [exact Ht |].
  cbn [SHA2.pbkdf2_chain]. apply IH; [exact Hprf |].
  rewrite xor_bytes_length, Ht, Hprf. reflexivity.
Qed.

Lemma pbkdf2_block_length (password salt : list byte) (iter block : nat) :
  length (SHA2.pbkdf2_block password salt iter block) = 32%nat.
Proof.
  unfold SHA2.pbkdf2_block. apply pbkdf2_chain_length.
  - intros m. apply sha256_hmac_length.
  - apply sha256_hmac_length.
Qed.

Lemma flat_map_length_32 {A : Type} (f : A -> list byte) (l : list A) :
  (forall a, length (f a) = 32%nat) -> length (flat_map f l) = (32 * length l)%nat.
Proof.
  intros Hf. induction l as [|a l IH]; [reflexivity |].
  cbn [flat_map length]. rewrite length_app, Hf, IH. lia.
Qed.

(** PBKDF2 returns as many bytes as asked for. *)
Lemma std_PBKDF2_length (password salt : list byte) (iter keyLen : Z) :
  0 <= keyLen ->
  length (pbkdf2_Key (PBKDF2 := std_PBKDF2) password salt iter keyLen) = Z.to_nat keyLen.
Proof.
  intros Hk. cbn [pbkdf2_Key std_PBKDF2]. unfold SHA2.pbkdf2.
  rewrite length_take, flat_map_length_32 by (intros a; apply pbkdf2_block_length).
  rewrite length_seq.
  assert (keyLen <= 32 * ((keyLen + 32 - 1) / 32)).
  { pose proof (Z.div_mod (keyLen + 32 - 1) 32 ltac:(lia)).
    pose proof (Z.mod_pos_bound (keyLen + 32 - 1) 32 ltac:(lia)). lia. }
  lia.
Qed.

Lemma stand_in_Argon2_length (password salt : list byte) (time memory threads keyLen : Z) :
  0 <= keyLen ->
  length (argon2i_derive (Argon2 := stand_in_Argon2) password salt time memory threads keyLen)
    = Z.to_nat keyLen /\
  length (argon2id_derive (Argon2 := stand_in_Argon2) password salt time memory threads keyLen)
    = Z.to_nat keyLen.
Proof. intros _. split; apply repeat_length. Qed.

(** ** Instances of the theorems at concrete inputs *)

Section Instances.
#[local] Existing Instance stand_in_AES.
#[local] Existing Instance stand_in_GCM.
#[local] Existing Instance std_HMAC.
#[local] Existing Instance std_PBKDF2.
#[local] Existing Instance stand_in_ECDSA.
#[local] Existing Instance stand_in_Argon2.

(** *** The implemented primitives against published values *)

(** The digest of ["123456"] that the tests of the suite expect as the key
    identifier of that key. *)
Example sha256_of_123456 :
  SHA2.hex (SHA2.sum SHA2.sha256 (bytes_of_string "123456")) =
  "8d969eef6ecad3c29a3a629280e686cf0c3f5d5a86aff3ca12020c923adc6c92".
Proof. vm_compute. reflexivity. Qed.

(** RFC 4231, test case 1, for HMAC-SHA-512. *)
Example hmac_sha512_rfc4231 :
  SHA2.hex (hmac_sha512 (repeat (byte_of 11) 20) (bytes_of_string "Hi There")) =
  "87aa7cdea5ef619d4ff0b4241a1d6cb02379f4e2ce4ec2787ad0b30545e17cdedaa833b7d6b8a702038b274eaea3f4e4be9d914eeb61f1702e696c203a126854".
Proof. vm_compute. reflexivity. Qed.

(** PBKDF2 with HMAC-SHA-256, password ["password"], salt ["salt"], two
    iterations, 32 bytes. *)
Example pbkdf2_sha256_two_iterations :
  SHA2.hex (pbkdf2_Key (bytes_of_string "password") (bytes_of_string "salt") 2 32) =
  "ae4d0c95af6b46d32d0adff928f06dd02a303f8ef3c251dfd6e2d85a95474c43".
Proof. vm_compute. reflexivity. Qed.

(** [ExampleKeyImport] of the package: the text key ["123456"] imported for
    HMAC-SHA-256 signs ["hello world"] to the digest the example prints, and
    verifies it; another message is not verified by that digest. *)
Example ExampleKeyImport :
  let key := Key_hmacSha {| hmac_key := bytes_of_string "123456";
                            hmac_algorithm := HmacSha256 |} in
  KeyImport (AnyString "123456") HmacSha256 = Ok key /\
  Key_Sign (T := TString) key "hello world" ReaderFails =
    Ok ("101.g7PrJ4hFe0ai8XqqBI95WvDZ2ruOWSTdL8DqaC2Sn+U=" : data TString) /\
  Key_Verify (T := TString) key "hello world"
    "101.g7PrJ4hFe0ai8XqqBI95WvDZ2ruOWSTdL8DqaC2Sn+U=" = true /\
  Key_Verify (T := TString) key "goodbye"
    "101.g7PrJ4hFe0ai8XqqBI95WvDZ2ruOWSTdL8DqaC2Sn+U=" = false.
Proof. vm_compute. repeat split. Qed.

(** The text key ["123456"] imported for AES-CBC-128, as in the tests of the
    package: ["hello world"] as a [string] is encrypted and decrypted; as a
    value of a defined type over [string] it is encrypted, and the
    decryption of that envelope fails. *)
Lemma aes_roundtrip_only_for_plain_types_witness :
  let k := Key_aesCbc
             {| cbc_key := pbkdf2_Key (bytes_of_string "123456")
                             (bytes_of_string "123456") 1000 16;
                cbc_algorithm := AesCbc128 |} in
  aes_required_length AesCbc128 = Some 16 /\
  KeyImport (AnyString "123456") AesCbc128 = Ok k /\
  (exists ciphertext : data TString,
     Key_Encrypt k ("hello world" : data TString) (ReaderDraws (fun _ => "A"%char))
       = Ok ciphertext /\
     Key_Decrypt k ciphertext = Ok ("hello world" : data TString)) /\
  (exists ciphertext : data (Named UString),
     Key_Encrypt k ("hello world" : data (Named UString)) (ReaderDraws (fun _ => "A"%char))
       = Ok ciphertext /\
     Key_Decrypt k ciphertext = Err (errors_New "invalid encrypted data")).
Proof.
  cbv zeta.
  set (k := Key_aesCbc
              {| cbc_key := pbkdf2_Key (bytes_of_string "123456")
                              (bytes_of_string "123456") 1000 16;
                 cbc_algorithm := AesCbc128 |}).
  assert (Hk : KeyImport (AnyString "123456") AesCbc128 = Ok k) by reflexivity.
  split; [reflexivity |]. split; [exact Hk |].
  pose proof (aes_roundtrip_only_for_plain_types
                stand_in_AES_length stand_in_AES_inverse stand_in_GCM_length
                stand_in_GCM_open_seal std_PBKDF2_length
                (AnyString "123456") AesCbc128 16 k (fun _ => "A"%char) eq_refl Hk)
    as [Hplain Hnamed].
  split.
  - exact (Hplain UString ("hello world" : data TString)).
  - exact (Hnamed UString ("hello world" : data (Named UString))).
Defined.

(** A passphrase of six bytes imported for AES-256 yields a key of 32 bytes. *)
Lemma aes_KeyImport_stretches_witness :
  raw_bytes (AnyString "123456") = Some (bytes_of_string "123456") /\
  bytes_of_string "123456" <> [] /\
  aes_required_length AesCbc256 = Some 32 /\
  exists k : Key,
    KeyImport
      (AnyString "123456") AesCbc256 = Ok k /\
    aesKeyImportImpl_KeyImport (AnyString "123456") AesCbc256 = Ok k /\
    Key_algorithm k = AesCbc256 /\
    Key_material k =
      (if Z.of_nat (length (bytes_of_string "123456")) =? 32
       then bytes_of_string "123456"
       else pbkdf2_Key (bytes_of_string "123456") (bytes_of_string "123456") 1000 32) /\
    Z.of_nat (length (Key_material k)) = 32.
Proof.
  split; [reflexivity |]. split; [discriminate |]. split; [reflexivity |].
  apply (aes_KeyImport_stretches
           std_PBKDF2_length (AnyString "123456") (bytes_of_string "123456")
           AesCbc256 32); [reflexivity | discriminate | reflexivity].
Defined.

(** The example of the package: the text key ["123456"] signs
    ["hello world"].  A forged digest that shares five bytes with the
    envelope is rejected after six comparisons; the envelope itself is
    accepted after all forty-eight. *)
Lemma hmacShaKeyImpl_Verify_stops_at_first_difference_witness :
  let h := {| hmac_key := bytes_of_string "123456"; hmac_algorithm := HmacSha256 |} in
  let msg : data TString := "hello world" in
  let signature : data TString := "101.g7PrJ4hFe0ai8XqqBI95WvDZ2ruOWSTdL8DqaC2Sn+U=" in
  let digest : data TString := "101.g8PrJ4hFe0ai8XqqBI95WvDZ2ruOWSTdL8DqaC2Sn+U=" in
  hmacShaKeyImpl_Sign h msg = Ok signature /\
  length (toBytes digest) = length (toBytes signature) /\
  toBytes digest <> toBytes signature /\
  hmacShaKeyImpl_Verify_run h msg digest = (false, 6%nat) /\
  hmacShaKeyImpl_Verify_run h msg signature = (true, 48%nat).
Proof.
  cbv zeta.
  assert (Hs : hmacShaKeyImpl_Sign (T := TString)
                 {| hmac_key := bytes_of_string "123456"; hmac_algorithm := HmacSha256 |}
                 "hello world"
               = Ok ("101.g7PrJ4hFe0ai8XqqBI95WvDZ2ruOWSTdL8DqaC2Sn+U=" : data TString))
    by (vm_compute; reflexivity).
  split; [exact Hs |]. split; [reflexivity |]. split; [discriminate |].
  pose proof (hmacShaKeyImpl_Verify_stops_at_first_difference
                TString
                {| hmac_key := bytes_of_string "123456"; hmac_algorithm := HmacSha256 |}
                ("hello world" : data TString)
                ("101.g7PrJ4hFe0ai8XqqBI95WvDZ2ruOWSTdL8DqaC2Sn+U=" : data TString)
                ("101.g8PrJ4hFe0ai8XqqBI95WvDZ2ruOWSTdL8DqaC2Sn+U=" : data TString)
                Hs eq_refl ltac:(discriminate)) as (H1 & H2 & _ & _).
  split; [exact H1 | exact H2].
Defined.

(** A text of two blocks that ends in the byte 17: the envelope of its
    encryption is decrypted, without error, to its first 15 bytes. *)
Lemma aesCbcKeyImpl_Decrypt_strips_unchecked_witness :
  let a := {| cbc_key := repeat zero 16; cbc_algorithm := AesCbc128 |} in
  let iv := repeat "A"%char 16 in
  let text := repeat "B"%char 31 ++ ["017"%char] in
  aes_key_size (cbc_key a) /\
  0 <= cbc_algorithm a <= 2 ^ 63 - 1 /\
  length iv = 16%nat /\
  length text = (16 * 2)%nat /\
  last text = Some "017"%char /\
  (N.to_nat (byte_val "017"%char) <= length text)%nat /\
  aesCbcKeyImpl_Decrypt (T := TString) a
    "201.QUFBQUFBQUFBQUFBQUFBQQMDAwMDAwMDAwMDAwMDAwMSQUFBQUFBQUFBQUFBQUFB" =
  Ok ("BBBBBBBBBBBBBBB" : data TString).
Proof.
  cbv zeta.
  assert (Hkey : aes_key_size (repeat zero 16)) by (left; reflexivity).
  assert (Halg : 0 <= AesCbc128 <= 2 ^ 63 - 1) by (vm_compute; split; discriminate).
  assert (Hb : (N.to_nat (byte_val "017"%char) <= length (repeat "B"%char 31 ++ ["017"%char]))%nat)
    by (vm_compute; lia).
  split; [exact Hkey |]. split; [exact Halg |]. split; [reflexivity |].
  split; [reflexivity |]. split; [reflexivity |]. split; [exact Hb |].
  exact (aesCbcKeyImpl_Decrypt_strips_unchecked stand_in_AES_length stand_in_AES_inverse
           UString {| cbc_key := repeat zero 16; cbc_algorithm := AesCbc128 |}
           (repeat "A"%char 16) (repeat "B"%char 31 ++ ["017"%char]) 1 "017"%char
           Hkey Halg eq_refl eq_refl eq_refl Hb).
Defined.

(** ["hello world"] signed by a P-256 private key and verified by its public
    key: rejected, although the stand-in primitive accepts every signature. *)
Lemma ecdsa_Verify_rejects_signed_message_witness :
  let e := {| priv_privateKey := tt : ecdsa_PrivateKey; priv_algorithm := EcdsaP256 |} in
  let pub := {| pub_publicKey := tt : ecdsa_PublicKey; pub_algorithm := 0 |} in
  cut "." "hello world" = None /\
  ecdsaPrivateKey_Sign (T := TString) e "hello world" ReaderFails = Ok ("301." : data TString) /\
  ecdsaPrivateKey_PublicKey e = Ok pub /\
  ecdsaPublicKey_Verify (T := TString) pub "hello world" "301." = false /\
  Key_Verify (T := TString) (Key_ecdsaPublic pub) "hello world" "301." = false.
Proof.
  cbv zeta.
  split; [reflexivity |]. split; [reflexivity |]. split; [reflexivity |].
  exact (ecdsa_Verify_rejects_signed_message TString
           {| priv_privateKey := tt : ecdsa_PrivateKey; priv_algorithm := EcdsaP256 |}
           ("hello world" : data TString) ReaderFails ("301." : data TString)
           {| pub_publicKey := tt : ecdsa_PublicKey; pub_algorithm := 0 |}
           eq_refl eq_refl eq_refl).
Defined.

(** A key generated with the defaults signs; a key generated with an output
    length of 16 for the same algorithm rejects that signature, and the
    signing key accepts it. *)
Lemma argon2_Verify_depends_on_configured_length_witness :
  let k := {| argon2.k_algorithm := "ARGON2"; argon2.k_method := "argon2id";
              argon2.k_saltSize := 16; argon2.k_time := 1;
              argon2.k_memory := 65536; argon2.k_threads := 4;
              argon2.k_length := 32 |} in
  let k' := {| argon2.k_algorithm := "ARGON2"; argon2.k_method := "argon2id";
               argon2.k_saltSize := 16; argon2.k_time := 1;
               argon2.k_memory := 65536; argon2.k_threads := 4;
               argon2.k_length := 16 |} in
  let signature : data TString :=
    "ARGON2.argon2id$v=19$m=65536,t=1,p=4$QUFBQUFBQUFBQUFBQUFBQQ$AAAAAAAAAAAAAAAAAAAAAAAAAAAAAAAAAAAAAAAAAAA" in
  argon2.KeyGen "ARGON2" [] = Ok k /\
  argon2.KeyGen "ARGON2" [argon2.WithLength 16] = Ok k' /\
  argon2_key_ok k /\
  cut "." (argon2.k_algorithm k) = None /\
  argon2.Sign (T := TString) k "password" (ReaderDraws (fun _ => "A"%char)) = Ok signature /\
  argon2.Verify (T := TString) k' "password" signature = Ok false /\
  argon2.Verify (T := TString) k "password" signature = Ok true.
Proof.
  cbv zeta.
  set (k := {| argon2.k_algorithm := "ARGON2"; argon2.k_method := "argon2id";
               argon2.k_saltSize := 16; argon2.k_time := 1;
               argon2.k_memory := 65536; argon2.k_threads := 4;
               argon2.k_length := 32 |}).
  set (k' := {| argon2.k_algorithm := "ARGON2"; argon2.k_method := "argon2id";
                argon2.k_saltSize := 16; argon2.k_time := 1;
                argon2.k_memory := 65536; argon2.k_threads := 4;
                argon2.k_length := 16 |}).
  assert (Hok : argon2_key_ok k).
  { unfold argon2_key_ok, k. cbn.
    repeat split; try (right; reflexivity); try discriminate; reflexivity. }
  split; [reflexivity |]. split; [reflexivity |]. split; [exact Hok |].
  split; [reflexivity |]. split; [reflexivity |]. split.
  - exact (argon2_Verify_depends_on_configured_length stand_in_Argon2_length UString k k'
             ("password" : data TString) _ (fun _ => "A"%char)
             Hok eq_refl eq_refl eq_refl ltac:(cbn; split; [discriminate | reflexivity])).
  - exact (argon2_Verify_depends_on_configured_length stand_in_Argon2_length UString k k
             ("password" : data TString) _ (fun _ => "A"%char)
             Hok eq_refl eq_refl eq_refl ltac:(cbn; split; [discriminate | reflexivity])).
Defined.

(** An envelope tagged 201 given to keys for other algorithms: the AES-GCM
    key names the mismatch, the HMAC key answers [false]; the Argon2 key
    names the mismatch of its own tag. *)
Lemma envelope_tag_is_checked_witness :
  aesGcmKeyImpl_Decrypt (T := TString)
    {| gcm_key := repeat zero 16; gcm_algorithm := AesGcm128 |} "201.AAAA" =
    Err (errors_New "invalid algorithm type: AES_CBC_128") /\
  aesCbcKeyImpl_Decrypt (T := TString)
    {| cbc_key := repeat zero 32; cbc_algorithm := AesCbc256 |} "201.AAAA" =
    Err (errors_New "invalid algorithm type: AES_CBC_128") /\
  hmacShaKeyImpl_Verify (T := TString)
    {| hmac_key := bytes_of_string "123456"; hmac_algorithm := HmacSha256 |}
    "hello world" "201.AAAA" = false /\
  argon2.Verify (T := TString)
    {| argon2.k_algorithm := "ARGON2"; argon2.k_method := "argon2id";
       argon2.k_saltSize := 16; argon2.k_time := 1; argon2.k_memory := 65536;
       argon2.k_threads := 4; argon2.k_length := 32 |}
    "password" "PBKDF2.argon2id$v=19$m=65536,t=1,p=4$QUFB$AAAA" =
    Err (errors_New "argon2: invalid algorithm type: PBKDF2").
Proof.
  destruct envelope_tag_is_checked as (Hcrypto & _ & _ & Hargon2).
  destruct (Hcrypto UString ("201.AAAA" : data TString) "201" "AAAA" 201 eq_refl eq_refl)
    as (Hcbc & Hgcm & Hhmac).
  split; [apply Hgcm; discriminate |].
  split; [apply Hcbc; discriminate |].
  split; [apply Hhmac; discriminate |].
  apply (Hargon2 UString _ ("password" : data TString)
           ("PBKDF2.argon2id$v=19$m=65536,t=1,p=4$QUFB$AAAA" : data TString)
           "PBKDF2" "argon2id$v=19$m=65536,t=1,p=4$QUFB$AAAA" eq_refl).
  discriminate.
Defined.

(** ** Where the statements of the specification fail *)

(** The stripping at concrete texts: a payload that is an IV and nothing
    else makes [Decrypt] index the empty text at -1; the stripping itself
    accepts a final byte 0 (nothing is removed) and a final byte 17 (more
    than a block is removed), and panics on a final byte larger than the
    text.  No padding error exists. *)
Lemma aesCbcKeyImpl_Decrypt_padding_not_validated :
  aesCbcKeyImpl_Decrypt (T := TString)
    {| cbc_key := repeat zero 16; cbc_algorithm := AesCbc128 |}
    "201.AAAAAAAAAAAAAAAAAAAAAA==" = Panic "index out of range [-1]" /\
  pkcs7UnPadding (T := TBytes) (repeat "B"%char 15 ++ ["000"%char]) =
    Ok (repeat "B"%char 15 ++ ["000"%char]) /\
  pkcs7UnPadding (T := TBytes) (repeat "B"%char 31 ++ ["017"%char]) =
    Ok (repeat "B"%char 15) /\
  pkcs7UnPadding (T := TBytes) ["005"%char] = Panic "slice bounds out of range".
Proof. repeat split. Qed.

(** C5: an envelope tagged for AES-CBC-128 given to a key for HMAC-SHA-256.
    [Decrypt] fails with the unsupported-method error, which is not the
    algorithm-mismatch error, and [Verify] answers [false] without any
    error. *)
Lemma hmac_key_reports_no_algorithm_mismatch :
  hmacShaKeyImpl_Decrypt (T := TString)
    {| hmac_key := bytes_of_string "123456"; hmac_algorithm := HmacSha256 |}
    "201.QUFBQUFBQUFBQUFBQUFBQUREREREJS0zLjZhLi0tJCk=" = Err ErrUnsupportedMethod /\
  ErrUnsupportedMethod <>
    errors_New ("invalid algorithm type: " +:+ GetTypeByAlgorithm AesCbc128) /\
  hmacShaKeyImpl_Verify (T := TString)
    {| hmac_key := bytes_of_string "123456"; hmac_algorithm := HmacSha256 |}
    "hello world" "201.QUFBQUFBQUFBQUFBQUFBQUREREREJS0zLjZhLi0tJCk=" = false.
Proof. split; [reflexivity |]. split; [discriminate | vm_compute; reflexivity]. Qed.

(** C8: empty material imported for ECDSA-P256 fails, but with the error of
    the missing importer, not with [ErrEmptyKey]. *)
Lemma KeyImport_empty_material_without_importer :
  KeyImport (AnyBytes []) EcdsaP256 = Err (errors_New "not found key importer: 301") /\
  KeyImport (AnyString EmptyString) EcdsaP256 =
    Err (errors_New "not found key importer: 301") /\
  errors_New "not found key importer: 301" <> ErrEmptyKey.
Proof. split; [reflexivity |]. split; [reflexivity | discriminate]. Qed.

End Instances.

(* ===================================================================== *)
(** * Part III: further properties of the code                            *)
(* ===================================================================== *)

(** ** The registry of algorithms *)

Lemma algorithmsType_elem (a : Algorithm) (t : AlgorithmType) :
  algorithmsType !! a = Some t ->
  In (a, t)
    [ (HmacSha256, TypeHmacSha256); (HmacSha512, TypeHmacSha512);
      (AesCbc128, TypeAesCbc128); (AesCbc192, TypeAesCbc192);
      (AesCbc256, TypeAesCbc256); (AesGcm128, TypeAesGcm128);
      (AesGcm192, TypeAesGcm192); (AesGcm256, TypeAesGcm256);
      (EcdsaP256, TypeEcdsaP256); (EcdsaP384, TypeEcdsaP384);
      (Rsa1024, TypeRsa1024); (Rsa2048, TypeRsa2048); (Rsa4096, TypeRsa4096) ].
Proof.
  intros H. apply list_elem_of_In. apply elem_of_list_to_map_2. exact H.
Qed.

Lemma algorithms_elem (t : AlgorithmType) (a : Algorithm) :
  algorithms !! t = Some a ->
  In (a, t)
    [ (HmacSha256, TypeHmacSha256); (HmacSha512, TypeHmacSha512);
      (AesCbc128, TypeAesCbc128); (AesCbc192, TypeAesCbc192);
      (AesCbc256, TypeAesCbc256); (AesGcm128, TypeAesGcm128);
      (AesGcm192, TypeAesGcm192); (AesGcm256, TypeAesGcm256);
      (EcdsaP256, TypeEcdsaP256); (EcdsaP384, TypeEcdsaP384);
      (Rsa1024, TypeRsa1024); (Rsa2048, TypeRsa2048); (Rsa4096, TypeRsa4096) ].
Proof.
  intros H. apply elem_of_list_to_map_2 in H. apply list_elem_of_In in H.
  cbn [In] in H |- *.
  repeat (destruct H as [H | H]; [injection H as <- <-; tauto |]).
  contradiction.
Qed.

(** X1.  The two tables of the registry are inverse to each other: an
    algorithm that has a name is found again under its name, a name that has
    an algorithm is the name of that algorithm, and the algorithms without a
    name (the empty string) are exactly the numbers outside 101, 102,
    201..206 and 301..305. *)
Theorem registry_round_trip :
  (forall a : Algorithm,
      GetTypeByAlgorithm a <> EmptyString ->
      GetAlgorithmByType (GetTypeByAlgorithm a) = a) /\
  (forall t : AlgorithmType,
      GetAlgorithmByType t <> 0 ->
      GetTypeByAlgorithm (GetAlgorithmByType t) = t) /\
  (forall a : Algorithm,
      GetTypeByAlgorithm a = EmptyString <->
      ~ In a [101; 102; 201; 202; 203; 204; 205; 206; 301; 302; 303; 304; 305]).
Proof.
  split; [| split].
  - intros a Ha. unfold GetTypeByAlgorithm in *.
    destruct (algorithmsType !! a) as [t|] eqn:E; [| contradiction Ha; reflexivity].
    apply algorithmsType_elem in E. cbn [In] in E.
    repeat (destruct E as [E | E]; [injection E as <- <-; reflexivity |]).
    contradiction.
  - intros t Ht. unfold GetAlgorithmByType in *.
    destruct (algorithms !! t) as [a|] eqn:E; [| contradiction Ht; reflexivity].
    apply algorithms_elem in E. cbn [In] in E.
    repeat (destruct E as [E | E]; [injection E as <- <-; reflexivity |]).
    contradiction.
  - intros a. unfold GetTypeByAlgorithm. split.
    + intros He Hin. cbn [In] in Hin.
      repeat (destruct Hin as [<- | Hin]; [discriminate He |]). contradiction.
    + intros Hn. destruct (algorithmsType !! a) as [t|] eqn:E; [| reflexivity].
      exfalso. apply Hn. apply algorithmsType_elem in E. cbn [In] in E |- *.
      repeat (destruct E as [E | E]; [injection E as <- _; tauto |]).
      contradiction.
Qed.

Section FurtherProperties.
Context {Haes : AES} {Hgcm : GCM} {Hhmac : HMAC} {Hkdf : PBKDF2} {Hecdsa : ECDSA}
        {Hargon2 : Argon2}.

(** ** Key import *)

Lemma checkAndConvertKey_cases (raw : any) :
  (exists key, raw_bytes raw = Some key /\ key <> [] /\ checkAndConvertKey raw = Ok key) \/
  (raw_bytes raw = Some [] /\ checkAndConvertKey raw = Err ErrEmptyKey) \/
  (raw_bytes raw = None /\ checkAndConvertKey raw = Err ErrUnsupportedKey).
Proof.
  destruct raw as [[|x b] | [|c s] |]; cbn.
  - right; left; auto.
  - left. eexists. repeat split. discriminate.
  - right; left; auto.
  - left. eexists. repeat split. discriminate.
  - right; right; auto.
Qed.

Lemma has_importer_cases (alg : Algorithm) :
  has_importer alg = true ->
  alg = HmacSha256 \/ alg = HmacSha512 \/ alg = AesCbc128 \/ alg = AesCbc192 \/
  alg = AesCbc256 \/ alg = AesGcm128 \/ alg = AesGcm192 \/ alg = AesGcm256.
Proof.
  unfold has_importer.
  destruct (Z.eqb_spec alg HmacSha256); [tauto |].
  destruct (Z.eqb_spec alg HmacSha512); [tauto |].
  destruct (Z.eqb_spec alg AesCbc128); [tauto |].
  destruct (Z.eqb_spec alg AesCbc192); [tauto |].
  destruct (Z.eqb_spec alg AesCbc256); [tauto |].
  destruct (Z.eqb_spec alg AesGcm128); [tauto |].
  destruct (Z.eqb_spec alg AesGcm192); [tauto |].
  destruct (Z.eqb_spec alg AesGcm256); [tauto |].
  discriminate.
Qed.

Lemma KeyImport_no_importer (raw : any) (alg : Algorithm) :
  has_importer alg = false ->
  KeyImport raw alg = Err (errors_New ("not found key importer: " +:+ strconv_Itoa alg)).
Proof.
  unfold has_importer, KeyImport. intros H.
  destruct (alg =? HmacSha256), (alg =? HmacSha512), (alg =? AesCbc128),
    (alg =? AesCbc192), (alg =? AesCbc256), (alg =? AesGcm128),
    (alg =? AesGcm192), (alg =? AesGcm256); try discriminate H; reflexivity.
Qed.

(** What [KeyImport] returns for an algorithm that has an importer, by the
    result of the check of the material. *)
Lemma KeyImport_importer (raw : any) (alg : Algorithm) :
  has_importer alg = true ->
  match checkAndConvertKey raw with
  | Ok key => exists k, KeyImport raw alg = Ok k /\ Key_algorithm k = alg
  | Err e => KeyImport raw alg = Err e
  | Panic m => False
  end.
Proof.
  intros Hi. apply has_importer_cases in Hi.
  destruct (checkAndConvertKey_cases raw) as [(key & _ & _ & Hc) | [[_ Hc] | [_ Hc]]];
    rewrite Hc;
    destruct Hi as [-> | [-> | [-> | [-> | [-> | [-> | [-> | ->]]]]]]];
    unfold KeyImport, hmacShaKeyImportImpl_KeyImport, aesKeyImportImpl_KeyImport;
    rewrite Hc; cbn; eauto.
Qed.

(** X2.  [KeyImport] never panics, and it returns a key exactly when the
    algorithm is one of the eight that have an importer and the material is
    a non-empty [[]byte] or [string]. *)
Theorem KeyImport_outcomes (raw : any) (alg : Algorithm) :
  is_Panic (KeyImport raw alg) = false /\
  (is_Ok (KeyImport raw alg) = true <->
   has_importer alg = true /\ exists key, raw_bytes raw = Some key /\ key <> []).
Proof.
  destruct (has_importer alg) eqn:Hi.
  - pose proof (KeyImport_importer raw alg Hi) as Hk.
    destruct (checkAndConvertKey_cases raw) as [(key & Hr & Hne & Hc) | [[Hr Hc] | [Hr Hc]]];
      rewrite Hc in Hk.
    + destruct Hk as (k & -> & _). split; [reflexivity |].
      split; [intros _; split; [reflexivity | eauto] | reflexivity].
    + rewrite Hk. split; [reflexivity |]. split; [discriminate |].
      intros (_ & key & Hr' & Hne). congruence.
    + rewrite Hk. split; [reflexivity |]. split; [discriminate |].
      intros (_ & key & Hr' & Hne). congruence.
  - rewrite KeyImport_no_importer by exact Hi. split; [reflexivity |].
    split; [discriminate | intros [? _]; discriminate].
Qed.

(** X3.  The importers called directly, as the tests of the package do, on
    material that passes the check: the AES importer panics on every
    algorithm that is not one of the six AES algorithms, so its final error
    for an unsupported algorithm is never returned, and no call of it
    returns an error at all; the HMAC importer answers every algorithm other
    than its two with an error, whose text names AES. *)
Theorem importers_called_directly (raw : any) (key : list byte) (alg : Algorithm) :
  checkAndConvertKey raw = Ok key ->
  (aes_required_length alg = None ->
     aesKeyImportImpl_KeyImport raw alg = Panic "unhandled default case") /\
  (forall e : error, aesKeyImportImpl_KeyImport raw alg <> Err e) /\
  (alg <> HmacSha256 -> alg <> HmacSha512 ->
     hmacShaKeyImportImpl_KeyImport raw alg =
     Err (errors_New ("unsupported aes algorithm: " +:+ GetTypeByAlgorithm alg))).
Proof.
  intros Hc.
  unfold aesKeyImportImpl_KeyImport, hmacShaKeyImportImpl_KeyImport, aes_required_length.
  rewrite Hc. cbn [mbind result_bind].
  split; [| split].
  - destruct ((alg =? AesCbc128) || (alg =? AesGcm128)); [discriminate |].
    destruct ((alg =? AesCbc192) || (alg =? AesGcm192)); [discriminate |].
    destruct ((alg =? AesCbc256) || (alg =? AesGcm256)); [discriminate |].
    reflexivity.
  - intros e.
    destruct (Z.eqb_spec alg AesCbc128) as [-> |]; [discriminate |].
    destruct (Z.eqb_spec alg AesGcm128) as [-> |]; [discriminate |].
    destruct (Z.eqb_spec alg AesCbc192) as [-> |]; [discriminate |].
    destruct (Z.eqb_spec alg AesGcm192) as [-> |]; [discriminate |].
    destruct (Z.eqb_spec alg AesCbc256) as [-> |]; [discriminate |].
    destruct (Z.eqb_spec alg AesGcm256) as [-> |]; [discriminate |].
    discriminate.
  - intros H1 H2.
    destruct (Z.eqb_spec alg HmacSha256); [contradiction |].
    destruct (Z.eqb_spec alg HmacSha512); [contradiction |].
    reflexivity.
Qed.

(** X4.  A text is imported as its bytes: for every algorithm, the import of
    a [string] and the import of the [[]byte] of that string have the same
    result, a key or an error. *)
Theorem KeyImport_text_as_bytes (s : string) (alg : Algorithm) :
  KeyImport (AnyString s) alg = KeyImport (AnyBytes (bytes_of_string s)) alg.
Proof.
  assert (Hc : checkAndConvertKey (AnyString s) =
               checkAndConvertKey (AnyBytes (bytes_of_string s)))
    by (destruct s; reflexivity).
  unfold KeyImport, hmacShaKeyImportImpl_KeyImport, aesKeyImportImpl_KeyImport.
  rewrite Hc. reflexivity.
Qed.

Lemma Key_AlgorithmType_algorithm (k : Key) :
  Key_AlgorithmType k = GetTypeByAlgorithm (Key_algorithm k).
Proof. destruct k; reflexivity. Qed.

(** X5.  A key that [KeyImport] returns knows the algorithm it was imported
    for: [AlgorithmType()] is the name of that algorithm in the registry,
    which is not empty, and the registry maps that name back to the
    algorithm. *)
Theorem KeyImport_reports_algorithm (raw : any) (alg : Algorithm) (k : Key) :
  KeyImport raw alg = Ok k ->
  Key_algorithm k = alg /\
  Key_AlgorithmType k = GetTypeByAlgorithm alg /\
  Key_AlgorithmType k <> EmptyString /\
  GetAlgorithmByType (Key_AlgorithmType k) = alg.
Proof.
  intros Hk.
  destruct (has_importer alg) eqn:Hi;
    [| rewrite KeyImport_no_importer in Hk by exact Hi; discriminate].
  pose proof (KeyImport_importer raw alg Hi) as Hk'.
  destruct (checkAndConvertKey raw) as [key | e |]; [| congruence | contradiction].
  destruct Hk' as (k' & Hk' & Halg). rewrite Hk in Hk'. injection Hk' as <-.
  rewrite Key_AlgorithmType_algorithm, Halg.
  split; [reflexivity |]. split; [reflexivity |].
  apply has_importer_cases in Hi.
  destruct Hi as [-> | [-> | [-> | [-> | [-> | [-> | [-> | ->]]]]]]];
    (split; [discriminate | reflexivity]).
Qed.

Lemma hmac_KeyImport_material (raw : any) (key : list byte) (alg : Algorithm) :
  raw_bytes raw = Some key -> key <> [] ->
  alg = HmacSha256 \/ alg = HmacSha512 ->
  KeyImport raw alg = Ok (Key_hmacSha {| hmac_key := key; hmac_algorithm := alg |}).
Proof.
  intros Hr Hne Halg.
  pose proof (checkAndConvertKey_raw_bytes raw key Hr Hne) as Hc.
  unfold KeyImport, hmacShaKeyImportImpl_KeyImport. rewrite Hc.
  destruct Halg as [-> | ->]; reflexivity.
Qed.

(** X6.  The HMAC importer keeps the material as it is given: of any
    non-empty length, with no stretching and no requirement on the length,
    unlike the AES importer. *)
Theorem hmac_KeyImport_keeps_material (raw : any) (key : list byte) (alg : Algorithm) :
  raw_bytes raw = Some key -> key <> [] ->
  alg = HmacSha256 \/ alg = HmacSha512 ->
  KeyImport raw alg = Ok (Key_hmacSha {| hmac_key := key; hmac_algorithm := alg |}).
Proof. exact (hmac_KeyImport_material raw key alg). Qed.

(** ** HMAC keys *)

Lemma bytes_Equal_refl (a : list byte) : bytes_Equal a a = true.
Proof.
  unfold bytes_Equal, bytes_Equal_run. rewrite Nat.eqb_refl, memequal_refl. reflexivity.
Qed.

(** X7.  For messages and digests that are [[]byte] or [string], [Verify] of
    an HMAC key accepts a digest exactly when it is the envelope that [Sign]
    returns for the message: nothing else verifies, and what [Sign] returns
    always does. *)
Theorem hmacShaKeyImpl_Verify_iff_Sign (u : Underlying) (h : hmacShaKeyImpl)
    (msg digest : data (Plain u)) :
  hmacShaKeyImpl_Verify h msg digest = true <-> hmacShaKeyImpl_Sign h msg = Ok digest.
Proof.
  unfold hmacShaKeyImpl_Verify, hmacShaKeyImpl_Verify_run. split.
  - destruct (hmacShaKeyImpl_Sign h msg) as [sig | |]; try discriminate.
    intros Hv. apply bytes_Equal_eq in Hv. f_equal.
    rewrite <- (T_of_bytes_toBytes u sig), Hv. apply T_of_bytes_toBytes.
  - intros ->. apply bytes_Equal_refl.
Qed.

(** X8.  For messages and digests of a defined type over [[]byte] or
    [string], a key imported for HMAC-SHA-256 or HMAC-SHA-512 verifies
    everything: [Verify] answers [true] for every message and every digest,
    and [Sign] returns one and the same envelope for every message.  Both
    sides of the comparison in [Verify], and the message in [Sign], pass
    through [toBytes], which answers a value of a defined type with the nil
    slice. *)
Theorem hmac_defined_type_verifies_everything (u : Underlying) (raw : any)
    (alg : Algorithm) (k : Key) (msg msg' digest : data (Named u)) (rnd : RandReader) :
  alg = HmacSha256 \/ alg = HmacSha512 ->
  KeyImport raw alg = Ok k ->
  Key_Verify k msg digest = true /\
  Key_Sign k msg rnd = Key_Sign k msg' rnd.
Proof.
  intros Halg Hk.
  assert (Hh : exists key, k = Key_hmacSha {| hmac_key := key; hmac_algorithm := alg |}).
  { unfold KeyImport, hmacShaKeyImportImpl_KeyImport in Hk.
    destruct Halg as [-> | ->]; cbn in Hk;
      destruct (checkAndConvertKey raw) as [key | |]; cbn in Hk; try discriminate;
      injection Hk as <-; eauto. }
  destruct Hh as (key & ->).
  cbn [Key_Verify Key_Sign].
  unfold hmacShaKeyImpl_Verify, hmacShaKeyImpl_Verify_run, hmacShaKeyImpl_Sign.
  cbn [hmac_algorithm hmac_key]. rewrite !toBytes_Named.
  destruct Halg as [-> | ->];
    [ change (HmacSha256 =? HmacSha256) with true
    | change (HmacSha512 =? HmacSha256) with false;
      change (HmacSha512 =? HmacSha512) with true ];
    cbn [mbind result_bind]; rewrite ?toBytes_Named; split; reflexivity.
Qed.

Lemma string_length_app (a b : string) :
  String.length (a +:+ b) = (String.length a + String.length b)%nat.
Proof.
  induction a as [|c a IH]; [reflexivity |].
  rewrite string_app_cons. cbn [String.length]. rewrite IH. reflexivity.
Qed.

Lemma bytes_of_string_length (s : string) : length (bytes_of_string s) = String.length s.
Proof. induction s as [|c s IH]; [reflexivity |]. cbn. f_equal. exact IH. Qed.

(** The padded encoding has four characters for every three bytes begun. *)
Lemma base64_StdEncoding_length (src : list byte) :
  String.length (base64_StdEncoding_EncodeToString src) = (4 * ((length src + 2) / 3))%nat.
Proof.
  unfold base64_StdEncoding_EncodeToString.
  induction src as [| x | x y | x y z rest IH] using list_ind3; try reflexivity.
  cbn [base64_encode String.length length]. rewrite IH.
  replace (S (S (S (length rest))) + 2)%nat with (1 * 3 + (length rest + 2))%nat by lia.
  rewrite Nat.div_add_l by lia. lia.
Qed.

(** What [crypto/hmac] returns: as many bytes as the hash has. *)
Hypothesis hmac_sha256_size : forall key msg, length (hmac_sha256 key msg) = 32%nat.
Hypothesis hmac_sha512_size : forall key msg, length (hmac_sha512 key msg) = 64%nat.

(** X9.  The envelope that [Sign] of an HMAC key returns has a fixed size,
    whatever the key and the message: 48 bytes for HMAC-SHA-256 (the tag
    ["101."] and 44 characters of base64) and 92 bytes for HMAC-SHA-512. *)
Theorem hmacShaKeyImpl_Sign_size (u : Underlying) (h : hmacShaKeyImpl)
    (msg signature : data (Plain u)) :
  hmacShaKeyImpl_Sign h msg = Ok signature ->
  (hmac_algorithm h = HmacSha256 /\ length (toBytes signature) = 48%nat) \/
  (hmac_algorithm h = HmacSha512 /\ length (toBytes signature) = 92%nat).
Proof.
  unfold hmacShaKeyImpl_Sign. intros Hs.
  destruct (Z.eqb_spec (hmac_algorithm h) HmacSha256) as [E | E].
  - left. split; [exact E |]. cbn [mbind result_bind] in Hs. injection Hs as <-.
    rewrite toBytes_T_of_bytes, bytes_of_string_length, E.
    rewrite !string_length_app, base64_StdEncoding_length, hmac_sha256_size. reflexivity.
  - destruct (Z.eqb_spec (hmac_algorithm h) HmacSha512) as [E' | E']; [| discriminate].
    right. split; [exact E' |]. cbn [mbind result_bind] in Hs. injection Hs as <-.
    rewrite toBytes_T_of_bytes, bytes_of_string_length, E'.
    rewrite !string_length_app, base64_StdEncoding_length, hmac_sha512_size. reflexivity.
Qed.

(** ** AES keys: what [Decrypt] does with a bad envelope *)

Lemma strconv_Atoi_no_panic (s : string) : is_Panic (strconv_Atoi s) = false.
Proof.
  unfold strconv_Atoi.
  destruct (match s with
            | String "-" r => (true, r)
            | String "+" r => (false, r)
            | _ => (false, s)
            end) as [neg body].
  destruct body as [|c body]; [reflexivity |].
  destruct (parse_digits (String c body) 0) as [n|]; [| reflexivity].
  destruct ((_ <? _) || (_ <? _)); reflexivity.
Qed.

Lemma base64_decode_no_panic (pad : bool) (src : string) : forall q : list N,
  is_Panic (base64_decode pad src q) = false.
Proof.
  induction src as [|c rest IH]; intros q.
  - cbn [base64_decode]. destruct q as [|? [|? ?]]; try reflexivity.
    destruct pad; reflexivity.
  - cbn [base64_decode]. destruct (decodeMap c) as [v|].
    + destruct (length q =? 3)%nat; [| apply IH].
      specialize (IH []). destruct (base64_decode pad rest []); try reflexivity.
      discriminate IH.
    + destruct (is_newline c); [apply IH |].
      destruct (pad && Ascii.eqb c padChar); [| reflexivity].
      destruct q as [|? [|? [|? ?]]]; try reflexivity.
      * destruct (skip_newlines rest) as [|c' rest']; [reflexivity |].
        destruct (Ascii.eqb c' padChar); [| reflexivity].
        destruct (skip_newlines rest'); reflexivity.
      * destruct (skip_newlines rest); reflexivity.
Qed.

(** X10.  [Decrypt] of an AES-GCM key never panics: for every key, of any
    material and algorithm, and every input in any representation it
    returns a plaintext or an error. *)
Theorem aesGcmKeyImpl_Decrypt_never_panics (T : DataType) (a : aesGcmKeyImpl)
    (ciphertext : data T) :
  is_Panic (aesGcmKeyImpl_Decrypt a ciphertext) = false /\
  is_Panic (Key_Decrypt (Key_aesGcm a) ciphertext) = false.
Proof.
  enough (H : is_Panic (aesGcmKeyImpl_Decrypt a ciphertext) = false) by (split; exact H).
  unfold aesGcmKeyImpl_Decrypt.
  destruct (strings_SplitN (toString ciphertext) "." 2) as [|p0 [|p1 [|? ?]]]; try reflexivity.
  pose proof (strconv_Atoi_no_panic p0) as Ha.
  destruct (strconv_Atoi p0) as [typ | e |]; [| reflexivity | discriminate Ha].
  cbn [on_err mbind result_bind].
  destruct (negb (typ =? gcm_algorithm a)); [reflexivity |].
  pose proof (base64_decode_no_panic true p1 []) as Hb.
  unfold base64_StdEncoding_DecodeString.
  destruct (base64_decode true p1 []) as [encryptedData | e |];
    [| reflexivity | discriminate Hb].
  cbn [on_err mbind result_bind].
  unfold aes_NewCipher. destruct (_ || _); [| reflexivity].
  cbn [on_err mbind result_bind cipher_NewGCM]. unfold gcm_NonceSize.
  destruct (Z.ltb_spec (Z.of_nat (length encryptedData)) 12) as [E | E]; [reflexivity |].
  unfold gcm_Open, gcm_NonceSize. rewrite length_take.
  replace (Z.of_nat (Z.to_nat 12 `min` length encryptedData)) with 12 by lia.
  cbn [Z.eqb Pos.eqb negb].
  destruct (_ <? gcm_tagSize); [reflexivity |].
  destruct (gcm_open _ _ _ _); reflexivity.
Qed.

(** X11.  An envelope tagged for the AES-GCM key whose payload is too short
    to hold a nonce and a tag is refused with an error, before the cipher is
    used: fewer than 12 bytes are "too short", and 12 to 27 bytes, a nonce
    without a whole tag, fail to open. *)
Theorem aesGcmKeyImpl_Decrypt_short_payload (u : Underlying) (a : aesGcmKeyImpl)
    (payload : list byte) :
  aes_key_size (gcm_key a) ->
  0 <= gcm_algorithm a <= 2 ^ 63 - 1 ->
  let envelope := strconv_Itoa (gcm_algorithm a) +:+ "." +:+
                  base64_StdEncoding_EncodeToString payload in
  ((length payload < 12)%nat ->
     aesGcmKeyImpl_Decrypt (T := Plain u) a (T_of_string envelope) =
     Err (errors_New "encrypted data too short")) /\
  ((12 <= length payload < 28)%nat ->
     aesGcmKeyImpl_Decrypt (T := Plain u) a (T_of_string envelope) =
     Err (Wrapped "gcm open error: " errOpen)).
Proof.
  intros Hkey Halg envelope.
  assert (Hd : aesGcmKeyImpl_Decrypt (T := Plain u) a (T_of_string envelope) =
    (if Z.of_nat (length payload) <? 12
     then Err (errors_New "encrypted data too short")
     else
       decryptedData ← on_err (Wrapped "gcm open error: ")
                         (gcm_Open {| gcm_cipher := {| Block_key := gcm_key a |} |}
                            (firstn 12 payload) (skipn 12 payload) []);
       Ok (T_of_bytes decryptedData))).
  { unfold aesGcmKeyImpl_Decrypt, envelope.
    rewrite toString_T_of_string.
    rewrite envelope_split by lia.
    rewrite envelope_tag by lia. cbn [mbind result_bind].
    rewrite Z.eqb_refl. cbn [negb].
    unfold base64_StdEncoding_DecodeString, base64_StdEncoding_EncodeToString.
    rewrite base64_decode_encode. cbn [on_err mbind result_bind].
    rewrite aes_NewCipher_valid by exact Hkey.
    cbn [on_err mbind result_bind cipher_NewGCM]. reflexivity. }
  rewrite Hd. split; intros Hlen.
  - destruct (Z.ltb_spec (Z.of_nat (length payload)) 12); [reflexivity | lia].
  - destruct (Z.ltb_spec (Z.of_nat (length payload)) 12); [lia |].
    unfold gcm_Open, gcm_NonceSize, gcm_tagSize. rewrite length_take, length_drop.
    replace (Z.of_nat (12 `min` length payload)) with 12 by lia.
    cbn [Z.eqb Pos.eqb negb].
    destruct (Z.ltb_spec (Z.of_nat (length payload - 12)) 16); [reflexivity | lia].
Qed.

(** X12.  An envelope tagged for the AES-CBC key whose payload is not an IV
    followed by at least one whole block makes [Decrypt] panic, whatever the
    key: on fewer than 16 bytes at the slices that split the IV off, on
    exactly 16 bytes at the last byte of an empty text, and on more than 16
    bytes that are not whole blocks inside [CryptBlocks]. *)
Theorem aesCbcKeyImpl_Decrypt_panics_by_length (u : Underlying) (a : aesCbcKeyImpl)
    (payload : list byte) :
  aes_key_size (cbc_key a) ->
  0 <= cbc_algorithm a <= 2 ^ 63 - 1 ->
  let envelope := strconv_Itoa (cbc_algorithm a) +:+ "." +:+
                  base64_StdEncoding_EncodeToString payload in
  ((length payload < 16)%nat ->
     aesCbcKeyImpl_Decrypt (T := Plain u) a (T_of_string envelope) =
     Panic "slice bounds out of range") /\
  (length payload = 16%nat ->
     aesCbcKeyImpl_Decrypt (T := Plain u) a (T_of_string envelope) =
     Panic "index out of range [-1]") /\
  ((16 < length payload)%nat -> (length payload mod 16 <> 0)%nat ->
     aesCbcKeyImpl_Decrypt (T := Plain u) a (T_of_string envelope) =
     Panic "crypto/cipher: input not full blocks").
Proof.
  intros Hkey Halg envelope.
  assert (Hd : aesCbcKeyImpl_Decrypt (T := Plain u) a (T_of_string envelope) =
    ('(iv, srcCiphertextBytes) ← split_iv payload;
     block ← on_err (Printed "new aes chipher error: ") (aes_NewCipher (cbc_key a));
     mode ← cipher_NewCBCDecrypter block iv;
     paddedText ← cbcDecrypter_CryptBlocks mode srcCiphertextBytes;
     plain ← pkcs7UnPadding (T := TBytes) paddedText;
     Ok (T_of_bytes plain))).
  { unfold aesCbcKeyImpl_Decrypt, envelope.
    rewrite toString_T_of_string.
    rewrite envelope_split by lia.
    rewrite envelope_tag by lia. cbn [mbind result_bind].
    rewrite Z.eqb_refl. cbn [negb].
    unfold base64_StdEncoding_DecodeString, base64_StdEncoding_EncodeToString.
    rewrite base64_decode_encode. cbn [on_err mbind result_bind]. reflexivity. }
  rewrite Hd. unfold split_iv, aes_BlockSize. split; [| split].
  - intros Hlen.
    destruct (Z.ltb_spec (Z.of_nat (length payload)) 16); [reflexivity | lia].
  - intros Hlen.
    destruct (Z.ltb_spec (Z.of_nat (length payload)) 16); [lia |].
    cbn [mbind result_bind].
    rewrite aes_NewCipher_valid by exact Hkey. cbn [on_err mbind result_bind].
    unfold cipher_NewCBCDecrypter, aes_BlockSize. rewrite length_take, Hlen.
    cbn [Nat.min Z.of_nat Pos.of_succ_nat Pos.succ Z.eqb Pos.eqb negb mbind result_bind].
    rewrite drop_ge by lia. reflexivity.
  - intros Hlen Hmod.
    destruct (Z.ltb_spec (Z.of_nat (length payload)) 16); [lia |].
    cbn [mbind result_bind].
    rewrite aes_NewCipher_valid by exact Hkey. cbn [on_err mbind result_bind].
    unfold cipher_NewCBCDecrypter, aes_BlockSize. rewrite length_take.
    replace (Z.of_nat (16 `min` length payload)) with 16 by lia.
    cbn [Z.eqb Pos.eqb negb mbind result_bind].
    unfold cbcDecrypter_CryptBlocks, aes_BlockSize. rewrite length_drop.
    destruct (Z.eqb_spec (Z.of_nat (length payload - 16) mod 16) 0) as [E | E];
      [| reflexivity].
    exfalso. apply Hmod.
    assert (Hm : (length payload mod 16 = (length payload - 16) mod 16)%nat).
    { replace (length payload) with ((length payload - 16) + 1 * 16)%nat at 1 by lia.
      apply Nat.Div0.mod_add. }
    rewrite Hm. apply Nat2Z.inj. rewrite Nat2Z.inj_mod. exact E.
Qed.

(** X13.  [Decrypt] of an AES key answers a text that is not an envelope
    with an error, in every representation: a text without ["."] is
    "invalid encrypted data", a tag that is not a number is "type is not a
    number", and a payload that is not base64 is reported with the error of
    the decoder. *)
Theorem aes_Decrypt_malformed (T : DataType) (ciphertext : data T)
    (a : aesCbcKeyImpl) (g : aesGcmKeyImpl) :
  (cut "." (toString ciphertext) = None ->
     aesCbcKeyImpl_Decrypt a ciphertext = Err (errors_New "invalid encrypted data") /\
     aesGcmKeyImpl_Decrypt g ciphertext = Err (errors_New "invalid encrypted data")) /\
  (forall (part0 part1 : string) (e : error),
     strings_SplitN (toString ciphertext) "." 2 = [part0; part1] ->
     strconv_Atoi part0 = Err e ->
     aesCbcKeyImpl_Decrypt a ciphertext = Err (errors_New "type is not a number") /\
     aesGcmKeyImpl_Decrypt g ciphertext = Err (errors_New "type is not a number")) /\
  (forall (part0 part1 : string) (e : error),
     strings_SplitN (toString ciphertext) "." 2 = [part0; part1] ->
     base64_StdEncoding_DecodeString part1 = Err e ->
     (strconv_Atoi part0 = Ok (cbc_algorithm a) ->
        aesCbcKeyImpl_Decrypt a ciphertext =
        Err (Wrapped "ciphertext decodeing base64 error: " e)) /\
     (strconv_Atoi part0 = Ok (gcm_algorithm g) ->
        aesGcmKeyImpl_Decrypt g ciphertext =
        Err (Wrapped "ciphertext decodeing base64 error: " e))).
Proof.
  unfold aesCbcKeyImpl_Decrypt, aesGcmKeyImpl_Decrypt. split; [| split].
  - intros Hcut. cbn [strings_SplitN]. rewrite Hcut. split; reflexivity.
  - intros part0 part1 e -> ->. split; reflexivity.
  - intros part0 part1 e -> Hb. split; intros ->; cbn [on_err mbind result_bind];
      rewrite Z.eqb_refl, Hb; reflexivity.
Qed.

(** ** AES keys: what [Encrypt] returns *)

(** What the package relies on from the block cipher and from GCM. *)
Hypothesis encryptBlock_16 : forall key blk,
  length blk = 16%nat -> length (aes_encryptBlock key blk) = 16%nat.
Hypothesis seal_adds_16 : forall key nonce plaintext additional,
  length (gcm_seal key nonce plaintext additional) = (length plaintext + 16)%nat.

Lemma T_of_bytes_of_string (T : DataType) (s : string) :
  T_of_bytes (T := T) (bytes_of_string s) = T_of_string s.
Proof. destruct T as [[|] | [|]]; simpl; try reflexivity; apply string_of_bytes_of_string. Qed.

(** X14.  When the random source fails, [Encrypt] returns no ciphertext but
    the error of the source, wrapped: the AES-CBC key draws its IV before it
    looks at its own material, so it reports the source whatever the key;
    the AES-GCM key, with material of a valid size, reports it as the error
    of the nonce. *)
Theorem aes_Encrypt_failing_reader (T : DataType) (plaintext : data T) :
  (forall a : aesCbcKeyImpl,
      aesCbcKeyImpl_Encrypt a plaintext ReaderFails =
      Err (Wrapped "random iv error: " errEntropy)) /\
  (forall a : aesGcmKeyImpl, aes_key_size (gcm_key a) ->
      aesGcmKeyImpl_Encrypt a plaintext ReaderFails =
      Err (Wrapped "random gcm nonce error: " errEntropy)).
Proof.
  split.
  - intros a. destruct (pkcs7Padding_16 T plaintext) as (k & _ & Hpad & _).
    unfold aesCbcKeyImpl_Encrypt. change aes_BlockSize with 16. rewrite Hpad. reflexivity.
  - intros a Hkey. unfold aesGcmKeyImpl_Encrypt.
    rewrite aes_NewCipher_valid by exact Hkey. reflexivity.
Qed.



(** ** What each kind of key can do *)

(** X17.  Behind the interface every operation belongs to some kinds of key
    only: a call of [Encrypt] or [Decrypt] succeeds on AES keys only, a call
    of [Sign] on HMAC keys and ECDSA private keys only, [Verify] answers
    [true] on HMAC keys and ECDSA public keys only, and [PublicKey] returns
    a key for ECDSA keys only. *)
Theorem Key_capabilities (T : DataType) (k : Key) (msg digest : data T) (rnd : RandReader) :
  (is_Ok (Key_Encrypt k msg rnd) = true \/ is_Ok (Key_Decrypt k msg) = true ->
     match k with Key_aesCbc _ | Key_aesGcm _ => True | _ => False end) /\
  (is_Ok (Key_Sign k msg rnd) = true ->
     match k with Key_hmacSha _ | Key_ecdsaPrivate _ => True | _ => False end) /\
  (Key_Verify k msg digest = true ->
     match k with Key_hmacSha _ | Key_ecdsaPublic _ => True | _ => False end) /\
  (is_Ok (Key_PublicKey k) = true ->
     match k with Key_ecdsaPrivate _ | Key_ecdsaPublic _ => True | _ => False end).
Proof.
  destruct k; cbn [Key_Encrypt Key_Decrypt Key_Sign Key_Verify Key_PublicKey];
    repeat split; try exact I; try discriminate; intros [H | H]; discriminate H.
Qed.

(** ** Export of the symmetric keys *)

Lemma hex_length (b : list byte) : String.length (SHA2.hex b) = (2 * length b)%nat.
Proof.
  induction b as [|x b IH]; [reflexivity |].
  cbn [SHA2.hex String.length length]. rewrite IH. lia.
Qed.

Lemma hex_digit_is_hex (n : N) : (n < 16)%N -> is_hex_digit (SHA2.hex_digit n) = true.
Proof.
  intros Hn.
  assert (Hall : forallb (fun m => is_hex_digit (SHA2.hex_digit m))
                   (map N.of_nat (seq 0 16)) = true) by (vm_compute; reflexivity).
  rewrite forallb_forall in Hall. apply Hall.
  apply in_map_iff. exists (N.to_nat n). split; [lia | apply in_seq; lia].
Qed.

Lemma hex_is_hex (b : list byte) : is_hex (SHA2.hex b) = true.
Proof.
  induction b as [|x b IH]; [reflexivity |].
  pose proof (byte_val_bound x) as Hx.
  cbn [SHA2.hex is_hex]. rewrite IH, !hex_digit_is_hex; [reflexivity | |].
  - apply N.mod_lt. discriminate.
  - apply N.Div0.div_lt_upper_bound. exact Hx.
Qed.

(** X18.  [Bytes] of an HMAC key returns the material as a text of
    lower-case hexadecimal digits, two for each byte; [KeyImport] reads a
    text as its bytes, so importing what [Bytes] exported gives a key whose
    material is the text itself, twice as long as the material exported, not
    the key that was exported. *)
Theorem hmac_Bytes_is_not_reimported (h : hmacShaKeyImpl) :
  hmac_key h <> [] ->
  hmac_algorithm h = HmacSha256 \/ hmac_algorithm h = HmacSha512 ->
  exists (text : string) (h' : hmacShaKeyImpl),
    hmacShaKeyImpl_Bytes (T := TString) h = Ok text /\
    String.length text = (2 * length (hmac_key h))%nat /\
    is_hex text = true /\
    KeyImport (AnyString text) (hmac_algorithm h) = Ok (Key_hmacSha h') /\
    hmac_key h' = bytes_of_string text /\
    length (hmac_key h') = (2 * length (hmac_key h))%nat /\
    h' <> h.
Proof.
  intros Hne Halg.
  exists (SHA2.hex (hmac_key h)),
         {| hmac_key := bytes_of_string (SHA2.hex (hmac_key h));
            hmac_algorithm := hmac_algorithm h |}.
  assert (Hl : length (bytes_of_string (SHA2.hex (hmac_key h))) = (2 * length (hmac_key h))%nat)
    by (rewrite bytes_of_string_length; apply hex_length).
  split; [reflexivity |]. split; [apply hex_length |]. split; [apply hex_is_hex |].
  split; [| split; [reflexivity |]; split; [exact Hl |]].
  - apply hmac_KeyImport_material; [reflexivity | | exact Halg].
    intros E. rewrite E in Hl. destruct (hmac_key h); [congruence | discriminate Hl].
  - intros E. apply (f_equal hmac_key) in E. cbn [hmac_key] in E.
    rewrite E in Hl. destruct (hmac_key h); [congruence | cbn in Hl; lia].
Qed.

(** ** Key identifiers *)

Context {Hell : Elliptic}.

(** X19.  The identifier of an AES or HMAC key is the SHA-256 digest of its
    material as 64 lower-case hexadecimal digits.  It depends on the
    material alone: keys of different kinds or algorithms with the same
    material have the same identifier. *)
Theorem symmetric_SKI_of_material (T : DataType) (k1 k2 : Key) :
  Key_is_symmetric k1 = true -> Key_is_symmetric k2 = true ->
  Key_material k1 = Key_material k2 ->
  Key_SKI (T := T) k1 = Key_SKI k2 /\
  exists text : string,
    Key_SKI (T := T) k1 = Ok (T_of_string text) /\
    text = SHA2.hex (SHA2.sum SHA2.sha256 (Key_material k1)) /\
    String.length text = 64%nat /\
    is_hex text = true.
Proof.
  intros H1 H2 Hm.
  assert (Hs : forall k, Key_is_symmetric k = true ->
             Key_SKI (T := T) k =
             Ok (T_of_string (SHA2.hex (SHA2.sum SHA2.sha256 (Key_material k)))))
    by (intros [a | a | h | e | e] Hk; try discriminate Hk; reflexivity).
  rewrite (Hs k1 H1), (Hs k2 H2), Hm. split; [reflexivity |].
  eexists. split; [reflexivity |]. split; [reflexivity |].
  split; [| apply hex_is_hex].
  rewrite hex_length, sha256_sum_length. reflexivity.
Qed.


(** ** PKCS#7 padding for any block size *)

Lemma pkcs7Padding_value (T : DataType) (src : data T) (blockSize : Z) :
  0 < blockSize ->
  let k := Z.to_nat (blockSize - Z.of_nat (length (toBytes src)) mod blockSize) in
  (1 <= k <= Z.to_nat blockSize)%nat /\
  pkcs7Padding src blockSize = Ok (toBytes src ++ repeat (byte_of_int (Z.of_nat k)) k) /\
  Z.of_nat (length (toBytes src) + k) mod blockSize = 0.
Proof.
  intros Hbs k.
  pose proof (Z.mod_pos_bound (Z.of_nat (length (toBytes src))) blockSize Hbs) as Hm.
  assert (Hk : Z.of_nat k = blockSize - Z.of_nat (length (toBytes src)) mod blockSize)
    by (unfold k; lia).
  split; [lia |]. split.
  - unfold pkcs7Padding.
    destruct (Z.eqb_spec blockSize 0) as [E | _]; [lia |].
    rewrite Z.rem_mod_nonneg by lia. rewrite <- Hk.
    destruct (Z.eqb_spec (Z.of_nat k) 0) as [E | _]; [lia |].
    unfold bytes_Repeat_int, bytes_Repeat.
    destruct (Z.ltb_spec (Z.of_nat k) 0) as [E | _]; [lia |].
    cbn [mbind result_bind]. rewrite Nat2Z.id. reflexivity.
  - rewrite Nat2Z.inj_add, Hk.
    pose proof (Z.div_mod (Z.of_nat (length (toBytes src))) blockSize ltac:(lia)) as Hd.
    replace (Z.of_nat (length (toBytes src)) +
             (blockSize - Z.of_nat (length (toBytes src)) mod blockSize))
      with ((Z.of_nat (length (toBytes src)) / blockSize + 1) * blockSize) by lia.
    apply Z.mod_mul. lia.
Qed.



(** X23.  The bound of 255 is sharp: with a block size of 256 the padding
    byte wraps to 0, and a text of whole blocks is padded with 256 zero
    bytes that the stripping leaves in place. *)
Theorem pkcs7Padding_256_is_not_stripped (T : DataType) (src : data T) :
  Z.of_nat (length (toBytes src)) mod 256 = 0 ->
  pkcs7Padding src 256 = Ok (toBytes src ++ repeat zero 256) /\
  pkcs7UnPadding (T := TBytes) (toBytes src ++ repeat zero 256) =
    Ok (toBytes src ++ repeat zero 256).
Proof.
  intros Hm.
  destruct (pkcs7Padding_value T src 256 ltac:(lia)) as (_ & Hpad & _).
  rewrite Hm in Hpad. split; [exact Hpad |].
  unfold pkcs7UnPadding. cbn [toBytes].
  rewrite last_app_repeat by lia.
  change (Z.of_N (byte_val zero)) with 0. rewrite Z.sub_0_r.
  destruct (Z.ltb_spec (Z.of_nat (length (toBytes src ++ repeat zero 256))) 0); [lia |].
  rewrite Nat2Z.id, firstn_all. reflexivity.
Qed.

(** ** Argon2 keys *)

Lemma argon2_option_keeps (opt : argon2.Option) (ki k : argon2.KeyImpl) :
  argon2_offered opt -> argon2_key_positive ki -> opt ki = Ok k ->
  argon2_key_positive k /\ argon2.k_algorithm k = argon2.k_algorithm ki.
Proof.
  intros Ho (Hm & Hs & Ht & Hmem & Hthr & Hl) Hk.
  destruct Ho as [method | size Hr | time Hr | memory Hr | threads Hr | len Hr].
  - unfold argon2.WithMethod in Hk.
    destruct (String.eqb_spec method argon2.MethodArgon2i) as [E1 | E1];
      [| destruct (String.eqb_spec method argon2.MethodArgon2id) as [E2 | E2]];
      cbn [negb andb] in Hk; try discriminate Hk; injection Hk as <-;
      (split; [| reflexivity]); unfold argon2_key_positive; cbn; tauto.
  - unfold argon2.WithSaltSize in Hk.
    destruct (Z.leb_spec size 0); injection Hk as <-;
      (split; [| reflexivity]); unfold argon2_key_positive; cbn; repeat split; tauto || lia.
  - unfold argon2.WithTime in Hk.
    destruct (Z.eqb_spec time 0); injection Hk as <-;
      (split; [| reflexivity]); unfold argon2_key_positive; cbn; repeat split; tauto || lia.
  - unfold argon2.WithMemory in Hk.
    destruct (Z.eqb_spec memory 0); injection Hk as <-;
      (split; [| reflexivity]); unfold argon2_key_positive; cbn; repeat split; tauto || lia.
  - unfold argon2.WithThreads in Hk.
    destruct (Z.eqb_spec threads 0); injection Hk as <-;
      (split; [| reflexivity]); unfold argon2_key_positive; cbn; repeat split; tauto || lia.
  - unfold argon2.WithLength in Hk.
    destruct (Z.leb_spec len 0); injection Hk as <-;
      (split; [| reflexivity]); unfold argon2_key_positive; cbn; repeat split; tauto || lia.
Qed.


Lemma argon2_apply_options_keeps (opts : list argon2.Option) : forall ki k : argon2.KeyImpl,
  Forall argon2_offered opts -> argon2_key_positive ki ->
  argon2.apply_options opts ki = Ok k ->
  argon2_key_positive k /\ argon2.k_algorithm k = argon2.k_algorithm ki.
Proof.
  induction opts as [|opt opts IH]; intros ki k Ho Hp Hk.
  - injection Hk as <-. auto.
  - apply Forall_cons in Ho as [Ho Hos]. cbn [argon2.apply_options] in Hk.
    destruct (opt ki) as [ki' | |] eqn:E; try discriminate Hk.
    cbn [mbind result_bind] in Hk.
    destruct (argon2_option_keeps opt ki ki' Ho Hp E) as [Hp' Ha'].
    destruct (IH ki' k Hos Hp' Hk) as [Hp'' Ha'']. split; [exact Hp'' | congruence].
Qed.

Lemma argon2_KeyGen_positive (alg : argon2.types_Algorithm) (opts : list argon2.Option)
    (k : argon2.KeyImpl) :
  Forall argon2_offered opts -> argon2.KeyGen alg opts = Ok k ->
  argon2_key_positive k /\ argon2.k_algorithm k = alg.
Proof.
  intros Ho Hk. unfold argon2.KeyGen in Hk.
  apply argon2_apply_options_keeps in Hk; [exact Hk | exact Ho |].
  unfold argon2_key_positive. cbn. repeat split; try lia. right. reflexivity.
Qed.


Lemma argon2_signature_split (algorithm method version params salt digest : string) :
  cut "." algorithm = None -> cut "$" method = None -> cut "$" version = None ->
  cut "$" params = None -> cut "$" salt = None ->
  exists encodedSignature : string,
    strings_SplitN (argon2_signature_text algorithm method version params salt digest) "." 2 =
      [algorithm; encodedSignature] /\
    strings_SplitN encodedSignature "$" 5 = [method; version; params; salt; digest].
Proof.
  intros Ha Hm Hv Hp Hs. unfold argon2_signature_text.
  change ("." +:+ ?x) with (String "."%char x).
  repeat change ("$" +:+ ?x) with (String "$"%char x).
  eexists. split.
  - rewrite strings_SplitN_cut by exact Ha. rewrite strings_SplitN_one. reflexivity.
  - rewrite strings_SplitN_cut by exact Hm.
    rewrite strings_SplitN_cut by exact Hv.
    rewrite strings_SplitN_cut by exact Hp.
    rewrite strings_SplitN_cut by exact Hs.
    rewrite strings_SplitN_one. reflexivity.
Qed.

Lemma cut_params_text (memory time threads : Z) :
  0 <= memory -> 0 <= time -> 0 <= threads ->
  cut "$" (argon2_params_text memory time threads) = None.
Proof.
  intros Hm Ht Hp. unfold argon2_params_text.
  repeat apply cut_none_app; try reflexivity;
    apply cut_digits; try reflexivity; apply strconv_Itoa_nonneg; assumption.
Qed.

(** [Verify] on a signature in the form [Sign] prints, version 19. *)
Lemma argon2_Verify_printed (u : Underlying) (k : argon2.KeyImpl) (msg : data (Plain u))
    (method : string) (memory time threads : Z) (salt digest : list byte) :
  cut "." (argon2.k_algorithm k) = None -> cut "$" method = None ->
  0 <= memory < 2 ^ 32 -> 0 <= time < 2 ^ 32 -> 0 <= threads < 2 ^ 8 ->
  argon2.Verify k msg
    (T_of_string (argon2_signature_text (argon2.k_algorithm k) method "v=19"
                    (argon2_params_text memory time threads)
                    (base64_RawStdEncoding_EncodeToString salt)
                    (base64_RawStdEncoding_EncodeToString digest))) =
  (computedDigest ←
     (if String.eqb method argon2.MethodArgon2i
      then argon2.argon2_Key (argon2.utils_ToBytes msg) salt time memory threads
             (argon2.k_length k)
      else argon2.argon2_IDKey (argon2.utils_ToBytes msg) salt time memory threads
             (argon2.k_length k));
   Ok (hmac_Equal digest computedDigest)).
Proof.
  intros Ha Hm Hmem Ht Hthr.
  destruct (argon2_signature_split (argon2.k_algorithm k) method "v=19"
              (argon2_params_text memory time threads)
              (base64_RawStdEncoding_EncodeToString salt)
              (base64_RawStdEncoding_EncodeToString digest) Ha Hm eq_refl
              (cut_params_text memory time threads ltac:(lia) ltac:(lia) ltac:(lia))
              (cut_base64_encode "$" false salt eq_refl ltac:(discriminate)))
    as (enc & H1 & H2).
  unfold argon2.Verify, argon2.utils_ToString.
  rewrite toString_T_of_string, H1, String.eqb_refl.
  cbn [negb]. rewrite H2.
  change (argon2.Sscanf_version "v=19") with (Ok 19 : result Z).
  cbn [on_err mbind result_bind].
  change (negb (19 =? argon2.argon2_Version)) with false. cbn iota.
  unfold argon2_params_text.
  rewrite Sscanf_params_printed by lia. cbn [on_err mbind result_bind].
  unfold base64_RawStdEncoding_DecodeString, base64_RawStdEncoding_EncodeToString.
  rewrite !base64_decode_encode. cbn [on_err mbind result_bind]. reflexivity.
Qed.

(** X25.  A key that [KeyGen] returned, with any options of the package,
    for an algorithm whose name has no ["."], signs every message, a
    [[]byte] or a [string], whatever salt the random source draws, and
    verifies the signature it made. *)
Theorem argon2_KeyGen_Sign_Verify (u : Underlying) (alg : argon2.types_Algorithm)
    (opts : list argon2.Option) (k : argon2.KeyImpl) (msg : data (Plain u))
    (draw : nat -> byte) :
  Forall argon2_offered opts ->
  argon2.KeyGen alg opts = Ok k ->
  cut "." alg = None ->
  exists signature : data (Plain u),
    argon2.Sign k msg (ReaderDraws draw) = Ok signature /\
    argon2.Verify k msg signature = Ok true.
Proof.
  intros Ho Hk Hdot.
  destruct (argon2_KeyGen_positive alg opts k Ho Hk)
    as [(Hmethod & Hsalt & Htime & Hmem & Hthr & Hlen) Halg].
  assert (Hok : argon2_key_ok k) by (unfold argon2_key_ok; repeat split; tauto || lia).
  rewrite (argon2_Sign_envelope (Plain u) k msg draw Hok).
  eexists. split; [reflexivity |].
  rewrite T_of_bytes_of_string.
  set (salt := map draw (seq 0 (Z.to_nat (argon2.k_saltSize k)))).
  match goal with
  | |- argon2.Verify k msg (T_of_string ?s) = _ =>
      change s with
        (argon2_signature_text (argon2.k_algorithm k) (argon2.k_method k) "v=19"
           (argon2_params_text (argon2.k_memory k) (argon2.k_time k) (argon2.k_threads k))
           (base64_RawStdEncoding_EncodeToString salt)
           (base64_RawStdEncoding_EncodeToString
              ((if String.eqb (argon2.k_method k) argon2.MethodArgon2i
                then argon2i_derive else argon2id_derive)
                 (argon2.utils_ToBytes msg) salt (argon2.k_time k) (argon2.k_memory k)
                 (argon2.k_threads k) (argon2.k_length k))))
  end.
  rewrite argon2_Verify_printed; try lia.
  - unfold argon2.argon2_Key, argon2.argon2_IDKey.
    destruct (Z.ltb_spec (argon2.k_time k) 1) as [E1|E1]; [lia |].
    destruct (Z.ltb_spec (argon2.k_threads k) 1) as [E2|E2]; [lia |].
    destruct (String.eqb (argon2.k_method k) argon2.MethodArgon2i);
      cbn [mbind result_bind]; rewrite hmac_Equal_refl; reflexivity.
  - rewrite Halg. exact Hdot.
  - destruct Hmethod as [-> | ->]; reflexivity.
Qed.

(** X26.  [Verify] takes the time and the number of threads from the
    signature and hands them to the derivation unchecked: a signature in the
    printed form that announces zero passes, or zero threads, makes [Verify]
    panic, for every key, message, salt and digest. *)
Theorem argon2_Verify_panics_on_zero_cost (u : Underlying) (k : argon2.KeyImpl)
    (msg : data (Plain u))
    (method : string) (memory time threads : Z) (salt digest : list byte) :
  cut "." (argon2.k_algorithm k) = None -> cut "$" method = None ->
  0 <= memory < 2 ^ 32 -> 0 <= time < 2 ^ 32 -> 0 <= threads < 2 ^ 8 ->
  let signature : data (Plain u) :=
    T_of_string (argon2_signature_text (argon2.k_algorithm k) method "v=19"
                   (argon2_params_text memory time threads)
                   (base64_RawStdEncoding_EncodeToString salt)
                   (base64_RawStdEncoding_EncodeToString digest)) in
  (time = 0 -> argon2.Verify k msg signature = Panic "argon2: number of rounds too small") /\
  (1 <= time -> threads = 0 ->
     argon2.Verify k msg signature = Panic "argon2: parallelism degree too low").
Proof.
  intros Ha Hm Hmem Ht Hthr signature. unfold signature.
  rewrite argon2_Verify_printed by assumption.
  unfold argon2.argon2_Key, argon2.argon2_IDKey. split.
  - intros ->. cbn [Z.ltb Z.compare]. destruct (String.eqb method _); reflexivity.
  - intros H1 ->. destruct (Z.ltb_spec time 1); [lia |].
    cbn [Z.ltb Z.compare]. destruct (String.eqb method _); reflexivity.
Qed.

(** X27.  [Verify] does not check the method a signature names: every name
    other than ["argon2i"] is verified as argon2id, so a signature whose
    method is replaced by any such text has the result of the signature
    that names ["argon2id"]. *)
Theorem argon2_Verify_unknown_method (u : Underlying) (k : argon2.KeyImpl)
    (msg : data (Plain u))
    (method : string) (memory time threads : Z) (salt digest : list byte) :
  cut "." (argon2.k_algorithm k) = None -> cut "$" method = None ->
  0 <= memory < 2 ^ 32 -> 0 <= time < 2 ^ 32 -> 0 <= threads < 2 ^ 8 ->
  method <> argon2.MethodArgon2i ->
  argon2.Verify k msg
    (T_of_string (argon2_signature_text (argon2.k_algorithm k) method "v=19"
                    (argon2_params_text memory time threads)
                    (base64_RawStdEncoding_EncodeToString salt)
                    (base64_RawStdEncoding_EncodeToString digest))) =
  argon2.Verify k msg
    (T_of_string (argon2_signature_text (argon2.k_algorithm k) argon2.MethodArgon2id "v=19"
                    (argon2_params_text memory time threads)
                    (base64_RawStdEncoding_EncodeToString salt)
                    (base64_RawStdEncoding_EncodeToString digest))).
Proof.
  intros Ha Hm Hmem Ht Hthr Hne.
  rewrite !argon2_Verify_printed by first [assumption | reflexivity].
  destruct (String.eqb_spec method argon2.MethodArgon2i); [contradiction | reflexivity].
Qed.

Lemma scan_int_digits (d r : string) (n : Z) :
  is_digits d = true -> d <> EmptyString -> ends_number r ->
  strconv_Atoi d = Ok n ->
  argon2.scan_int (d +:+ r) = Ok (n, r).
Proof.
  intros Hd Hne Hr Ha. unfold argon2.scan_int.
  rewrite scan_SkipSpace_digits by assumption. cbn [mbind result_bind].
  destruct d as [|c d]; [congruence |].
  pose proof (scan_token_digits (String c d) r Hd Hr) as Ht.
  rewrite string_app_cons in *.
  assert (Hc : digit_val c <> None)
    by (cbn [is_digits] in Hd; destruct (digit_val c); [discriminate | discriminate Hd]).
  destruct c as [[] [] [] [] [] [] [] []]; try (exfalso; apply Hc; reflexivity);
    rewrite Ht; change (EmptyString +:+ ?x) with x; rewrite Ha; reflexivity.
Qed.

Lemma Sscanf_version_printed (v : Z) :
  0 <= v <= 2 ^ 63 - 1 -> argon2.Sscanf_version ("v=" +:+ strconv_Itoa v) = Ok v.
Proof.
  intros Hv. unfold argon2.Sscanf_version.
  change ("v=" +:+ ?x) with (String "v" (String "=" x)).
  cbn [argon2.scan_literal Ascii.eqb Bool.eqb]. cbn [mbind result_bind].
  destruct (strconv_Itoa_nonneg v ltac:(lia)) as (Hd & Hne & _).
  rewrite <- (string_app_nil_r (strconv_Itoa v)).
  rewrite (scan_int_digits (strconv_Itoa v) EmptyString v Hd Hne I)
    by (apply strconv_Atoi_Itoa; lia).
  reflexivity.
Qed.

(** X28.  [Verify] accepts version 19 only: a signature of the right
    structure that announces any other version is refused with an error
    that names that version, before its parameters, salt and digest are
    looked at. *)
Theorem argon2_Verify_other_version (u : Underlying) (k : argon2.KeyImpl)
    (msg : data (Plain u))
    (method params salt digest : string) (v : Z) :
  cut "." (argon2.k_algorithm k) = None -> cut "$" method = None ->
  cut "$" params = None -> cut "$" salt = None ->
  0 <= v <= 2 ^ 63 - 1 -> v <> 19 ->
  argon2.Verify k msg
    (T_of_string (argon2_signature_text (argon2.k_algorithm k) method
                    ("v=" +:+ strconv_Itoa v) params salt digest)) =
  Err (errors_New ("argon2: invalid version: " +:+ strconv_Itoa v)).
Proof.
  intros Ha Hm Hp Hs Hv Hne.
  assert (Hcv : cut "$" ("v=" +:+ strconv_Itoa v) = None).
  { apply cut_none_app; [reflexivity |].
    apply cut_digits; [reflexivity | apply strconv_Itoa_nonneg; lia]. }
  destruct (argon2_signature_split (argon2.k_algorithm k) method
              ("v=" +:+ strconv_Itoa v) params salt digest Ha Hm Hcv Hp Hs)
    as (enc & H1 & H2).
  unfold argon2.Verify, argon2.utils_ToString.
  rewrite toString_T_of_string, H1, String.eqb_refl.
  cbn [negb]. rewrite H2, Sscanf_version_printed by exact Hv.
  cbn [on_err mbind result_bind]. unfold argon2.argon2_Version.
  destruct (Z.eqb_spec v 19); [contradiction | reflexivity].
Qed.

End FurtherProperties.

(** ** Instances of the further properties at concrete inputs *)

Lemma sha512_hmac_length (key msg : list byte) :
  length (SHA2.hmac SHA2.sha512 key msg) = 64%nat.
Proof.
  unfold SHA2.hmac, SHA2.sum.
  destruct (fold_left _ _ _) as [[[[[[[a b] c] d] e] f] g] h].
  cbn [flat_map]. rewrite !length_app, !bytes_of_word_length. reflexivity.
Qed.

Section FurtherInstances.
#[local] Existing Instance stand_in_AES.
#[local] Existing Instance stand_in_GCM.
#[local] Existing Instance std_HMAC.
#[local] Existing Instance std_PBKDF2.
#[local] Existing Instance stand_in_ECDSA.
#[local] Existing Instance stand_in_Argon2.
#[local] Existing Instance stand_in_Elliptic.

(** The AES importer given the text key ["123456"] for HMAC-SHA-256 panics;
    the HMAC importer given it for AES-CBC-128 names AES in its error. *)
Lemma importers_called_directly_witness :
  checkAndConvertKey (AnyString "123456") = Ok (bytes_of_string "123456") /\
  aesKeyImportImpl_KeyImport (AnyString "123456") HmacSha256 =
    Panic "unhandled default case" /\
  hmacShaKeyImportImpl_KeyImport (AnyString "123456") AesCbc128 =
    Err (errors_New "unsupported aes algorithm: AES_CBC_128").
Proof.
  split; [reflexivity |]. split.
  - apply (importers_called_directly (AnyString "123456") (bytes_of_string "123456")
             HmacSha256 eq_refl). reflexivity.
  - apply (importers_called_directly (AnyString "123456") (bytes_of_string "123456")
             AesCbc128 eq_refl); discriminate.
Defined.

(** The key of the example of the package names HMAC-SHA-256. *)
Lemma KeyImport_reports_algorithm_witness :
  let k := Key_hmacSha {| hmac_key := bytes_of_string "123456";
                          hmac_algorithm := HmacSha256 |} in
  KeyImport (AnyString "123456") HmacSha256 = Ok k /\
  Key_algorithm k = HmacSha256 /\
  Key_AlgorithmType k = "HMAC_SHA256" /\
  Key_AlgorithmType k <> EmptyString /\
  GetAlgorithmByType (Key_AlgorithmType k) = HmacSha256.
Proof.
  cbv zeta. split; [reflexivity |].
  exact (KeyImport_reports_algorithm (AnyString "123456") HmacSha256 _ eq_refl).
Defined.

(** A key of one byte and a key of a hundred bytes are both kept whole. *)
Lemma hmac_KeyImport_keeps_material_witness :
  KeyImport (AnyString "k") HmacSha256 =
    Ok (Key_hmacSha {| hmac_key := bytes_of_string "k"; hmac_algorithm := HmacSha256 |}) /\
  KeyImport (AnyBytes (repeat "k"%char 100)) HmacSha512 =
    Ok (Key_hmacSha {| hmac_key := repeat "k"%char 100; hmac_algorithm := HmacSha512 |}).
Proof.
  split.
  - apply (hmac_KeyImport_keeps_material (AnyString "k") (bytes_of_string "k") HmacSha256);
      [reflexivity | discriminate | left; reflexivity].
  - apply (hmac_KeyImport_keeps_material (AnyBytes (repeat "k"%char 100))
             (repeat "k"%char 100) HmacSha512);
      [reflexivity | discriminate | right; reflexivity].
Defined.

(** The key of the example, used at a defined type over [string]: a digest
    that is no envelope at all verifies for any message. *)
Lemma hmac_defined_type_verifies_everything_witness :
  let k := Key_hmacSha {| hmac_key := bytes_of_string "123456";
                          hmac_algorithm := HmacSha256 |} in
  KeyImport (AnyString "123456") HmacSha256 = Ok k /\
  Key_Verify (T := Named UString) k "goodbye" "garbage" = true /\
  Key_Sign (T := Named UString) k "goodbye" ReaderFails =
    Key_Sign (T := Named UString) k "hello world" ReaderFails.
Proof.
  cbv zeta. split; [reflexivity |].
  exact (hmac_defined_type_verifies_everything UString (AnyString "123456") HmacSha256 _
           ("goodbye" : data (Named UString)) ("hello world" : data (Named UString))
           ("garbage" : data (Named UString)) ReaderFails
           (or_introl eq_refl) eq_refl).
Defined.

(** The digest of the example of the package has 48 bytes. *)
Lemma hmacShaKeyImpl_Sign_size_witness :
  let h := {| hmac_key := bytes_of_string "123456"; hmac_algorithm := HmacSha256 |} in
  let signature : data TString := "101.g7PrJ4hFe0ai8XqqBI95WvDZ2ruOWSTdL8DqaC2Sn+U=" in
  hmacShaKeyImpl_Sign (T := TString) h "hello world" = Ok signature /\
  ((hmac_algorithm h = HmacSha256 /\ length (toBytes signature) = 48%nat) \/
   (hmac_algorithm h = HmacSha512 /\ length (toBytes signature) = 92%nat)).
Proof.
  cbv zeta.
  assert (Hs : hmacShaKeyImpl_Sign (T := TString)
                 {| hmac_key := bytes_of_string "123456"; hmac_algorithm := HmacSha256 |}
                 "hello world"
               = Ok ("101.g7PrJ4hFe0ai8XqqBI95WvDZ2ruOWSTdL8DqaC2Sn+U=" : data TString))
    by (vm_compute; reflexivity).
  split; [exact Hs |].
  exact (hmacShaKeyImpl_Sign_size
           (sha256_hmac_length : forall key msg, length (hmac_sha256 key msg) = 32%nat)
           (sha512_hmac_length : forall key msg, length (hmac_sha512 key msg) = 64%nat)
           UString _ ("hello world" : data TString) _ Hs).
Defined.

(** Payloads of 3 and of 12 zero bytes under the tag of an AES-GCM-128 key. *)
Lemma aesGcmKeyImpl_Decrypt_short_payload_witness :
  let a := {| gcm_key := repeat zero 16; gcm_algorithm := AesGcm128 |} in
  aes_key_size (gcm_key a) /\
  0 <= gcm_algorithm a <= 2 ^ 63 - 1 /\
  aesGcmKeyImpl_Decrypt (T := TString) a "204.AAAA" =
    Err (errors_New "encrypted data too short") /\
  aesGcmKeyImpl_Decrypt (T := TString) a "204.AAAAAAAAAAAAAAAA" =
    Err (Wrapped "gcm open error: " errOpen).
Proof.
  cbv zeta.
  assert (Hkey : aes_key_size (repeat zero 16)) by (left; reflexivity).
  assert (Halg : 0 <= AesGcm128 <= 2 ^ 63 - 1) by (vm_compute; split; discriminate).
  split; [exact Hkey |]. split; [exact Halg |]. split.
  - apply (aesGcmKeyImpl_Decrypt_short_payload UString
             {| gcm_key := repeat zero 16; gcm_algorithm := AesGcm128 |}
             (repeat zero 3) Hkey Halg). cbn. lia.
  - apply (aesGcmKeyImpl_Decrypt_short_payload UString
             {| gcm_key := repeat zero 16; gcm_algorithm := AesGcm128 |}
             (repeat zero 12) Hkey Halg). cbn. lia.
Defined.

(** Payloads of 3, of 16 and of 17 zero bytes under the tag of an
    AES-CBC-128 key. *)
Lemma aesCbcKeyImpl_Decrypt_panics_by_length_witness :
  let a := {| cbc_key := repeat zero 16; cbc_algorithm := AesCbc128 |} in
  aes_key_size (cbc_key a) /\
  0 <= cbc_algorithm a <= 2 ^ 63 - 1 /\
  aesCbcKeyImpl_Decrypt (T := TString) a "201.AAAA" =
    Panic "slice bounds out of range" /\
  aesCbcKeyImpl_Decrypt (T := TString) a "201.AAAAAAAAAAAAAAAAAAAAAA==" =
    Panic "index out of range [-1]" /\
  aesCbcKeyImpl_Decrypt (T := TString) a "201.AAAAAAAAAAAAAAAAAAAAAAA=" =
    Panic "crypto/cipher: input not full blocks".
Proof.
  cbv zeta.
  assert (Hkey : aes_key_size (repeat zero 16)) by (left; reflexivity).
  assert (Halg : 0 <= AesCbc128 <= 2 ^ 63 - 1) by (vm_compute; split; discriminate).
  split; [exact Hkey |]. split; [exact Halg |]. split; [| split].
  - apply (aesCbcKeyImpl_Decrypt_panics_by_length UString
             {| cbc_key := repeat zero 16; cbc_algorithm := AesCbc128 |}
             (repeat zero 3) Hkey Halg). cbn. lia.
  - apply (aesCbcKeyImpl_Decrypt_panics_by_length UString
             {| cbc_key := repeat zero 16; cbc_algorithm := AesCbc128 |}
             (repeat zero 16) Hkey Halg). reflexivity.
  - apply (aesCbcKeyImpl_Decrypt_panics_by_length UString
             {| cbc_key := repeat zero 16; cbc_algorithm := AesCbc128 |}
             (repeat zero 17) Hkey Halg); cbn; [lia | discriminate].
Defined.



(** The key ["123456"] is exported as ["313233343536"], and that text is
    imported as a key of twelve bytes. *)
Lemma hmac_Bytes_is_not_reimported_witness :
  let h := {| hmac_key := bytes_of_string "123456"; hmac_algorithm := HmacSha256 |} in
  hmac_key h <> [] /\
  (hmac_algorithm h = HmacSha256 \/ hmac_algorithm h = HmacSha512) /\
  hmacShaKeyImpl_Bytes (T := TString) h = Ok ("313233343536" : data TString) /\
  exists (text : string) (h' : hmacShaKeyImpl),
    hmacShaKeyImpl_Bytes (T := TString) h = Ok text /\
    String.length text = (2 * length (hmac_key h))%nat /\
    is_hex text = true /\
    KeyImport (AnyString text) (hmac_algorithm h) = Ok (Key_hmacSha h') /\
    hmac_key h' = bytes_of_string text /\
    length (hmac_key h') = (2 * length (hmac_key h))%nat /\
    h' <> h.
Proof.
  cbv zeta.
  assert (Hne : bytes_of_string "123456" <> []) by discriminate.
  split; [exact Hne |]. split; [left; reflexivity |]. split; [reflexivity |].
  exact (hmac_Bytes_is_not_reimported
           {| hmac_key := bytes_of_string "123456"; hmac_algorithm := HmacSha256 |}
           Hne (or_introl eq_refl)).
Defined.

(** The key ["123456"] as an AES-GCM key and as an HMAC key: one
    identifier, the digest the tests of the suite expect. *)
Lemma symmetric_SKI_of_material_witness :
  let k1 := Key_aesGcm {| gcm_key := bytes_of_string "123456"; gcm_algorithm := AesGcm256 |} in
  let k2 := Key_hmacSha {| hmac_key := bytes_of_string "123456";
                           hmac_algorithm := HmacSha512 |} in
  Key_is_symmetric k1 = true /\ Key_is_symmetric k2 = true /\
  Key_material k1 = Key_material k2 /\
  Key_SKI (T := TString) k1 = Key_SKI k2 /\
  Key_SKI (T := TString) k1 =
    Ok ("8d969eef6ecad3c29a3a629280e686cf0c3f5d5a86aff3ca12020c923adc6c92" : data TString).
Proof.
  cbv zeta. split; [reflexivity |]. split; [reflexivity |]. split; [reflexivity |].
  split; [| vm_compute; reflexivity].
  apply (symmetric_SKI_of_material TString
           (Key_aesGcm {| gcm_key := bytes_of_string "123456"; gcm_algorithm := AesGcm256 |})
           (Key_hmacSha {| hmac_key := bytes_of_string "123456";
                           hmac_algorithm := HmacSha512 |})
           eq_refl eq_refl eq_refl).
Defined.



(** The empty text with blocks of 256 bytes. *)
Lemma pkcs7Padding_256_is_not_stripped_witness :
  Z.of_nat (length (toBytes (T := TBytes) [])) mod 256 = 0 /\
  pkcs7Padding (T := TBytes) [] 256 = Ok (repeat zero 256) /\
  pkcs7UnPadding (T := TBytes) (repeat zero 256) = Ok (repeat zero 256).
Proof.
  split; [reflexivity |].
  exact (pkcs7Padding_256_is_not_stripped TBytes ([] : data TBytes) eq_refl).
Defined.


(** A key generated with an output length of 16 signs ["password"] and
    verifies the signature. *)
Lemma argon2_KeyGen_Sign_Verify_witness :
  let k := {| argon2.k_algorithm := "ARGON2"; argon2.k_method := "argon2id";
              argon2.k_saltSize := 16; argon2.k_time := 1; argon2.k_memory := 65536;
              argon2.k_threads := 4; argon2.k_length := 16 |} in
  Forall argon2_offered [argon2.WithLength 16] /\
  argon2.KeyGen "ARGON2" [argon2.WithLength 16] = Ok k /\
  cut "." "ARGON2" = None /\
  exists signature : data TString,
    argon2.Sign k ("password" : data TString) (ReaderDraws (fun _ => "A"%char)) =
      Ok signature /\
    argon2.Verify k ("password" : data TString) signature = Ok true.
Proof.
  cbv zeta.
  assert (Ho : Forall argon2_offered [argon2.WithLength 16])
    by (repeat constructor; lia).
  split; [exact Ho |]. split; [reflexivity |]. split; [reflexivity |].
  exact (argon2_KeyGen_Sign_Verify UString "ARGON2" [argon2.WithLength 16] _
           ("password" : data TString) (fun _ => "A"%char) Ho eq_refl eq_refl).
Defined.

(** A signature that announces no pass, and one that announces no thread,
    given to a key with the defaults. *)
Lemma argon2_Verify_panics_on_zero_cost_witness :
  let k := {| argon2.k_algorithm := "ARGON2"; argon2.k_method := "argon2id";
              argon2.k_saltSize := 16; argon2.k_time := 1; argon2.k_memory := 65536;
              argon2.k_threads := 4; argon2.k_length := 32 |} in
  cut "." (argon2.k_algorithm k) = None /\ cut "$" "argon2id" = None /\
  argon2.Verify (T := TString) k "password"
    "ARGON2.argon2id$v=19$m=65536,t=0,p=4$QUFB$AAAA" =
    Panic "argon2: number of rounds too small" /\
  argon2.Verify (T := TString) k "password"
    "ARGON2.argon2id$v=19$m=65536,t=1,p=0$QUFB$AAAA" =
    Panic "argon2: parallelism degree too low".
Proof.
  cbv zeta. split; [reflexivity |]. split; [reflexivity |]. split.
  - apply (argon2_Verify_panics_on_zero_cost UString
             {| argon2.k_algorithm := "ARGON2"; argon2.k_method := "argon2id";
                argon2.k_saltSize := 16; argon2.k_time := 1; argon2.k_memory := 65536;
                argon2.k_threads := 4; argon2.k_length := 32 |}
             ("password" : data TString) "argon2id" 65536 0 4
             (bytes_of_string "AAA") (repeat zero 3) eq_refl eq_refl);
      first [lia | reflexivity].
  - apply (argon2_Verify_panics_on_zero_cost UString
             {| argon2.k_algorithm := "ARGON2"; argon2.k_method := "argon2id";
                argon2.k_saltSize := 16; argon2.k_time := 1; argon2.k_memory := 65536;
                argon2.k_threads := 4; argon2.k_length := 32 |}
             ("password" : data TString) "argon2id" 65536 1 0
             (bytes_of_string "AAA") (repeat zero 3) eq_refl eq_refl);
      first [lia | reflexivity].
Defined.

(** A signature that names the method ["bcrypt"] is verified as the one that
    names ["argon2id"]. *)
Lemma argon2_Verify_unknown_method_witness :
  let k := {| argon2.k_algorithm := "ARGON2"; argon2.k_method := "argon2id";
              argon2.k_saltSize := 16; argon2.k_time := 1; argon2.k_memory := 65536;
              argon2.k_threads := 4; argon2.k_length := 32 |} in
  cut "." (argon2.k_algorithm k) = None /\ cut "$" "bcrypt" = None /\
  "bcrypt" <> argon2.MethodArgon2i /\
  argon2.Verify (T := TString) k "password"
    "ARGON2.bcrypt$v=19$m=65536,t=1,p=4$QUFB$AAAA" =
  argon2.Verify (T := TString) k "password"
    "ARGON2.argon2id$v=19$m=65536,t=1,p=4$QUFB$AAAA".
Proof.
  cbv zeta. split; [reflexivity |]. split; [reflexivity |]. split; [discriminate |].
  apply (argon2_Verify_unknown_method UString
           {| argon2.k_algorithm := "ARGON2"; argon2.k_method := "argon2id";
              argon2.k_saltSize := 16; argon2.k_time := 1; argon2.k_memory := 65536;
              argon2.k_threads := 4; argon2.k_length := 32 |}
           ("password" : data TString) "bcrypt" 65536 1 4
           (bytes_of_string "AAA") (repeat zero 3) eq_refl eq_refl);
    first [lia | discriminate].
Defined.

(** A signature of version 16. *)
Lemma argon2_Verify_other_version_witness :
  let k := {| argon2.k_algorithm := "ARGON2"; argon2.k_method := "argon2id";
              argon2.k_saltSize := 16; argon2.k_time := 1; argon2.k_memory := 65536;
              argon2.k_threads := 4; argon2.k_length := 32 |} in
  cut "." (argon2.k_algorithm k) = None /\ cut "$" "argon2id" = None /\
  cut "$" "m=65536,t=1,p=4" = None /\ cut "$" "QUFB" = None /\
  0 <= 16 <= 2 ^ 63 - 1 /\ 16 <> 19 /\
  argon2.Verify (T := TString) k "password"
    "ARGON2.argon2id$v=16$m=65536,t=1,p=4$QUFB$AAAA" =
    Err (errors_New "argon2: invalid version: 16").
Proof.
  cbv zeta.
  assert (Hv : 0 <= 16 <= 2 ^ 63 - 1) by lia.
  split; [reflexivity |]. split; [reflexivity |]. split; [reflexivity |].
  split; [reflexivity |]. split; [exact Hv |]. split; [discriminate |].
  apply (argon2_Verify_other_version UString
           {| argon2.k_algorithm := "ARGON2"; argon2.k_method := "argon2id";
              argon2.k_saltSize := 16; argon2.k_time := 1; argon2.k_memory := 65536;
              argon2.k_threads := 4; argon2.k_length := 32 |}
           ("password" : data TString) "argon2id" "m=65536,t=1,p=4" "QUFB" "AAAA" 16
           eq_refl eq_refl eq_refl eq_refl Hv); discriminate.
Defined.

End FurtherInstances.
